(** * TWFF process-log integrity: hash chain, verifiers and sanity checks

    A shallow embedding of [spec/verification/verify_process_log.py] and
    [spec/verification/validate_examples.py]: the canonical encoding of an
    event ([json.dumps] with sorted keys and compact separators), SHA-256,
    [compute_event_hash], the two chain verifiers, [add_hash_chain] and the
    per-document verdict of [main].

    Python values are modelled as the trees [json.load] builds.  A [str] is
    its sequence of code points.  Operations Python applies to a value of
    the wrong type raise, and the embedding raises with them. *)

From Stdlib Require Import String Ascii ZArith NArith Bool Lia List.
From Stdlib Require Import Permutation Sorted DecimalString.
Import ListNotations.

Set Implicit Arguments.
Local Open Scope Z_scope.

(** ** Python strings *)

(** A Python [str]: the list of its Unicode code points. *)
Definition pystr := list N.

(** An ASCII literal of the source as a [pystr]. *)
Definition py (s : string) : pystr := map N_of_ascii (list_ascii_of_string s).

Fixpoint str_eqb (a b : pystr) : bool :=
  match a, b with
  | [], [] => true
  | x :: a', y :: b' => N.eqb x y && str_eqb a' b'
  | _, _ => false
  end.

(** [a < b] on [str]: lexicographic by code point. *)
Fixpoint str_ltb (a b : pystr) : bool :=
  match a, b with
  | _, [] => false
  | [], _ :: _ => true
  | x :: a', y :: b' => N.ltb x y || (N.eqb x y && str_ltb a' b')
  end.

Definition str_leb (a b : pystr) : bool := negb (str_ltb b a).

(** [sep.join(parts)] *)
Fixpoint join (sep : pystr) (parts : list pystr) : pystr :=
  match parts with
  | [] => []
  | [p] => p
  | p :: rest => p ++ sep ++ join sep rest
  end.

(** The lowercase hexadecimal digit of [d mod 16]. *)
Definition hex_digit (d : Z) : N :=
  nth (Z.to_nat (d mod 16)) (py "0123456789abcdef") 48%N.

(** ** Exceptions *)

Inductive exn := TypeError | AttributeError | KeyError | UnicodeEncodeError.

Inductive result (A : Type) :=
| Ok (a : A)
| Raise (e : exn).
Arguments Ok {A} a.
Arguments Raise {A} e.

Definition bind {A B} (r : result A) (k : A -> result B) : result B :=
  match r with
  | Ok a => k a
  | Raise e => Raise e
  end.

Notation "x <- r ;; k" := (bind r (fun x => k))
  (at level 61, r at next level, right associativity).
Notation "' p <- r ;; k" := (bind r (fun p => k))
  (at level 61, p pattern, r at next level, right associativity).

Definition returns {A} (r : result A) : bool :=
  match r with Ok _ => true | Raise _ => false end.

(** ** [str.encode("utf-8")] *)

Module Utf8.

(** The bytes of one code point.  A surrogate (U+D800..U+DFFF) cannot be
    encoded: Python raises [UnicodeEncodeError].  Values above U+10FFFF are
    not code points and no [str] holds them. *)
Definition encode_char (c : N) : result (list Z) :=
  let z := Z.of_N c in
  if z <? 0x80 then Ok [z]
  else if z <? 0x800 then
    Ok [Z.lor 0xC0 (Z.shiftr z 6); Z.lor 0x80 (Z.land z 0x3F)]
  else if (0xD800 <=? z) && (z <=? 0xDFFF) then Raise UnicodeEncodeError
  else if z <? 0x10000 then
    Ok [Z.lor 0xE0 (Z.shiftr z 12);
        Z.lor 0x80 (Z.land (Z.shiftr z 6) 0x3F);
        Z.lor 0x80 (Z.land z 0x3F)]
  else if z <? 0x110000 then
    Ok [Z.lor 0xF0 (Z.shiftr z 18);
        Z.lor 0x80 (Z.land (Z.shiftr z 12) 0x3F);
        Z.lor 0x80 (Z.land (Z.shiftr z 6) 0x3F);
        Z.lor 0x80 (Z.land z 0x3F)]
  else Raise UnicodeEncodeError.

Fixpoint encode (s : pystr) : result (list Z) :=
  match s with
  | [] => Ok []
  | c :: s' =>
      b <- encode_char c ;;
      bs <- encode s' ;;
      Ok (b ++ bs)
  end.

(** Text that [encode] accepts: code points that are Unicode scalar values. *)
Definition scalar (c : N) : bool :=
  let z := Z.of_N c in
  (z <? 0xD800) || ((0xDFFF <? z) && (z <? 0x110000)).

Definition encodable (s : pystr) : bool := forallb scalar s.

End Utf8.

(** ** SHA-256 (FIPS 180-4), as [hashlib.sha256(...).hexdigest()] *)

Module Sha256.

Definition w32 (x : Z) : Z := x mod 2 ^ 32.
Definition add32 (x y : Z) : Z := w32 (x + y).
Definition rotr (n x : Z) : Z :=
  Z.lor (Z.shiftr x n) (w32 (Z.shiftl x (32 - n))).
Definition shr (n x : Z) : Z := Z.shiftr x n.
Definition not32 (x : Z) : Z := Z.lxor x 0xFFFFFFFF.

Definition Ch (x y z : Z) := Z.lxor (Z.land x y) (Z.land (not32 x) z).
Definition Maj (x y z : Z) :=
  Z.lxor (Z.lxor (Z.land x y) (Z.land x z)) (Z.land y z).
Definition bsig0 x := Z.lxor (Z.lxor (rotr 2 x) (rotr 13 x)) (rotr 22 x).
Definition bsig1 x := Z.lxor (Z.lxor (rotr 6 x) (rotr 11 x)) (rotr 25 x).
Definition ssig0 x := Z.lxor (Z.lxor (rotr 7 x) (rotr 18 x)) (shr 3 x).
Definition ssig1 x := Z.lxor (Z.lxor (rotr 17 x) (rotr 19 x)) (shr 10 x).

(** The constants of FIPS 180-4, from their definition: the first 32 bits
    of the fractional parts of the cube roots (for [K]) and of the square
    roots (for [H0]) of the first primes. *)
Definition is_prime (n : Z) : bool :=
  (1 <? n) &&
  forallb (fun d => negb (n mod d =? 0))
          (map Z.of_nat (seq 2 (Z.to_nat n - 2))).

Definition primes (count : nat) : list Z :=
  firstn count (filter is_prime (map Z.of_nat (seq 2 400))).

(** The largest [r + x] below [2 ^ bits] above [r] with cube at most [n]. *)
Fixpoint cube_root (bits : nat) (r n : Z) : Z :=
  match bits with
  | O => r
  | S b =>
      let c := r + 2 ^ Z.of_nat b in
      if c * c * c <=? n then cube_root b c n else cube_root b r n
  end.

Definition frac_cube_root (p : Z) : Z := w32 (cube_root 40 0 (p * 2 ^ 96)).
Definition frac_square_root (p : Z) : Z := w32 (Z.sqrt (p * 2 ^ 64)).

Definition K : list Z := Eval vm_compute in map frac_cube_root (primes 64).

(** The eight working words [a..h]. *)
Record regs := Regs {
  ra : Z; rb : Z; rc : Z; rd : Z; re : Z; rf : Z; rg : Z; rh : Z }.

Definition H0 : regs :=
  Eval vm_compute in
    match map frac_square_root (primes 8) with
    | [a; b; c; d; e; f; g; h] => Regs a b c d e f g h
    | _ => Regs 0 0 0 0 0 0 0 0
    end.

(** Padding: a [0x80] byte, zero bytes up to 56 mod 64, then the bit length
    as a 64-bit big-endian integer. *)
Definition be_bytes (n : nat) (x : Z) : list Z :=
  map (fun i => Z.land (Z.shiftr x (8 * Z.of_nat i)) 0xFF) (rev (seq 0 n)).

Definition pad (msg : list Z) : list Z :=
  let len := Z.of_nat (length msg) in
  let zeros := Z.to_nat ((55 - len) mod 64) in
  msg ++ [0x80] ++ repeat 0 zeros ++ be_bytes 8 (8 * len).

(** Big-endian 32-bit words of a run of bytes. *)
Fixpoint words (n : nat) (bytes : list Z) : list Z :=
  match n with
  | O => []
  | S n' =>
      match bytes with
      | b0 :: b1 :: b2 :: b3 :: rest =>
          (((b0 * 256 + b1) * 256 + b2) * 256 + b3) :: words n' rest
      | _ => []
      end
  end.

(** Message schedule: [window] holds the last sixteen words. *)
Fixpoint schedule (n : nat) (window : list Z) : list Z :=
  match n with
  | O => []
  | S n' =>
      let wt := add32 (add32 (add32 (ssig1 (nth 14 window 0)) (nth 9 window 0))
                             (ssig0 (nth 1 window 0))) (nth 0 window 0) in
      wt :: schedule n' (tl window ++ [wt])
  end.

Definition round (s : regs) (kw : Z * Z) : regs :=
  let '(k, w) := kw in
  let t1 := add32 (add32 (add32 (add32 (rh s) (bsig1 (re s)))
                                (Ch (re s) (rf s) (rg s))) k) w in
  let t2 := add32 (bsig0 (ra s)) (Maj (ra s) (rb s) (rc s)) in
  Regs (add32 t1 t2) (ra s) (rb s) (rc s) (add32 (rd s) t1) (re s) (rf s) (rg s).

Definition compress (h : regs) (block : list Z) : regs :=
  let w16 := words 16 block in
  let w := w16 ++ schedule 48 w16 in
  let s := fold_left round (combine K w) h in
  Regs (add32 (ra h) (ra s)) (add32 (rb h) (rb s))
       (add32 (rc h) (rc s)) (add32 (rd h) (rd s))
       (add32 (re h) (re s)) (add32 (rf h) (rf s))
       (add32 (rg h) (rg s)) (add32 (rh h) (rh s)).

Fixpoint blocks (n : nat) (h : regs) (bytes : list Z) : regs :=
  match n with
  | O => h
  | S n' => blocks n' (compress h (firstn 64 bytes)) (skipn 64 bytes)
  end.

Definition digest (msg : list Z) : list Z :=
  let p := pad msg in
  let h := blocks (length p / 64) H0 p in
  flat_map (be_bytes 4)
    [ra h; rb h; rc h; rd h; re h; rf h; rg h; rh h].

Definition hex (bytes : list Z) : pystr :=
  flat_map (fun b => [hex_digit (Z.shiftr b 4); hex_digit b]) bytes.

Definition hexdigest (msg : list Z) : pystr := hex (digest msg).

End Sha256.

(** ** Python values *)

(** The values [json.load] builds: [None], [bool], [int], [str], [list] and
    [dict] (keys are always [str]; the list keeps insertion order).  JSON
    numbers with a fraction or an exponent load as [float]; their text is
    CPython's shortest round-trip [repr] and they are left out of the
    model. *)
Unset Elimination Schemes.
Inductive json :=
| JNull
| JBool (b : bool)
| JInt (n : Z)
| JStr (s : pystr)
| JList (l : list json)
| JDict (d : list (pystr * json)).
Set Elimination Schemes.

(** Induction on a value, with the property at hand for the elements of a
    list and for the values of a dict. *)
Definition json_ind (P : json -> Prop)
    (Hnull : P JNull)
    (Hbool : forall b, P (JBool b))
    (Hint : forall n, P (JInt n))
    (Hstr : forall s, P (JStr s))
    (Hlist : forall l, Forall P l -> P (JList l))
    (Hdict : forall d, Forall (fun kv => P (snd kv)) d -> P (JDict d))
  : forall v, P v :=
  fix go (v : json) : P v :=
    match v with
    | JNull => Hnull
    | JBool b => Hbool b
    | JInt n => Hint n
    | JStr s => Hstr s
    | JList l =>
        Hlist l
          ((fix all (l : list json) : Forall P l :=
              match l with
              | [] => Forall_nil P
              | x :: l' => Forall_cons x (go x) (all l')
              end) l)
    | JDict d =>
        Hdict d
          ((fix all (d : list (pystr * json))
              : Forall (fun kv => P (snd kv)) d :=
              match d with
              | [] => Forall_nil _
              | kv :: d' =>
                  Forall_cons (P := fun kv => P (snd kv)) kv (go (snd kv)) (all d')
              end) d)
    end.

Definition dict := list (pystr * json).

Fixpoint lookup (k : pystr) (d : dict) : option json :=
  match d with
  | [] => None
  | (k', v) :: d' => if str_eqb k' k then Some v else lookup k d'
  end.

(** [d[k] = v]: an existing key keeps its place, a new key goes last. *)
Fixpoint dict_set (k : pystr) (v : json) (d : dict) : dict :=
  match d with
  | [] => [(k, v)]
  | (k', v') :: d' =>
      if str_eqb k' k then (k', v) :: d' else (k', v') :: dict_set k v d'
  end.

(** [bool(v)] *)
Definition truthy (v : json) : bool :=
  match v with
  | JNull => false
  | JBool b => b
  | JInt n => negb (n =? 0)
  | JStr s => negb (match s with [] => true | _ => false end)
  | JList l => negb (match l with [] => true | _ => false end)
  | JDict d => negb (match d with [] => true | _ => false end)
  end.

(** [a or b] *)
Definition py_or (a b : json) : json := if truthy a then a else b.

(** [a == b]: [bool] is an [int]; lists compare element by element; dicts
    compare as maps, whatever the order of their keys. *)
Fixpoint py_eq (a b : json) {struct a} : bool :=
  match a, b with
  | JNull, JNull => true
  | JBool x, JBool y => Bool.eqb x y
  | JBool x, JInt n => Z.b2z x =? n
  | JInt n, JBool x => n =? Z.b2z x
  | JInt m, JInt n => m =? n
  | JStr s, JStr t => str_eqb s t
  | JList l, JList m =>
      (fix all2 (l : list json) (m : list json) : bool :=
         match l, m with
         | [], [] => true
         | x :: l', y :: m' => py_eq x y && all2 l' m'
         | _, _ => false
         end) l m
  | JDict d, JDict e =>
      Nat.eqb (length d) (length e) &&
      (fix all1 (d : dict) : bool :=
         match d with
         | [] => true
         | (k, v) :: d' =>
             match lookup k e with
             | Some v' => py_eq v v'
             | None => false
             end && all1 d'
         end) d
  | _, _ => false
  end.

Definition py_ne (a b : json) : bool := negb (py_eq a b).

(** [v.get(k, default)]: only a dict has [get]. *)
Definition py_get (v : json) (k : pystr) (default : json) : result json :=
  match v with
  | JDict d => Ok (match lookup k d with Some x => x | None => default end)
  | _ => Raise AttributeError
  end.

(** [v.items()] *)
Definition py_items (v : json) : result dict :=
  match v with
  | JDict d => Ok d
  | _ => Raise AttributeError
  end.

(** The values a [for] loop over [v] visits: the elements of a list, the
    keys of a dict, the characters of a str. *)
Definition py_iter (v : json) : result (list json) :=
  match v with
  | JList l => Ok l
  | JDict d => Ok (map (fun kv => JStr (fst kv)) d)
  | JStr s => Ok (map (fun c => JStr [c]) s)
  | _ => Raise TypeError
  end.

(** [len(v)] *)
Definition py_len (v : json) : result nat :=
  match v with
  | JList l => Ok (length l)
  | JDict d => Ok (length d)
  | JStr s => Ok (length s)
  | _ => Raise TypeError
  end.

(** [a + v] for a str [a]: [v] must be a str too. *)
Definition str_add (a : pystr) (v : json) : result pystr :=
  match v with
  | JStr s => Ok (a ++ s)
  | _ => Raise TypeError
  end.

(** [v[:16]]: strings and lists can be sliced; a number cannot, and a dict
    rejects the slice as a key. *)
Definition slice16 (v : json) : result json :=
  match v with
  | JStr s => Ok (JStr (firstn 16 s))
  | JList l => Ok (JList (firstn 16 l))
  | _ => Raise TypeError
  end.

(** ** [json.dumps(v, separators=(",", ":"), sort_keys=True)] *)

Module Dumps.

Definition quote : N := 34%N.
Definition backslash : N := 92%N.

Definition hex4 (n : Z) : pystr :=
  [hex_digit (Z.shiftr n 12); hex_digit (Z.shiftr n 8);
   hex_digit (Z.shiftr n 4); hex_digit n].

Definition uescape (n : Z) : pystr := backslash :: py "u" ++ hex4 n.

(** One character of a string literal ([ensure_ascii] is on): the short
    escapes, printable ASCII as it is, [\uXXXX] for the rest, as a
    surrogate pair above the basic plane. *)
Definition escape_char (c : N) : pystr :=
  let n := Z.of_N c in
  if n =? 92 then [backslash; backslash]
  else if n =? 34 then [backslash; quote]
  else if n =? 8 then backslash :: py "b"
  else if n =? 12 then backslash :: py "f"
  else if n =? 10 then backslash :: py "n"
  else if n =? 13 then backslash :: py "r"
  else if n =? 9 then backslash :: py "t"
  else if (0x20 <=? n) && (n <=? 0x7E) then [c]
  else if n <? 0x10000 then uescape n
  else
    let m := n - 0x10000 in
    uescape (Z.lor 0xD800 (Z.land (Z.shiftr m 10) 0x3FF)) ++
    uescape (Z.lor 0xDC00 (Z.land m 0x3FF)).

Definition encode_str (s : pystr) : pystr :=
  quote :: flat_map escape_char s ++ [quote].

(** [int.__repr__] *)
Definition int_repr (n : Z) : pystr := py (NilEmpty.string_of_int (Z.to_int n)).

(** [sorted(items)] on the items of a dict: a stable insertion sort on the
    key (the keys of a dict are distinct, so values are never compared). *)
Section Sort.
Variable V : Type.

Fixpoint insert (x : pystr * V) (l : list (pystr * V)) : list (pystr * V) :=
  match l with
  | [] => [x]
  | y :: l' => if str_leb (fst x) (fst y) then x :: l else y :: insert x l'
  end.

Definition sort_items (l : list (pystr * V)) : list (pystr * V) :=
  fold_right insert [] l.
End Sort.

(** One [key:value] item, both already as text. *)
Definition item_text (kv : pystr * pystr) : pystr :=
  encode_str (fst kv) ++ py ":" ++ snd kv.

Fixpoint dumps (v : json) : pystr :=
  match v with
  | JNull => py "null"
  | JBool true => py "true"
  | JBool false => py "false"
  | JInt n => int_repr n
  | JStr s => encode_str s
  | JList l => py "[" ++ join (py ",") (map dumps l) ++ py "]"
  | JDict d =>
      py "{" ++
      join (py ",")
        (map item_text
           (sort_items (map (fun kv => (fst kv, dumps (snd kv))) d))) ++
      py "}"
  end.

End Dumps.

(** ** The hash of one event

    [compute_event_hash] is the same function in [verify_process_log.py]
    and in [validate_examples.py]. *)

Definition not_hash_key (kv : pystr * json) : bool :=
  negb (str_eqb (fst kv) (py "_hash")).

Definition compute_event_hash (event previous_hash session_id : json)
  : result pystr :=
  items <- py_items event ;;
  let payload := filter not_hash_key items in
  let payload_json := Dumps.dumps (JDict payload) in
  s1 <- str_add (payload_json ++ py "|") previous_hash ;;
  hash_input <- str_add (s1 ++ py "|") session_id ;;
  bytes <- Utf8.encode hash_input ;;
  Ok (Sha256.hexdigest bytes).

(** ** [verify_process_log.py]: the verifier that stops at the first mismatch *)

(** The detail message, by its parts. *)
Inductive detail :=
| MismatchAt (i : nat) (ty : json) (expected16 : pystr) (got16 : json)
| HeadMismatchDetail (expected16 got16 : json)
| LogIntact (n : nat).

(** The [for] loop: [inl d] is the early [return False, d]; [inr prev_hash]
    is the state after the last event. *)
Fixpoint vpl_loop (session_id : json) (events : list json) (i : nat)
    (prev_hash : json) : result (detail + json) :=
  match events with
  | [] => Ok (inr prev_hash)
  | event :: rest =>
      stored_hash <- py_get event (py "_hash") (JStr []) ;;
      expected_hash <- compute_event_hash event prev_hash session_id ;;
      if truthy stored_hash && py_ne stored_hash (JStr expected_hash) then
        ty <- py_get event (py "type") JNull ;;
        got <- slice16 stored_hash ;;
        Ok (inl (MismatchAt i ty (firstn 16 expected_hash) got))
      else
        vpl_loop session_id rest (S i) (py_or stored_hash (JStr expected_hash))
  end.

Definition verify_process_log (log : json) : result (bool * detail) :=
  session_id <- py_get log (py "session_id") (JStr []) ;;
  events <- py_get log (py "events") (JList []) ;;
  items <- py_iter events ;;
  r <- vpl_loop session_id items 0 (JStr []) ;;
  match r with
  | inl d => Ok (false, d)
  | inr prev_hash =>
      integrity <- py_get log (py "_integrity") (JDict []) ;;
      head_hash <- py_get integrity (py "head_hash") (JStr []) ;;
      if truthy head_hash && py_ne head_hash prev_hash then
        e16 <- slice16 prev_hash ;;
        g16 <- slice16 head_hash ;;
        Ok (false, HeadMismatchDetail e16 g16)
      else
        n <- py_len events ;;
        Ok (true, LogIntact n)
  end.

(** ** [validate_examples.py]: messages *)

(** [ok], [warn] and [fail] mark a message with its level; the text of a
    message is kept by its parts. *)
Inductive level := LOk | LWarn | LFail.

Inductive text :=
| EventNoHash (i : nat) (ty : json)
| EventHashMismatch (i : nat) (ty : json) (expected : pystr) (stored : json)
| EventHashOk (i : nat) (ty : json) (prefix : json)
| HeadHashMismatch (expected stored : json)
| HeadHashOk (prefix : json)
| NotAnchored
| ChainIntact (n : nat)
| NoEvents
| FirstNotSessionStart
| LastNotSessionEnd
| NotChronological
| Chronological.

Record message := Msg { level_of : level; text_of : text }.

Definition ok (t : text) : message := Msg LOk t.
Definition fail (t : text) : message := Msg LFail t.
Definition warn (t : text) : message := Msg LWarn t.

(** ** [verify_hash_chain]: the verifier that replays the whole chain *)

Record chain_state := ChainState {
  messages : list message;
  prev_hash : json;
  all_ok : bool }.

(** The body of the [for] loop. *)
Definition vhc_step (verbose : bool) (session_id : json) (i : nat)
    (event : json) (st : chain_state) : result chain_state :=
  stored <- py_get event (py "_hash") (JStr []) ;;
  expected <- compute_event_hash event (prev_hash st) session_id ;;
  '(flag, new) <-
    (if negb (truthy stored) then
       ty <- py_get event (py "type") JNull ;;
       Ok (all_ok st, [warn (EventNoHash i ty)])
     else if py_ne stored (JStr expected) then
       ty <- py_get event (py "type") JNull ;;
       Ok (false, [fail (EventHashMismatch i ty expected stored)])
     else if verbose then
       ty <- py_get event (py "type") JNull ;;
       p <- slice16 stored ;;
       Ok (all_ok st, [ok (EventHashOk i ty p)])
     else Ok (all_ok st, [])) ;;
  Ok {| messages := messages st ++ new;
        prev_hash := py_or stored (JStr expected);
        all_ok := flag |}.

Fixpoint vhc_loop (verbose : bool) (session_id : json) (events : list json)
    (i : nat) (st : chain_state) : result chain_state :=
  match events with
  | [] => Ok st
  | event :: rest =>
      st' <- vhc_step verbose session_id i event st ;;
      vhc_loop verbose session_id rest (S i) st'
  end.

(** Before the loop: no message, the empty previous hash, all well. *)
Definition initial : chain_state :=
  {| messages := []; prev_hash := JStr []; all_ok := true |}.

(** After the loop: the check of [_integrity.head_hash] against the last
    previous hash, and the pair returned. *)
Definition check_head (verbose : bool) (head_hash : json) (st : chain_state)
  : result (bool * list message) :=
  if truthy head_hash then
    if py_ne head_hash (prev_hash st) then
      Ok (false,
          messages st ++ [fail (HeadHashMismatch (prev_hash st) head_hash)])
    else if verbose then
      p <- slice16 head_hash ;;
      Ok (all_ok st, messages st ++ [ok (HeadHashOk p)])
    else Ok (all_ok st, messages st)
  else Ok (all_ok st, messages st ++ [warn NotAnchored]).

Definition verify_hash_chain (log : json) (verbose : bool)
  : result (bool * list message) :=
  session_id <- py_get log (py "session_id") (JStr []) ;;
  events <- py_get log (py "events") (JList []) ;;
  items <- py_iter events ;;
  st <- vhc_loop verbose session_id items 0 initial ;;
  integrity <- py_get log (py "_integrity") (JDict []) ;;
  head_hash <- py_get integrity (py "head_hash") (JStr []) ;;
  check_head verbose head_hash st.

(** ** [add_hash_chain] *)

(** [v[k] = x]: on a dict. *)
Definition py_setitem (v : json) (k : pystr) (x : json) : result json :=
  match v with
  | JDict d => Ok (JDict (dict_set k x d))
  | _ => Raise TypeError
  end.

(** The [for] loop.  A log is a tree read by [json.load]: no event object
    sits at two places, so the update in place of each event is the update
    of its position in the list. *)
Fixpoint ahc_loop (session_id : json) (events : list json) (prev : pystr)
  : result (list json * pystr) :=
  match events with
  | [] => Ok ([], prev)
  | event :: rest =>
      h <- compute_event_hash event (JStr prev) session_id ;;
      event' <- py_setitem event (py "_hash") (JStr h) ;;
      '(rest', last) <- ahc_loop session_id rest h ;;
      Ok (event' :: rest', last)
  end.

(** The events list is updated in place: when it is the list stored under
    ["events"], the log holds the updated events afterwards. *)
Definition store_events (log : dict) (events' : list json) : dict :=
  match lookup (py "events") log with
  | Some (JList _) => dict_set (py "events") (JList events') log
  | _ => log
  end.

Definition integrity_note : pystr :=
  py "Per-event chained hash. Verify using spec " ++ [167%N] ++ py "5.2.".

Definition integrity_block (n : nat) (head : pystr) (session_id : json) : json :=
  JDict [(py "algorithm", JStr (py "SHA-256-CHAIN"));
         (py "chain_length", JInt (Z.of_nat n));
         (py "head_hash", JStr head);
         (py "session_id", session_id);
         (py "note", JStr integrity_note)].

Definition add_hash_chain (log : json) : result json :=
  session_id <- py_get log (py "session_id") (JStr []) ;;
  events <- py_get log (py "events") (JList []) ;;
  items <- py_iter events ;;
  '(items', head) <- ahc_loop session_id items [] ;;
  n <- py_len events ;;
  d <- py_items log ;;
  py_setitem (JDict (store_events d items')) (py "_integrity")
             (integrity_block n head session_id).

(** ** [main]: the verdict on one document *)

(** [v[0]] and [v[-1]] *)
Definition py_first (v : json) : result json :=
  match v with
  | JList (x :: _) => Ok x
  | JStr (c :: _) => Ok (JStr [c])
  | JDict _ => Raise KeyError
  | _ => Raise TypeError
  end.

Definition py_last (v : json) : result json :=
  match v with
  | JList (x :: l) => Ok (last l x)
  | JStr (c :: s) => Ok (JStr [last s c])
  | JDict _ => Raise KeyError
  | _ => Raise TypeError
  end.

Fixpoint map_result {A B} (f : A -> result B) (l : list A) : result (list B) :=
  match l with
  | [] => Ok []
  | x :: l' => y <- f x ;; ys <- map_result f l' ;; Ok (y :: ys)
  end.

(** The timestamps when every one of them is a str, as the ISO-8601
    timestamps of a log are.  How [sorted] orders, or rejects, values of
    other types is not modelled: [None] stands for such a list. *)
Fixpoint as_strs (l : list json) : option (list pystr) :=
  match l with
  | [] => Some []
  | JStr s :: l' =>
      match as_strs l' with Some r => Some (s :: r) | None => None end
  | _ => None
  end.

(** [sorted] on strs: stable insertion sort. *)
Fixpoint insert_str (x : pystr) (l : list pystr) : list pystr :=
  match l with
  | [] => [x]
  | y :: l' => if str_leb x y then x :: l else y :: insert_str x l'
  end.

Definition sorted (l : list pystr) : list pystr := fold_right insert_str [] l.

Fixpoint strs_eqb (a b : list pystr) : bool :=
  match a, b with
  | [], [] => true
  | x :: a', y :: b' => str_eqb x y && strs_eqb a' b'
  | _, _ => false
  end.

(** Step 3 of [main]: [sanity_ok] and the messages printed. *)
Definition sanity_checks (verbose : bool) (log : json)
  : result (option (bool * list message)) :=
  events <- py_get log (py "events") (JList []) ;;
  if negb (truthy events) then Ok (Some (true, [warn NoEvents]))
  else
    e0 <- py_first events ;;
    t0 <- py_get e0 (py "type") JNull ;;
    let '(s1, m1) :=
      if py_ne t0 (JStr (py "session_start"))
      then (false, [warn FirstNotSessionStart]) else (true, []) in
    e1 <- py_last events ;;
    t1 <- py_get e1 (py "type") JNull ;;
    let '(s2, m2) :=
      if py_ne t1 (JStr (py "session_end"))
      then (false, m1 ++ [warn LastNotSessionEnd]) else (s1, m1) in
    items <- py_iter events ;;
    timestamps <- map_result (fun e => py_get e (py "timestamp") (JStr [])) items ;;
    match as_strs timestamps with
    | None => Ok None
    | Some ts =>
        if negb (strs_eqb ts (sorted ts))
        then Ok (Some (false, m2 ++ [fail NotChronological]))
        else if verbose then Ok (Some (s2, m2 ++ [ok Chronological]))
        else Ok (Some (s2, m2))
    end.

(** Steps 2 and 3 of [main] and [file_ok]; [schema_ok] is the answer of the
    JSON Schema validation of step 1, which is the work of the [jsonschema]
    package. *)
Definition check_document (schema_ok verbose : bool) (log : json)
  : result (option (bool * list message)) :=
  '(chain_ok, chain_msgs) <- verify_hash_chain log verbose ;;
  intact <-
    (if chain_ok then
       events <- py_get log (py "events") (JList []) ;;
       n <- py_len events ;;
       Ok [ok (ChainIntact n)]
     else Ok []) ;;
  s <- sanity_checks verbose log ;;
  match s with
  | None => Ok None
  | Some (sanity_ok, sanity_msgs) =>
      Ok (Some (schema_ok && chain_ok && sanity_ok,
                chain_msgs ++ intact ++ sanity_msgs))
  end.

(** The exit code of [main] from the verdicts on the documents examined. *)
Definition main_exit (verdicts : list bool) : Z :=
  let total_files := length verdicts in
  let passed_files := length (filter (fun b => b) verdicts) in
  if Nat.eqb passed_files total_files then 0 else 1.

(** * Notions the statements use *)

(** ASCII: what [json.dumps] and [hexdigest] write. *)
Definition ascii7 (c : N) : bool := (c <? 128)%N.

(** A lowercase hexadecimal digit. *)
Definition is_hex_digit (c : N) : bool :=
  ((48 <=? c) && (c <=? 57) || (97 <=? c) && (c <=? 102))%N.


(** ** Well-formed logs

    The shape of a log document as far as the hash chain reads it: the
    session id, every [_hash] and the [head_hash] are text (strs of Unicode
    scalar values), [events] is a list of dicts and [_integrity] is a dict.
    Every field may be missing. *)

Definition is_text (v : json) : bool :=
  match v with JStr s => Utf8.encodable s | _ => false end.

Definition is_dict (v : json) : bool :=
  match v with JDict _ => true | _ => false end.

Definition field_is (p : json -> bool) (k : pystr) (d : dict) : bool :=
  match lookup k d with Some v => p v | None => true end.

Definition list_of (p : json -> bool) (v : json) : bool :=
  match v with JList l => forallb p l | _ => false end.

(** What [add_hash_chain] needs: it overwrites hashes and anchor. *)
Definition chainable (log : json) : bool :=
  match log with
  | JDict d =>
      field_is is_text (py "session_id") d &&
      field_is (list_of is_dict) (py "events") d
  | _ => false
  end.

Definition valid_event (e : json) : bool :=
  match e with JDict d => field_is is_text (py "_hash") d | _ => false end.

Definition valid_integrity (v : json) : bool :=
  match v with JDict d => field_is is_text (py "head_hash") d | _ => false end.

Definition valid_log (log : json) : bool :=
  match log with
  | JDict d =>
      field_is is_text (py "session_id") d &&
      field_is (list_of valid_event) (py "events") d &&
      field_is valid_integrity (py "_integrity") d
  | _ => false
  end.

(** ** Reading a log *)

Definition get_or (k : pystr) (default : json) (d : dict) : json :=
  match lookup k d with Some v => v | None => default end.

Definition session_id_of (log : json) : json :=
  match log with JDict d => get_or (py "session_id") (JStr []) d | _ => JStr [] end.

Definition events_of (log : json) : list json :=
  match log with
  | JDict d => match lookup (py "events") d with Some (JList l) => l | _ => [] end
  | _ => []
  end.

(** [_integrity.head_hash], when the log has one. *)
Definition head_hash_of (log : json) : option json :=
  match log with
  | JDict d =>
      match lookup (py "_integrity") d with
      | Some (JDict i) => lookup (py "head_hash") i
      | _ => None
      end
  | _ => None
  end.

Definition stored_hash_of (event : json) : json :=
  match event with JDict d => get_or (py "_hash") (JStr []) d | _ => JStr [] end.

(** ** The running previous hash

    The previous hash after a run of events, from the previous hash before
    it: after each event, its stored hash if it has one, else its expected
    hash. *)
Fixpoint running_hash (session_id : json) (events : list json) (prev : json)
  : result json :=
  match events with
  | [] => Ok prev
  | e :: rest =>
      h <- compute_event_hash e prev session_id ;;
      running_hash session_id rest (py_or (stored_hash_of e) (JStr h))
  end.

(** The previous hash the walk holds when it reaches event [i]. *)
Definition hash_before (log : json) (i : nat) : result json :=
  running_hash (session_id_of log) (firstn i (events_of log)) (JStr []).

(** Event [i] is tampered: it stores a hash, and not the expected one. *)
Definition tampered (log : json) (i : nat) (e : json) (expected : pystr) : Prop :=
  nth_error (events_of log) i = Some e /\
  (exists prev, hash_before log i = Ok prev /\
     compute_event_hash e prev (session_id_of log) = Ok expected) /\
  truthy (stored_hash_of e) = true /\
  py_ne (stored_hash_of e) (JStr expected) = true.

(** No message of level [fail]. *)
Definition is_fail (m : message) : bool :=
  match level_of m with LFail => true | _ => false end.

Definition is_warn (m : message) : bool :=
  match level_of m with LWarn => true | _ => false end.

Definition no_fail (msgs : list message) : bool := forallb (fun m => negb (is_fail m)) msgs.

(** The [type] of an event, as the messages show it. *)
Definition event_type (e : json) : json :=
  match e with JDict d => get_or (py "type") JNull d | _ => JNull end.

(** The finding on event [i], given its expected hash: unsigned, tampered,
    or intact (shown in verbose mode only). *)
Definition event_messages (verbose : bool) (i : nat) (e : json) (expected : pystr)
  : list message :=
  if negb (truthy (stored_hash_of e)) then [warn (EventNoHash i (event_type e))]
  else if py_ne (stored_hash_of e) (JStr expected)
       then [fail (EventHashMismatch i (event_type e) expected (stored_hash_of e))]
       else if verbose
            then [ok (EventHashOk i (event_type e) (JStr (firstn 16 expected)))]
            else [].

(** The log has the field [k]. *)
Definition has_field (k : pystr) (v : json) : bool :=
  match v with
  | JDict d => match lookup k d with Some _ => true | None => false end
  | _ => false
  end.

(** No event has a [_hash] and the log has no [_integrity]. *)
Definition unsigned (log : json) : bool :=
  forallb (fun e => negb (has_field (py "_hash") e)) (events_of log) &&
  negb (has_field (py "_integrity") log).

(** The fields of the log [add_hash_chain] returns: the events [l'] in
    place, and the anchor on [n] events with head hash [h]. *)
Definition chained (d : dict) (l' : list json) (n : nat) (h : pystr) (sid : json)
  : dict :=
  dict_set (py "_integrity") (integrity_block n h sid) (store_events d l').

(** ** Sample documents *)

Definition ev_start : dict :=
  [(py "type", JStr (py "session_start"));
   (py "timestamp", JStr (py "2026-01-01T00:00:00Z"))].

Definition ev_paste : dict :=
  [(py "type", JStr (py "paste"));
   (py "timestamp", JStr (py "2026-01-01T00:01:00Z"));
   (py "chars", JInt 42)].

Definition ev_end : dict :=
  [(py "type", JStr (py "session_end"));
   (py "timestamp", JStr (py "2026-01-01T00:02:00Z"))].

(** Three events, no hash, no anchor. *)
Definition plain_log : json :=
  JDict [(py "session_id", JStr (py "s-1"));
         (py "events", JList [JDict ev_start; JDict ev_paste; JDict ev_end])].

Definition hash0 : pystr :=
  py "6ca2cbb6269fa12a86b35001d257106eb277c013da9dd4f0d62af78ac8972ce7".
Definition hash1 : pystr :=
  py "92d1e916ea8a77a76f73a24ae60311411c15ee31ebeb056280eb793d5ff597e4".
Definition hash2 : pystr :=
  py "703d7a609025f459282a63f2d4d447ca6011729a30be9016fee4dde9369f463c".

Definition signed (e : dict) (h : pystr) : json := JDict (e ++ [(py "_hash", JStr h)]).

(** [plain_log] with its chain and anchor, as [add_hash_chain] writes them. *)
Definition chained_log : json :=
  JDict [(py "session_id", JStr (py "s-1"));
         (py "events",
          JList [signed ev_start hash0; signed ev_paste hash1; signed ev_end hash2]);
         (py "_integrity", integrity_block 3 hash2 (JStr (py "s-1")))].

(** The sample events with their payload altered. *)
Definition ev_start_alt : dict :=
  [(py "type", JStr (py "session_start"));
   (py "timestamp", JStr (py "2025-12-31T23:59:59Z"))].

Definition ev_paste_alt : dict :=
  [(py "type", JStr (py "paste"));
   (py "timestamp", JStr (py "2026-01-01T00:01:00Z"));
   (py "chars", JInt 43)].

(** [chained_log] after the second event was altered, hashes left as they
    were. *)
Definition tampered_log : json :=
  JDict [(py "session_id", JStr (py "s-1"));
         (py "events",
          JList [signed ev_start hash0; signed ev_paste_alt hash1; signed ev_end hash2]);
         (py "_integrity", integrity_block 3 hash2 (JStr (py "s-1")))].

(** [chained_log] after its first two events were altered. *)
Definition twice_tampered_log : json :=
  JDict [(py "session_id", JStr (py "s-1"));
         (py "events",
          JList [signed ev_start_alt hash0; signed ev_paste_alt hash1;
                 signed ev_end hash2]);
         (py "_integrity", integrity_block 3 hash2 (JStr (py "s-1")))].

(** The three signed events under the anchor [add_hash_chain] writes for a
    log without events: its [head_hash] is the empty string. *)
Definition empty_anchor_log : json :=
  JDict [(py "session_id", JStr (py "s-1"));
         (py "events",
          JList [signed ev_start hash0; signed ev_paste hash1; signed ev_end hash2]);
         (py "_integrity", integrity_block 0 [] (JStr (py "s-1")))].

(** [chained_log] with an unrelated head hash. *)
Definition wrong_anchor_log : json :=
  JDict [(py "session_id", JStr (py "s-1"));
         (py "events",
          JList [signed ev_start hash0; signed ev_paste hash1; signed ev_end hash2]);
         (py "_integrity", integrity_block 3 hash0 (JStr (py "s-1")))].

Definition hash0_alt : pystr :=
  py "12f7c0bd77a4c79b15112f6163f8dcbdafddf41fb80239faee3e6272d6d3eb8a".
Definition hash1_alt : pystr :=
  py "ef7161c40883178b7662b3e710300d717f69c786a491d7fc5181e64b1443c05b".

(** ** The sanity checks *)

(** Each timestamp is at most the next one. *)
Fixpoint nondecreasing (l : list pystr) : bool :=
  match l with
  | x :: ((y :: _) as l') => str_leb x y && nondecreasing l'
  | _ => true
  end.

Definition timestamp_of (e : json) : json :=
  match e with JDict d => get_or (py "timestamp") (JStr []) d | _ => JStr [] end.

Definition timestamps_of (log : json) : list json :=
  map timestamp_of (events_of log).

Definition has_events (log : json) : bool :=
  match events_of log with [] => false | _ :: _ => true end.

Definition first_type (log : json) : json :=
  match events_of log with e :: _ => event_type e | [] => JNull end.

Definition last_type (log : json) : json :=
  event_type (last (events_of log) JNull).

(** The first event is not a session start, or the last one is not a
    session end. *)
Definition boundary_violation (log : json) : bool :=
  py_ne (first_type log) (JStr (py "session_start")) ||
  py_ne (last_type log) (JStr (py "session_end")).

(** The messages of the two boundary checks, from the types of the first
    and of the last event. *)
Definition boundary_messages (t0 t1 : json) : list message :=
  (if py_ne t0 (JStr (py "session_start"))
   then [warn FirstNotSessionStart] else []) ++
  (if py_ne t1 (JStr (py "session_end"))
   then [warn LastNotSessionEnd] else []).

Definition hash_paste : pystr :=
  py "de4234d93ed0d30be0c30a8844cca620dd70bfda2af30a9a0fa520907dccc3ec".

(** One event, a paste, with its hash and anchor: the chain is intact and
    the log neither starts nor ends a session. *)
Definition paste_only_log : json :=
  JDict [(py "session_id", JStr (py "s-1"));
         (py "events", JList [signed ev_paste hash_paste]);
         (py "_integrity", integrity_block 1 hash_paste (JStr (py "s-1")))].

(** The sample events in the wrong order of time, unsigned. *)
Definition unordered_log : json :=
  JDict [(py "session_id", JStr (py "s-1"));
         (py "events", JList [JDict ev_start; JDict ev_end; JDict ev_paste;
                              JDict ev_end])].

(** ** A chained log of three events

    The events [e0], [e1], [e2] signed with [h0], [h1], [h2] under the
    anchor on [h2]. *)
Definition sign (e : dict) (h : pystr) : json :=
  JDict (dict_set (py "_hash") (JStr h) e).

Definition three_event_log (s : pystr) (e0 e1 e2 : dict) (h0 h1 h2 : pystr)
  : json :=
  JDict [(py "session_id", JStr s);
         (py "events", JList [sign e0 h0; sign e1 h1; sign e2 h2]);
         (py "_integrity", integrity_block 3 h2 (JStr s))].

(** ** Documents outside the shape of a log *)

(** The hash of the empty event, first of its chain, in a session without
    id. *)
Definition hash_empty_event : pystr :=
  py "7501c912c57f08aef85c5e7e27f9fce4827d75aa513c75b1c33c08d07ee25e89".

(** A list as stored hash, and a second event. *)
Definition ill_typed_hash_log : json :=
  JDict [(py "events", JList [JDict [(py "_hash", JList [JInt 1])]; JDict []])].

(** A number as stored hash. *)
Definition numeric_hash_log : json :=
  JDict [(py "events", JList [JDict [(py "_hash", JInt 123)]])].

(** ** Notions for the further properties *)

Definition is_ok (m : message) : bool :=
  match level_of m with LOk => true | _ => false end.

(** The message is the finding on event [i]. *)
Definition about_event (i : nat) (m : message) : bool :=
  match text_of m with
  | EventNoHash j _ => Nat.eqb i j
  | EventHashMismatch j _ _ _ => Nat.eqb i j
  | EventHashOk j _ _ => Nat.eqb i j
  | _ => false
  end.

(** The message is the finding on the anchor. *)
Definition about_anchor (m : message) : bool :=
  match text_of m with
  | HeadHashMismatch _ _ => true
  | HeadHashOk _ => true
  | NotAnchored => true
  | _ => false
  end.

(** A number as stored hash and the same number as head hash. *)
Definition numeric_anchor_log : json :=
  JDict [(py "events", JList [JDict [(py "_hash", JInt 123)]]);
         (py "_integrity", JDict [(py "head_hash", JInt 123)])].

(** The event [e] at position [j] of the run [l] walked from [prev] stores
    a hash that is not its expected hash [h]. *)
Definition mismatch_at (sid : json) (l : list json) (prev : json) (j : nat)
    (e : json) (h : pystr) : Prop :=
  nth_error l j = Some e /\
  (exists q, running_hash sid (firstn j l) prev = Ok q /\
             compute_event_hash e q sid = Ok h) /\
  truthy (stored_hash_of e) = true /\
  py_ne (stored_hash_of e) (JStr h) = true.


(** ** Chained runs of events *)

(** The run [l] of events is chained from the previous hash [p] to the hash
    [q]: each event stores its expected hash, computed on the hash stored by
    the event before it. *)
Inductive chain (sid : json) : pystr -> list json -> pystr -> Prop :=
| chain_nil (p : pystr) : chain sid p [] p
| chain_cons (p : pystr) (d : dict) (h : pystr) (l : list json) (q : pystr) :
    compute_event_hash (JDict d) (JStr p) sid = Ok h ->
    get_or (py "_hash") (JStr []) d = JStr h ->
    chain sid h l q ->
    chain sid p (JDict d :: l) q.

(** What an event says, without the hash it stores. *)
Definition payload_of (e : json) : dict :=
  match e with JDict d => filter not_hash_key d | _ => [] end.

(** The field [k] of a log. *)
Definition field (k : pystr) (log : json) : option json :=
  match log with JDict d => lookup k d | _ => None end.

(** The log with [l] as its events. *)
Definition with_events (l : list json) (log : json) : json :=
  match log with
  | JDict d => JDict (dict_set (py "events") (JList l) d)
  | _ => log
  end.

(** The log without its field [k]. *)
Definition without (k : pystr) (log : json) : json :=
  match log with
  | JDict d => JDict (filter (fun kv => negb (str_eqb (fst kv) k)) d)
  | _ => log
  end.

(** The event [e_alt] under the hash stored by the event [old]: an altered
    event whose stored hash was left as it was. *)
Definition resign (e_alt : dict) (old : json) : json :=
  JDict (dict_set (py "_hash") (stored_hash_of old) e_alt).

(** The keys of a dict, in its order. *)
Definition keys_of (v : json) : list pystr :=
  match v with JDict d => map fst d | _ => [] end.

(** [add_hash_chain] on one event: the keys it has afterwards. *)
Definition keys_with (k : pystr) (v : json) : list pystr :=
  if has_field k v then keys_of v else keys_of v ++ [k].

(** ** [main]

    The run of the validator on the files of a disk, from the parsed
    command line on: [verbose], [fix_mode] and the paths [examples] are what
    [parse_args] and [find_example_logs] gave.

    What the run takes from outside is the [world]: whether the schema file
    is there and whether [json.load] returns on it, whether the
    [jsonschema] package can be imported, the answer of the validator on a
    document ([None] when the validator, or the sort of its errors,
    raises), and the files that can be written.  Printing is taken to
    succeed.  A path is the name of one file: two paths naming the same
    file are not modelled. *)

Record world := World {
  schema_exists : bool;
  schema_loads : bool;
  jsonschema_installed : bool;
  schema_valid : json -> option bool;
  writable : pystr -> bool }.

(** What [json.load] does on a file that was opened: it raises an exception
    other than [json.JSONDecodeError] (bytes that are no text in the
    encoding of [open], nesting too deep, a number too long), it raises
    [json.JSONDecodeError] on text that is not JSON, or it returns a
    document.  A file written by [json.dump] is read back as the document
    written. *)
Inductive content :=
| LoadRaises
| BadJson
| Doc (log : json).

Definition disk := list (pystr * content).

Fixpoint read (path : pystr) (fs : disk) : option content :=
  match fs with
  | [] => None
  | (p, c) :: fs' => if str_eqb p path then Some c else read path fs'
  end.

Fixpoint write (path : pystr) (c : content) (fs : disk) : disk :=
  match fs with
  | [] => [(path, c)]
  | (p, c0) :: fs' =>
      if str_eqb p path then (p, c) :: fs' else (p, c0) :: write path c fs'
  end.

(** A line of the summary: ["PASS rel"], ["FAIL rel"] and
    ["FAIL rel: invalid JSON"]. *)
Inductive line :=
| Pass (rel : pystr)
| Fail (rel : pystr)
| FailInvalidJson (rel : pystr).

Definition rel_of (m : line) : pystr :=
  match m with Pass r => r | Fail r => r | FailInvalidJson r => r end.

(** [m.startswith("PASS")] *)
Definition is_pass (m : line) : bool :=
  match m with Pass _ => true | _ => false end.

(** An exception of the world outside, which [main] has no handler for:
    [open(path)] fails, [json.load] raises something else than
    [json.JSONDecodeError], the schema file does not load, the validator
    raises, the file cannot be written. *)
Inductive failure :=
| OpenFails
| LoadFails
| SchemaFails
| ValidatorFails
| WriteFails.

(** How a run ends: [main] returns, [sys.exit] is called, the code of the
    repository raises an exception no handler catches, the world outside
    does, or the run leaves what is modelled (the timestamps of a document
    are not all strs). *)
Inductive ending (A : Type) :=
| Returns (a : A)
| Exits (code : Z)
| Raises (e : exn)
| Fails (f : failure)
| Unmodelled.
Arguments Returns {A} a.
Arguments Exits {A} code.
Arguments Raises {A} e.
Arguments Fails {A} f.
Arguments Unmodelled {A}.

Definition and_then {A B} (r : ending A) (k : A -> ending B) : ending B :=
  match r with
  | Returns a => k a
  | Exits c => Exits c
  | Raises e => Raises e
  | Fails f => Fails f
  | Unmodelled => Unmodelled
  end.

Record main_state := MainState {
  passed_files : nat;
  all_messages : list line;
  files : disk }.

(** The body of the [for] loop of [main]: only [json.JSONDecodeError] is
    caught; the import of [jsonschema] is tried once a document is
    loaded; with [--fix] the file is written after the verdict. *)
Definition main_step (w : world) (verbose fix_mode : bool) (path : pystr)
    (st : main_state) : ending main_state :=
  match read path (files st) with
  | None => Fails OpenFails
  | Some LoadRaises => Fails LoadFails
  | Some BadJson =>
      Returns {| passed_files := passed_files st;
                 all_messages := all_messages st ++ [FailInvalidJson path];
                 files := files st |}
  | Some (Doc log) =>
      if negb (jsonschema_installed w) then Exits 2
      else
        match schema_valid w log with
        | None => Fails ValidatorFails
        | Some schema_ok =>
            match check_document schema_ok verbose log with
            | Raise e => Raises e
            | Ok None => Unmodelled
            | Ok (Some (file_ok, _)) =>
                let passed := if file_ok then S (passed_files st)
                              else passed_files st in
                let msgs := all_messages st ++
                            [if file_ok then Pass path else Fail path] in
                if fix_mode then
                  match add_hash_chain log with
                  | Raise e => Raises e
                  | Ok log' =>
                      if writable w path then
                        Returns {| passed_files := passed;
                                   all_messages := msgs;
                                   files := write path (Doc log') (files st) |}
                      else Fails WriteFails
                  end
                else
                  Returns {| passed_files := passed;
                             all_messages := msgs;
                             files := files st |}
            end
        end
  end.

Fixpoint main_loop (w : world) (verbose fix_mode : bool) (examples : list pystr)
    (st : main_state) : ending main_state :=
  match examples with
  | [] => Returns st
  | path :: rest =>
      and_then (main_step w verbose fix_mode path st)
               (main_loop w verbose fix_mode rest)
  end.

(** [main]: the exit code, the lines of the summary and the disk
    afterwards.  [load_schema] comes first: it exits with 1 when the schema
    file is not there, and has no handler for a schema that does not
    load. *)
Definition main (w : world) (verbose fix_mode : bool) (examples : list pystr)
    (fs : disk) : ending (Z * list line * disk) :=
  if negb (schema_exists w) then Exits 1
  else if negb (schema_loads w) then Fails SchemaFails
  else
    match examples with
    | [] => Returns (0, [], fs)
    | _ :: _ =>
        let total_files := length examples in
        and_then
          (main_loop w verbose fix_mode examples
             {| passed_files := 0; all_messages := []; files := fs |})
          (fun st =>
             Returns (if Nat.eqb (passed_files st) total_files then 0 else 1,
                      all_messages st, files st))
    end.

(** A disk for the samples, and a world where all is installed, the schema
    accepts every document and every file can be written. *)
Definition sample_disk : disk :=
  [(py "a/process-log.json", Doc tampered_log);
   (py "b/process-log.json", BadJson);
   (py "c/process-log.json", Doc chained_log)].

Definition sample_paths : list pystr :=
  [py "a/process-log.json"; py "b/process-log.json"; py "c/process-log.json"].

Definition sample_world : world :=
  {| schema_exists := true; schema_loads := true;
     jsonschema_installed := true;
     schema_valid := fun _ => Some true;
     writable := fun _ => true |}.

(** The sample world without [jsonschema]. *)
Definition bare_world : world :=
  {| schema_exists := true; schema_loads := true;
     jsonschema_installed := false;
     schema_valid := fun _ => Some true;
     writable := fun _ => true |}.

(** The sample world where no file can be written. *)
Definition read_only_world : world :=
  {| schema_exists := true; schema_loads := true;
     jsonschema_installed := true;
     schema_valid := fun _ => Some true;
     writable := fun _ => false |}.

(** A file that is no text, as [open] decodes it. *)
Definition binary_disk : disk := [(py "v", LoadRaises)].

(** Two states with the same counts and lines, whose disks hold the same
    at the paths [l]. *)
Definition same_on (l : list pystr) (st1 st2 : main_state) : Prop :=
  passed_files st1 = passed_files st2 /\
  all_messages st1 = all_messages st2 /\
  forall p, In p l -> read p (files st1) = read p (files st2).

(** [chained_log] with the stored hash of its second event replaced. *)
Definition broken_chain_log : json :=
  JDict [(py "session_id", JStr (py "s-1"));
         (py "events",
          JList [signed ev_start hash0; signed ev_paste hash0; signed ev_end hash2]);
         (py "_integrity", integrity_block 3 hash2 (JStr (py "s-1")))].

(** A log whose session id is a lone surrogate, as the JSON text
    ["\ud800"] is read by [json.load]. *)
Definition surrogate_log : json :=
  JDict [(py "session_id", JStr [55296%N]);
         (py "events", JList [JDict ev_start])].

(** [tampered_log] as [add_hash_chain] rewrites it: the altered second
    event under its own hash, and the chain and anchor after it. *)
Definition tampered_chained_log : json :=
  Eval vm_compute in
    match add_hash_chain tampered_log with Ok log' => log' | Raise _ => JNull end.

(** [chained_log] and [tampered_log] under an [_integrity] block that has
    no [head_hash]. *)
Definition headless_anchor_log : json :=
  JDict [(py "session_id", JStr (py "s-1"));
         (py "events",
          JList [signed ev_start hash0; signed ev_paste hash1; signed ev_end hash2]);
         (py "_integrity", JDict [(py "algorithm", JStr (py "SHA-256-CHAIN"))])].

Definition headless_tampered_log : json :=
  JDict [(py "session_id", JStr (py "s-1"));
         (py "events",
          JList [signed ev_start hash0; signed ev_paste_alt hash1; signed ev_end hash2]);
         (py "_integrity", JDict [(py "algorithm", JStr (py "SHA-256-CHAIN"))])].

(** ** Unsigned logs *)

(** The findings on a run of events without a hash, from the index [i] on:
    one warning for each event, with its index and its type. *)
Fixpoint unsigned_findings (i : nat) (events : list json) : list message :=
  match events with
  | [] => []
  | e :: rest =>
      warn (EventNoHash i (event_type e)) :: unsigned_findings (S i) rest
  end.

(** The expected hashes of a run of events, each one computed on the
    expected hash of the event before it, the first one on [prev]. *)
Fixpoint expected_chain (sid : json) (events : list json) (prev : pystr)
  : result (list pystr) :=
  match events with
  | [] => Ok []
  | e :: rest =>
      h <- compute_event_hash e (JStr prev) sid ;;
      hs <- expected_chain sid rest h ;;
      Ok (h :: hs)
  end.

(** The log under an [_integrity] block with the head hash [head]. *)
Definition anchored (head : pystr) (log : json) : json :=
  match log with
  | JDict d =>
      JDict (dict_set (py "_integrity") (JDict [(py "head_hash", JStr head)]) d)
  | _ => log
  end.

(** The expected hashes of the events of [plain_log]. *)
Definition plain_hashes : list pystr := [hash0; hash1; hash2].

Unset Implicit Arguments.

(** * Checks of the embedding against known values *)

Example sha256_constants :
  nth 0 Sha256.K 0 = 0x428a2f98 /\ nth 63 Sha256.K 0 = 0xc67178f2 /\
  length Sha256.K = 64%nat /\
  Sha256.ra Sha256.H0 = 0x6a09e667 /\ Sha256.rh Sha256.H0 = 0x5be0cd19.
Proof. repeat split. Qed.

Example sha256_empty :
  Sha256.hexdigest [] =
  py "e3b0c44298fc1c149afbf4c8996fb92427ae41e4649b934ca495991b7852b855".
Proof. vm_compute. reflexivity. Qed.

Example sha256_abc :
  Sha256.hexdigest [97; 98; 99] =
  py "ba7816bf8f01cfea414140de5dae2223b00361a396177a9cb410ff61f20015ad".
Proof. vm_compute. reflexivity. Qed.

Example sha256_two_blocks :
  Sha256.hexdigest
    (map Z.of_N (py "abcdbcdecdefdefgefghfghighijhijkijkljklmklmnlmnomnopnopq")) =
  py "248d6a61d20638b8e5c026930c3e6039a33ce45964ff2167f6ecedd419db06c1".
Proof. vm_compute. reflexivity. Qed.

Example dumps_sample :
  Dumps.dumps
    (JDict [(py "type", JStr (py "paste"));
            (py "n", JInt (-12));
            (py "a", JList [JNull; JBool true; JInt 0]);
            (py "text", JStr [233%N; 10%N; 128512%N; 34%N])]) =
  py "{" ++ [34%N] ++ py "a" ++ [34%N] ++ py ":[null,true,0]," ++
  [34%N] ++ py "n" ++ [34%N] ++ py ":-12," ++
  [34%N] ++ py "text" ++ [34%N] ++ py ":" ++
  [34%N] ++ py "\u00e9\n\ud83d\ude00\" ++ [34%N; 34%N] ++ py "," ++
  [34%N] ++ py "type" ++ [34%N] ++ py ":" ++ [34%N] ++ py "paste" ++ [34%N] ++
  py "}".
Proof. vm_compute. reflexivity. Qed.

(** * Strings: equality and order *)

Lemma str_eqb_eq (a b : pystr) : str_eqb a b = true <-> a = b.
Proof.
  revert b; induction a as [|x a IH]; intros [|y b]; simpl; split;
    try congruence; try reflexivity.
  - intros H. apply andb_true_iff in H as [Hx Hr].
    apply N.eqb_eq in Hx. apply IH in Hr. congruence.
  - intros H. injection H as -> ->. rewrite N.eqb_refl. simpl. now apply IH.
Qed.

Lemma str_eqb_refl (a : pystr) : str_eqb a a = true.
Proof. now apply str_eqb_eq. Qed.

Lemma str_eqb_neq (a b : pystr) : str_eqb a b = false <-> a <> b.
Proof.
  split.
  - intros H E. apply str_eqb_eq in E. congruence.
  - intros H. destruct (str_eqb a b) eqn:E; [|reflexivity].
    apply str_eqb_eq in E. contradiction.
Qed.

Lemma str_eqb_sym (a b : pystr) : str_eqb a b = str_eqb b a.
Proof.
  destruct (str_eqb a b) eqn:E.
  - apply str_eqb_eq in E. subst. symmetry. apply str_eqb_refl.
  - symmetry. apply str_eqb_neq. apply str_eqb_neq in E. congruence.
Qed.

Lemma str_ltb_irrefl (a : pystr) : str_ltb a a = false.
Proof.
  induction a as [|x a IH]; simpl; [reflexivity|].
  rewrite N.ltb_irrefl, N.eqb_refl. simpl. exact IH.
Qed.

Lemma str_ltb_trans (a b c : pystr) :
  str_ltb a b = true -> str_ltb b c = true -> str_ltb a c = true.
Proof.
  revert b c; induction a as [|x a IH]; intros [|y b] [|z c]; simpl;
    try congruence.
  intros H1 H2.
  apply orb_true_iff in H1. apply orb_true_iff in H2. apply orb_true_iff.
  destruct H1 as [H1|H1], H2 as [H2|H2].
  - left. apply N.ltb_lt in H1, H2. apply N.ltb_lt. lia.
  - apply andb_true_iff in H2 as [E _]. apply N.eqb_eq in E. subst.
    now left.
  - apply andb_true_iff in H1 as [E _]. apply N.eqb_eq in E. subst.
    now left.
  - apply andb_true_iff in H1 as [E1 L1]. apply andb_true_iff in H2 as [E2 L2].
    apply N.eqb_eq in E1, E2. subst. right. rewrite N.eqb_refl. simpl.
    eapply IH; eassumption.
Qed.

(** The order is total: two strings not ordered either way are equal. *)
Lemma str_ltb_connex (a b : pystr) :
  str_ltb a b = false -> str_ltb b a = false -> a = b.
Proof.
  revert b; induction a as [|x a IH]; intros [|y b]; simpl; try congruence.
  intros H1 H2.
  apply orb_false_iff in H1 as [L1 R1]. apply orb_false_iff in H2 as [L2 R2].
  apply N.ltb_ge in L1, L2. assert (x = y) by lia. subst.
  rewrite N.eqb_refl in R1, R2. simpl in R1, R2. f_equal. now apply IH.
Qed.

Lemma str_leb_refl (a : pystr) : str_leb a a = true.
Proof. unfold str_leb. now rewrite str_ltb_irrefl. Qed.

Lemma str_leb_total (a b : pystr) : str_leb a b = false -> str_leb b a = true.
Proof.
  unfold str_leb. intros H. apply negb_false_iff in H.
  destruct (str_ltb a b) eqn:E; [|reflexivity].
  pose proof (str_ltb_trans _ _ _ E H) as C. rewrite str_ltb_irrefl in C.
  discriminate.
Qed.

Lemma str_leb_antisym (a b : pystr) :
  str_leb a b = true -> str_leb b a = true -> a = b.
Proof.
  unfold str_leb. intros H1 H2.
  apply negb_true_iff in H1, H2. now apply str_ltb_connex.
Qed.


(** * The result monad *)

Lemma bind_ok {A B} (r : result A) (k : A -> result B) (b : B) :
  bind r k = Ok b -> exists a, r = Ok a /\ k a = Ok b.
Proof. destruct r; simpl; [eauto|discriminate]. Qed.

(** Closed equations between values, each settled by evaluation. *)
Ltac evaluate :=
  repeat match goal with |- _ /\ _ => split end; vm_compute; reflexivity.

(** Splits a hypothesis [bind r k = Ok b] into its two steps. *)
Ltac unbind H :=
  let a := fresh "a" in
  let Ha := fresh "Ha" in
  apply bind_ok in H as (a & Ha & H).

(** * UTF-8 *)

Lemma encodable_app (a b : pystr) :
  Utf8.encodable (a ++ b) = Utf8.encodable a && Utf8.encodable b.
Proof. unfold Utf8.encodable. apply forallb_app. Qed.

Lemma encode_char_scalar (c : N) :
  Utf8.scalar c = true -> exists bs, Utf8.encode_char c = Ok bs.
Proof.
  unfold Utf8.scalar, Utf8.encode_char. cbv zeta. intros H.
  destruct (Z.of_N c <? 0x80) eqn:E1; [eauto|].
  destruct (Z.of_N c <? 0x800) eqn:E2; [eauto|].
  destruct ((0xD800 <=? Z.of_N c) && (Z.of_N c <=? 0xDFFF)) eqn:E3.
  - apply andb_true_iff in E3 as [A B].
    apply orb_true_iff in H as [H|H].
    + lia.
    + apply andb_true_iff in H as [H _]. lia.
  - destruct (Z.of_N c <? 0x10000) eqn:E4; [eauto|].
    destruct (Z.of_N c <? 0x110000) eqn:E5; [eauto|].
    apply orb_true_iff in H as [H|H]; [lia|].
    apply andb_true_iff in H as [_ H]. lia.
Qed.

Lemma encode_char_ok_scalar (c : N) bs :
  Utf8.encode_char c = Ok bs -> Utf8.scalar c = true.
Proof.
  unfold Utf8.scalar, Utf8.encode_char. cbv zeta.
  destruct (Z.of_N c <? 0x80) eqn:E1.
  { intros _. apply orb_true_iff. left. lia. }
  destruct (Z.of_N c <? 0x800) eqn:E2.
  { intros _. apply orb_true_iff. left. lia. }
  destruct ((0xD800 <=? Z.of_N c) && (Z.of_N c <=? 0xDFFF)) eqn:E3;
    [discriminate|].
  apply andb_false_iff in E3.
  destruct (Z.of_N c <? 0x10000) eqn:E4.
  { intros _. apply orb_true_iff. destruct E3; [left|right]; lia. }
  destruct (Z.of_N c <? 0x110000) eqn:E5; [|discriminate].
  intros _. apply orb_true_iff. right. lia.
Qed.

(** [encode] returns exactly on the encodable strings. *)
Lemma encode_returns (s : pystr) :
  Utf8.encodable s = true <-> exists bs, Utf8.encode s = Ok bs.
Proof.
  induction s as [|c s IH]; simpl.
  - split; eauto.
  - split.
    + intros H. apply andb_true_iff in H as [Hc Hs].
      destruct (encode_char_scalar c Hc) as [b ->].
      apply IH in Hs as [bs ->]. simpl. eauto.
    + intros [bs H]. unbind H. unbind H.
      apply andb_true_iff. split.
      * eapply encode_char_ok_scalar; eassumption.
      * apply IH. eauto.
Qed.

Lemma ascii7_scalar (c : N) : ascii7 c = true -> Utf8.scalar c = true.
Proof.
  unfold ascii7, Utf8.scalar. intros H. apply N.ltb_lt in H.
  apply orb_true_iff. left. lia.
Qed.

Lemma ascii_encodable (s : pystr) :
  forallb ascii7 s = true -> Utf8.encodable s = true.
Proof.
  unfold Utf8.encodable. rewrite !forallb_forall.
  intros H c Hc. apply ascii7_scalar. auto.
Qed.

(** * Hexadecimal text and the digest *)

Lemma hex_digit_is_hex (d : Z) : is_hex_digit (hex_digit d) = true.
Proof.
  unfold hex_digit.
  assert (H : (Z.to_nat (d mod 16) < 16)%nat).
  { pose proof (Z.mod_pos_bound d 16). lia. }
  revert H. generalize (Z.to_nat (d mod 16)). intros n H.
  do 16 (destruct n as [|n]; [reflexivity|]). lia.
Qed.

Lemma is_hex_digit_ascii (c : N) : is_hex_digit c = true -> ascii7 c = true.
Proof.
  unfold is_hex_digit, ascii7. intros H. apply N.ltb_lt.
  apply orb_true_iff in H as [H|H]; apply andb_true_iff in H as [_ H];
    apply N.leb_le in H; lia.
Qed.

Lemma hex_is_hex (bytes : list Z) : forallb is_hex_digit (Sha256.hex bytes) = true.
Proof.
  induction bytes as [|b bytes IH]; simpl; [reflexivity|].
  now rewrite !hex_digit_is_hex, IH.
Qed.

Lemma hex_length (bytes : list Z) :
  length (Sha256.hex bytes) = (2 * length bytes)%nat.
Proof. induction bytes as [|b bytes IH]; simpl; [reflexivity|]. lia. Qed.

Lemma digest_length (msg : list Z) : length (Sha256.digest msg) = 32%nat.
Proof. reflexivity. Qed.

Lemma hexdigest_length (msg : list Z) : length (Sha256.hexdigest msg) = 64%nat.
Proof. unfold Sha256.hexdigest. now rewrite hex_length, digest_length. Qed.

Lemma hexdigest_is_hex (msg : list Z) :
  forallb is_hex_digit (Sha256.hexdigest msg) = true.
Proof. apply hex_is_hex. Qed.

Lemma forallb_impl {A} (p q : A -> bool) (l : list A) :
  (forall x, p x = true -> q x = true) ->
  forallb p l = true -> forallb q l = true.
Proof. rewrite !forallb_forall. auto. Qed.

Lemma hexdigest_encodable (msg : list Z) :
  Utf8.encodable (Sha256.hexdigest msg) = true.
Proof.
  apply ascii_encodable.
  eapply forallb_impl; [exact is_hex_digit_ascii|apply hexdigest_is_hex].
Qed.

Lemma hexdigest_truthy (msg : list Z) : truthy (JStr (Sha256.hexdigest msg)) = true.
Proof.
  pose proof (hexdigest_length msg) as H. simpl.
  destruct (Sha256.hexdigest msg); [discriminate|reflexivity].
Qed.

(** * [json.dumps] writes ASCII *)

Lemma ascii_app (a b : pystr) :
  forallb ascii7 (a ++ b) = forallb ascii7 a && forallb ascii7 b.
Proof. apply forallb_app. Qed.

Lemma hex4_ascii (n : Z) : forallb ascii7 (Dumps.hex4 n) = true.
Proof.
  unfold Dumps.hex4. simpl.
  now rewrite !(is_hex_digit_ascii _ (hex_digit_is_hex _)).
Qed.

Lemma uescape_ascii (n : Z) : forallb ascii7 (Dumps.uescape n) = true.
Proof. unfold Dumps.uescape. simpl. apply hex4_ascii. Qed.

Lemma escape_char_ascii (c : N) : forallb ascii7 (Dumps.escape_char c) = true.
Proof.
  unfold Dumps.escape_char. cbv zeta.
  repeat match goal with
         | |- context [if ?b then _ else _] =>
             let E := fresh "E" in destruct b eqn:E; try reflexivity
         end.
  - simpl. rewrite andb_true_r. apply andb_true_iff in E6 as [_ H].
    unfold ascii7. apply N.ltb_lt. lia.
  - apply uescape_ascii.
  - rewrite ascii_app, !uescape_ascii. reflexivity.
Qed.

Lemma encode_str_ascii (s : pystr) : forallb ascii7 (Dumps.encode_str s) = true.
Proof.
  unfold Dumps.encode_str. simpl. rewrite ascii_app. simpl.
  rewrite andb_true_r.
  induction s as [|c s IH]; simpl; [reflexivity|].
  now rewrite ascii_app, escape_char_ascii, IH.
Qed.

Lemma string_of_uint_ascii (d : Decimal.uint) :
  forallb ascii7 (py (NilEmpty.string_of_uint d)) = true.
Proof. induction d; simpl; auto. Qed.

Lemma int_repr_ascii (n : Z) : forallb ascii7 (Dumps.int_repr n) = true.
Proof.
  unfold Dumps.int_repr. destruct (Z.to_int n); simpl;
    apply string_of_uint_ascii.
Qed.

Lemma join_ascii (sep : pystr) (parts : list pystr) :
  forallb ascii7 sep = true ->
  Forall (fun p => forallb ascii7 p = true) parts ->
  forallb ascii7 (join sep parts) = true.
Proof.
  intros Hs H. induction H as [|p parts Hp H IH]; [reflexivity|].
  destruct parts as [|q parts]; [exact Hp|].
  change (join sep (p :: q :: parts)) with (p ++ sep ++ join sep (q :: parts)).
  now rewrite !ascii_app, Hp, Hs, IH.
Qed.

(** * Sorting the items of a dict *)

Section SortItems.
Variable V : Type.
Implicit Types (x : pystr * V) (l : list (pystr * V)).

Lemma insert_perm x l : Permutation (x :: l) (Dumps.insert x l).
Proof.
  induction l as [|y l IH]; simpl; [reflexivity|].
  destruct (str_leb (fst x) (fst y)); [reflexivity|].
  rewrite perm_swap. now constructor.
Qed.

Lemma sort_items_perm l : Permutation l (Dumps.sort_items l).
Proof.
  induction l as [|x l IH]; simpl; [reflexivity|].
  rewrite <- insert_perm. now constructor.
Qed.





End SortItems.

(** Encoding the values before or after the sort gives the same items:
    only keys are compared. *)
Lemma insert_map_values {V W} (g : V -> W) (x : pystr * V) (l : list (pystr * V)) :
  Dumps.insert (fst x, g (snd x)) (map (fun kv => (fst kv, g (snd kv))) l) =
  map (fun kv => (fst kv, g (snd kv))) (Dumps.insert x l).
Proof.
  induction l as [|y l IH]; simpl; [reflexivity|].
  destruct (str_leb (fst x) (fst y)); simpl; [reflexivity|]. now rewrite IH.
Qed.

Lemma sort_items_map_values {V W} (g : V -> W) (l : list (pystr * V)) :
  Dumps.sort_items (map (fun kv => (fst kv, g (snd kv))) l) =
  map (fun kv => (fst kv, g (snd kv))) (Dumps.sort_items l).
Proof.
  induction l as [|x l IH]; simpl; [reflexivity|].
  rewrite IH. apply insert_map_values.
Qed.

(** A dict is written as its items in key order, [key:value] joined by
    commas between braces. *)
Lemma dumps_dict (d : dict) :
  Dumps.dumps (JDict d) =
  py "{" ++
  join (py ",")
    (map (fun kv => Dumps.encode_str (fst kv) ++ py ":" ++ Dumps.dumps (snd kv))
         (Dumps.sort_items d)) ++
  py "}".
Proof.
  cbn [Dumps.dumps]. rewrite sort_items_map_values, map_map. reflexivity.
Qed.

Lemma dumps_ascii (v : json) : forallb ascii7 (Dumps.dumps v) = true.
Proof.
  induction v as [| [|] | n | s | l IH | d IH] using json_ind;
    try reflexivity.
  - apply int_repr_ascii.
  - apply encode_str_ascii.
  - cbn [Dumps.dumps]. rewrite !ascii_app. simpl. rewrite andb_true_r.
    apply join_ascii; [reflexivity|].
    apply Forall_map. exact IH.
  - rewrite dumps_dict, !ascii_app.
    apply andb_true_iff; split; [reflexivity|].
    apply andb_true_iff; split; [|reflexivity].
    apply join_ascii; [reflexivity|].
    apply Forall_map.
    eapply Permutation_Forall; [apply sort_items_perm|].
    eapply Forall_impl; [|exact IH]. intros [k v] H. cbn [fst snd] in *.
    now rewrite !ascii_app, encode_str_ascii, H.
Qed.

Lemma dumps_encodable (v : json) : Utf8.encodable (Dumps.dumps v) = true.
Proof. apply ascii_encodable, dumps_ascii. Qed.


(** * [compute_event_hash] *)

Lemma filter_dict_set_hash (v : json) (d : dict) :
  filter not_hash_key (dict_set (py "_hash") v d) = filter not_hash_key d.
Proof.
  assert (Hk : forall k x, not_hash_key (k, x) = negb (str_eqb k (py "_hash")))
    by reflexivity.
  induction d as [|[k x] d IH]; [reflexivity|].
  cbn [dict_set]. destruct (str_eqb k (py "_hash")) eqn:E;
    cbn [filter]; rewrite !Hk, E; cbn [negb].
  - reflexivity.
  - now rewrite IH.
Qed.

(** The stored [_hash] of an event has no part in its hash. *)
Lemma compute_event_hash_set_hash (d : dict) (v prev sid : json) :
  compute_event_hash (JDict (dict_set (py "_hash") v d)) prev sid =
  compute_event_hash (JDict d) prev sid.
Proof.
  unfold compute_event_hash. simpl. now rewrite filter_dict_set_hash.
Qed.

(** The text that is hashed. *)
Lemma compute_event_hash_text (d : dict) (p s : pystr) :
  compute_event_hash (JDict d) (JStr p) (JStr s) =
  (bytes <- Utf8.encode
              (Dumps.dumps (JDict (filter not_hash_key d)) ++
               py "|" ++ p ++ py "|" ++ s) ;;
   Ok (Sha256.hexdigest bytes)).
Proof.
  unfold compute_event_hash. simpl. now rewrite <- !app_assoc.
Qed.

(** On a dict, a previous hash and a session id that are text, the hash is
    computed. *)
Lemma compute_event_hash_returns (d : dict) (p s : pystr) :
  Utf8.encodable p = true -> Utf8.encodable s = true ->
  exists bytes,
    Utf8.encode (Dumps.dumps (JDict (filter not_hash_key d)) ++
                 py "|" ++ p ++ py "|" ++ s) = Ok bytes /\
    compute_event_hash (JDict d) (JStr p) (JStr s) =
    Ok (Sha256.hexdigest bytes).
Proof.
  intros Hp Hs.
  destruct (proj1 (encode_returns
             (Dumps.dumps (JDict (filter not_hash_key d)) ++
              py "|" ++ p ++ py "|" ++ s))) as [bytes Hb].
  { rewrite !encodable_app, dumps_encodable, Hp, Hs. reflexivity. }
  exists bytes. split; [exact Hb|].
  rewrite compute_event_hash_text, Hb. reflexivity.
Qed.




(** * Values *)

Arguments compute_event_hash : simpl never.
Arguments Sha256.hexdigest : simpl never.
Arguments Dumps.dumps : simpl never.
Arguments py : simpl never.

Lemma py_eq_str (v : json) (s : pystr) : py_eq v (JStr s) = true -> v = JStr s.
Proof.
  destruct v; simpl; try discriminate.
  intros H. apply str_eqb_eq in H. now subst.
Qed.

Lemma py_ne_str_false (v : json) (s : pystr) :
  py_ne v (JStr s) = false -> v = JStr s.
Proof. unfold py_ne. intros H. apply negb_false_iff in H. now apply py_eq_str. Qed.

Lemma py_ne_str_same (s : pystr) : py_ne (JStr s) (JStr s) = false.
Proof. unfold py_ne. simpl. now rewrite str_eqb_refl. Qed.

Lemma py_get_dict (d : dict) (k : pystr) (default : json) :
  py_get (JDict d) k default = Ok (get_or k default d).
Proof. reflexivity. Qed.

Lemma compute_event_hash_dict (e prev sid : json) (h : pystr) :
  compute_event_hash e prev sid = Ok h -> exists d, e = JDict d.
Proof.
  unfold compute_event_hash. destruct e; simpl; try discriminate. eauto.
Qed.

Lemma is_text_inv (v : json) :
  is_text v = true -> exists s, v = JStr s /\ Utf8.encodable s = true.
Proof. destruct v; simpl; try discriminate. eauto. Qed.

Lemma py_or_text (a b : json) :
  is_text a = true -> is_text b = true -> is_text (py_or a b) = true.
Proof. unfold py_or. now destruct (truthy a). Qed.

Lemma valid_event_stored (e : json) :
  valid_event e = true ->
  exists d, e = JDict d /\ is_text (stored_hash_of e) = true.
Proof.
  destruct e as [| | | | |d]; simpl; try discriminate.
  unfold field_is, get_or. intros H. exists d. split; [reflexivity|].
  destruct (lookup (py "_hash") d); [exact H|reflexivity].
Qed.

Lemma lookup_dict_set_same (k : pystr) (v : json) (d : dict) :
  lookup k (dict_set k v d) = Some v.
Proof.
  induction d as [|[k' x] d IH]; simpl.
  - now rewrite str_eqb_refl.
  - destruct (str_eqb k' k) eqn:E; simpl; rewrite E; [reflexivity|exact IH].
Qed.

Lemma lookup_dict_set_other (k k' : pystr) (v : json) (d : dict) :
  str_eqb k k' = false -> lookup k' (dict_set k v d) = lookup k' d.
Proof.
  intros Hk. induction d as [|[k0 x] d IH]; simpl.
  - rewrite Hk. reflexivity.
  - destruct (str_eqb k0 k) eqn:E; simpl.
    + apply str_eqb_eq in E. subst. rewrite Hk. reflexivity.
    + destruct (str_eqb k0 k'); [reflexivity|exact IH].
Qed.

Lemma dict_set_set (k : pystr) (v w : json) (d : dict) :
  dict_set k w (dict_set k v d) = dict_set k w d.
Proof.
  induction d as [|[k' x] d IH]; simpl.
  - now rewrite str_eqb_refl.
  - destruct (str_eqb k' k) eqn:E; simpl; rewrite E; [reflexivity|].
    now rewrite IH.
Qed.

(** * The running hash and the two loops *)

Lemma running_hash_app (sid : json) (l1 l2 : list json) (prev : json) :
  running_hash sid (l1 ++ l2) prev =
  (q <- running_hash sid l1 prev ;; running_hash sid l2 q).
Proof.
  revert prev. induction l1 as [|e l1 IH]; intros prev; simpl; [reflexivity|].
  destruct (compute_event_hash e prev sid); simpl; [apply IH|reflexivity].
Qed.

(** On well-formed events the running hash is computed and stays text. *)
Lemma running_hash_valid (s : pystr) (l : list json) (prev : json) :
  Utf8.encodable s = true -> forallb valid_event l = true ->
  is_text prev = true ->
  exists q, running_hash (JStr s) l prev = Ok q /\ is_text q = true.
Proof.
  intros Hs. revert prev. induction l as [|e l IH]; intros prev Hl Hp; simpl.
  - eauto.
  - simpl in Hl. apply andb_true_iff in Hl as [He Hl].
    destruct (valid_event_stored _ He) as (d & -> & Hst).
    destruct (is_text_inv _ Hp) as (p & -> & Hp').
    destruct (compute_event_hash_returns d p s Hp' Hs) as (bytes & _ & ->).
    simpl. apply IH; [exact Hl|].
    apply py_or_text; [exact Hst|]. cbn [is_text]. apply hexdigest_encodable.
Qed.

Lemma no_fail_app (a b : list message) :
  no_fail (a ++ b) = no_fail a && no_fail b.
Proof. apply forallb_app. Qed.

(** What one turn of the loop of [verify_hash_chain] does, when it
    returns. *)
Lemma vhc_step_ok (verbose : bool) (sid : json) (i : nat) (e : json)
    (st st' : chain_state) :
  vhc_step verbose sid i e st = Ok st' ->
  exists d h new,
    e = JDict d /\
    compute_event_hash e (prev_hash st) sid = Ok h /\
    prev_hash st' = py_or (stored_hash_of e) (JStr h) /\
    messages st' = messages st ++ new /\
    all_ok st' = all_ok st && no_fail new /\
    new = event_messages verbose i e h.
Proof.
  unfold vhc_step, event_messages. intros H.
  destruct e as [| | | | |d]; try discriminate.
  rewrite !py_get_dict in H. cbn [bind] in H.
  destruct (compute_event_hash (JDict d) (prev_hash st) sid) as [h|] eqn:Eh;
    [|discriminate].
  cbn [bind] in H. cbn [stored_hash_of event_type].
  exists d, h.
  destruct (truthy (get_or (py "_hash") (JStr []) d)) eqn:Et; cbn [negb] in *.
  - destruct (py_ne (get_or (py "_hash") (JStr []) d) (JStr h)) eqn:En.
    + cbn [bind] in H. injection H as <-. eexists. cbn.
      repeat split; try reflexivity. now rewrite andb_false_r.
    + rewrite (py_ne_str_false _ _ En) in *.
      destruct verbose; cbn in H; injection H as <-; eexists; cbn;
        repeat split; try reflexivity; now rewrite ?andb_true_r, ?app_nil_r.
  - cbn [bind] in H. injection H as <-. eexists. cbn.
    repeat split; try reflexivity. now rewrite andb_true_r.
Qed.

(** A turn returns as soon as the hash of the event is computed. *)
Lemma vhc_step_returns (verbose : bool) (sid : json) (i : nat) (e : json)
    (st : chain_state) (h : pystr) :
  compute_event_hash e (prev_hash st) sid = Ok h ->
  exists st', vhc_step verbose sid i e st = Ok st'.
Proof.
  intros Hh. destruct (compute_event_hash_dict _ _ _ _ Hh) as [d ->].
  unfold vhc_step. rewrite !py_get_dict. cbn [bind]. rewrite Hh. cbn [bind].
  destruct (truthy (get_or (py "_hash") (JStr []) d)); cbn [negb bind];
    [|eauto].
  destruct (py_ne (get_or (py "_hash") (JStr []) d) (JStr h)) eqn:En;
    cbn [bind]; [eauto|].
  rewrite (py_ne_str_false _ _ En). destruct verbose; cbn; eauto.
Qed.

Lemma vhc_loop_app (verbose : bool) (sid : json) (l1 l2 : list json) (i : nat)
    (st : chain_state) :
  vhc_loop verbose sid (l1 ++ l2) i st =
  (st1 <- vhc_loop verbose sid l1 i st ;;
   vhc_loop verbose sid l2 (i + length l1) st1).
Proof.
  revert i st. induction l1 as [|e l1 IH]; intros i st; simpl.
  - now rewrite Nat.add_0_r.
  - destruct (vhc_step verbose sid i e st); simpl; [|reflexivity].
    rewrite IH. now rewrite Nat.add_succ_r.
Qed.

(** The loop, when it returns: the running hash, the messages added, and
    the flag, which is lost exactly when a message of level fail is added. *)
Lemma vhc_loop_ok (verbose : bool) (sid : json) (l : list json) (i : nat)
    (st st' : chain_state) :
  vhc_loop verbose sid l i st = Ok st' ->
  running_hash sid l (prev_hash st) = Ok (prev_hash st') /\
  exists new,
    messages st' = messages st ++ new /\
    all_ok st' = all_ok st && no_fail new.
Proof.
  revert i st. induction l as [|e l IH]; intros i st H; simpl in H.
  - injection H as <-. split; [reflexivity|]. exists [].
    now rewrite app_nil_r, andb_true_r.
  - unbind H.
    destruct (vhc_step_ok _ _ _ _ _ _ Ha) as (d & h & new & -> & Hh & Hp & Hm & Hf & _).
    destruct (IH _ _ H) as (Hr & new' & Hm' & Hf').
    split.
    + cbn [running_hash]. rewrite Hh. cbn [bind]. rewrite <- Hp. exact Hr.
    + exists (new ++ new').
      rewrite Hm', Hm, Hf', Hf, no_fail_app, app_assoc, andb_assoc.
      split; reflexivity.
Qed.

(** The loop returns as soon as the running hash is computed. *)
Lemma vhc_loop_returns (verbose : bool) (sid : json) (l : list json) (i : nat)
    (st : chain_state) (q : json) :
  running_hash sid l (prev_hash st) = Ok q ->
  exists st', vhc_loop verbose sid l i st = Ok st'.
Proof.
  revert i st. induction l as [|e l IH]; intros i st H; simpl in *.
  - eauto.
  - unbind H.
    destruct (vhc_step_returns verbose sid i e st _ Ha) as [st1 H1].
    rewrite H1. simpl.
    destruct (vhc_step_ok _ _ _ _ _ _ H1) as (d & h & new & -> & Hh & Hp & _).
    rewrite Ha in Hh. injection Hh as <-.
    apply IH. rewrite Hp. exact H.
Qed.

(** Every event of the run has its finding among the messages. *)
Lemma vhc_loop_reports (verbose : bool) (sid : json) (l : list json) (i : nat)
    (st st' : chain_state) :
  vhc_loop verbose sid l i st = Ok st' ->
  forall j e prev h,
    nth_error l j = Some e ->
    running_hash sid (firstn j l) (prev_hash st) = Ok prev ->
    compute_event_hash e prev sid = Ok h ->
    incl (event_messages verbose (i + j) e h) (messages st').
Proof.
  revert i st. induction l as [|e0 l IH]; intros i st H j e prev h Hn Hr Hh.
  - destruct j; discriminate.
  - simpl in H. unbind H.
    destruct (vhc_step_ok _ _ _ _ _ _ Ha) as (d & h0 & new & -> & Hh0 & Hp & Hm & _ & Hnew).
    destruct (vhc_loop_ok _ _ _ _ _ _ H) as (_ & new' & Hm' & _).
    destruct j as [|j].
    + simpl in Hn, Hr. injection Hn as <-. injection Hr as <-.
      rewrite Hh0 in Hh. injection Hh as <-.
      rewrite Nat.add_0_r, Hm', Hm, <- Hnew.
      intros m Hin. apply in_or_app. left. apply in_or_app. now right.
    + cbn [nth_error firstn running_hash] in Hn, Hr. rewrite Hh0 in Hr.
      cbn [bind] in Hr. rewrite <- Hp in Hr.
      rewrite Nat.add_succ_r.
      exact (IH (S i) a H j e prev h Hn Hr Hh).
Qed.

(** Without stored hashes every message of the run is a warning. *)
Lemma vhc_loop_unsigned (verbose : bool) (sid : json) (l : list json) (i : nat)
    (st st' : chain_state) :
  vhc_loop verbose sid l i st = Ok st' ->
  forallb (fun e => negb (truthy (stored_hash_of e))) l = true ->
  exists new, messages st' = messages st ++ new /\ forallb is_warn new = true.
Proof.
  revert i st. induction l as [|e l IH]; intros i st H Hu; simpl in H.
  - injection H as <-. exists []. now rewrite app_nil_r.
  - simpl in Hu. apply andb_true_iff in Hu as [He Hu]. unbind H.
    destruct (vhc_step_ok _ _ _ _ _ _ Ha) as (d & h & new & -> & _ & _ & Hm & _ & Hnew).
    destruct (IH _ _ H Hu) as (new' & Hm' & Hw).
    exists (new ++ new'). rewrite Hm', Hm, app_assoc. split; [reflexivity|].
    rewrite forallb_app, Hw, andb_true_r. subst new.
    unfold event_messages. rewrite He. reflexivity.
Qed.

(** The loop of [verify_process_log] against the loop of
    [verify_hash_chain], on well-formed events: the first stops at a
    mismatch, which the second records by clearing its flag; with no
    mismatch both end on the same previous hash. *)
Lemma loops_agree (verbose : bool) (s : pystr) (l : list json) (i : nat)
    (st : chain_state) :
  Utf8.encodable s = true -> forallb valid_event l = true ->
  is_text (prev_hash st) = true ->
  exists st',
    vhc_loop verbose (JStr s) l i st = Ok st' /\
    is_text (prev_hash st') = true /\
    ((exists d, vpl_loop (JStr s) l i (prev_hash st) = Ok (inl d) /\
                all_ok st' = false) \/
     (vpl_loop (JStr s) l i (prev_hash st) = Ok (inr (prev_hash st')) /\
      all_ok st' = all_ok st)).
Proof.
  intros Hs. revert i st. induction l as [|e l IH]; intros i st Hl Hp.
  - exists st. simpl. auto.
  - simpl in Hl. apply andb_true_iff in Hl as [He Hl].
    destruct (valid_event_stored _ He) as (d & -> & Hst).
    destruct (is_text_inv _ Hp) as (p & Ep & Hp').
    destruct (compute_event_hash_returns d p s Hp' Hs) as (bytes & _ & Hh).
    rewrite <- Ep in Hh.
    destruct (vhc_step_returns verbose (JStr s) i (JDict d) st _ Hh) as [st1 H1].
    destruct (vhc_step_ok _ _ _ _ _ _ H1) as (d' & h & new & _ & Hh' & Hq & Hm & Hf & Hnew).
    rewrite Hh in Hh'. injection Hh' as <-.
    assert (Hq1 : is_text (prev_hash st1) = true).
    { rewrite Hq. apply py_or_text; [exact Hst|]. cbn [is_text].
      apply hexdigest_encodable. }
    destruct (IH (S i) st1 Hl Hq1) as (st' & Hloop & Hq' & Hcase).
    exists st'. split; [|split; [exact Hq'|]].
    { simpl. rewrite H1. exact Hloop. }
    destruct (vhc_loop_ok _ _ _ _ _ _ Hloop) as (_ & new' & _ & Hf').
    cbn [vpl_loop]. rewrite py_get_dict. cbn [bind]. rewrite Hh. cbn [bind].
    cbn [stored_hash_of] in *.
    destruct (is_text_inv _ Hst) as (t & Et & _). rewrite Et in *.
    unfold event_messages in Hnew. cbn [stored_hash_of] in Hnew.
    rewrite Et in Hnew.
    destruct (truthy (JStr t)) eqn:Ett; cbn [negb andb] in *.
    + destruct (py_ne (JStr t) (JStr (Sha256.hexdigest bytes))) eqn:En.
      * left. rewrite py_get_dict. cbn [bind slice16]. eexists.
        split; [reflexivity|].
        rewrite Hf', Hf, Hnew. cbn. now rewrite andb_false_r.
      * rewrite <- Hq.
        assert (Hk : all_ok st1 = all_ok st).
        { rewrite Hf, Hnew. destruct verbose; cbn; now rewrite andb_true_r. }
        destruct Hcase as [(dd & Hv & Ha)|(Hv & Ha)]; [left|right].
        -- exists dd. auto.
        -- split; [exact Hv|congruence].
    + rewrite <- Hq.
      assert (Hk : all_ok st1 = all_ok st).
      { rewrite Hf, Hnew. cbn. now rewrite andb_true_r. }
      destruct Hcase as [(dd & Hv & Ha)|(Hv & Ha)]; [left|right].
      * exists dd. auto.
      * split; [exact Hv|congruence].
Qed.

(** * Well-formed logs, unfolded *)

Lemma valid_log_inv (log : json) :
  valid_log log = true ->
  exists d s l g,
    log = JDict d /\
    get_or (py "session_id") (JStr []) d = JStr s /\
    Utf8.encodable s = true /\
    get_or (py "events") (JList []) d = JList l /\
    events_of log = l /\
    forallb valid_event l = true /\
    get_or (py "_integrity") (JDict []) d = JDict g /\
    is_text (get_or (py "head_hash") (JStr []) g) = true.
Proof.
  destruct log as [| | | | |d]; try discriminate. cbn [valid_log].
  intros H. apply andb_true_iff in H as [H Hi].
  apply andb_true_iff in H as [Hs He].
  unfold field_is, get_or, events_of in *.
  assert (exists s, match lookup (py "session_id") d with
                    | Some v => v | None => JStr [] end = JStr s /\
                    Utf8.encodable s = true) as (s & Es & Hs').
  { destruct (lookup (py "session_id") d) as [v|].
    - now apply is_text_inv.
    - exists []. auto. }
  assert (exists l, match lookup (py "events") d with
                    | Some v => v | None => JList [] end = JList l /\
                    match lookup (py "events") d with
                    | Some (JList l) => l | _ => [] end = l /\
                    forallb valid_event l = true) as (l & El & El' & Hl).
  { destruct (lookup (py "events") d) as [v|].
    - destruct v; try discriminate. eauto.
    - exists []. auto. }
  assert (exists g, match lookup (py "_integrity") d with
                    | Some v => v | None => JDict [] end = JDict g /\
                    is_text match lookup (py "head_hash") g with
                            | Some v => v | None => JStr [] end = true)
    as (g & Eg & Hg).
  { destruct (lookup (py "_integrity") d) as [v|].
    - destruct v as [| | | | |g]; try discriminate. exists g.
      split; [reflexivity|]. cbn [valid_integrity] in Hi. unfold field_is in Hi.
      destruct (lookup (py "head_hash") g); [exact Hi|reflexivity].
    - exists []. auto. }
  exists d, s, l, g. repeat split; assumption.
Qed.

Lemma valid_log_session (log : json) d s :
  log = JDict d -> get_or (py "session_id") (JStr []) d = JStr s ->
  session_id_of log = JStr s.
Proof. intros -> H. exact H. Qed.

Lemma verify_hash_chain_valid (verbose : bool) (d : dict) (s : pystr)
    (l : list json) (g : dict) (st : chain_state) :
  get_or (py "session_id") (JStr []) d = JStr s ->
  get_or (py "events") (JList []) d = JList l ->
  get_or (py "_integrity") (JDict []) d = JDict g ->
  vhc_loop verbose (JStr s) l 0 initial = Ok st ->
  verify_hash_chain (JDict d) verbose =
  check_head verbose (get_or (py "head_hash") (JStr []) g) st.
Proof.
  intros Es El Eg Hst. unfold verify_hash_chain.
  rewrite !py_get_dict. cbn [bind]. rewrite Es, El, Eg. cbn [py_iter bind].
  rewrite Hst. cbn [bind]. rewrite py_get_dict. reflexivity.
Qed.

(** On a head hash that is text the check returns; the flag is lost
    exactly when the head hash is not empty and differs from the last
    previous hash, and then a message of level fail is added. *)
Lemma check_head_text (verbose : bool) (head : json) (st : chain_state) :
  is_text head = true ->
  exists flag msgs new,
    check_head verbose head st = Ok (flag, msgs) /\
    msgs = messages st ++ new /\
    flag = all_ok st && no_fail new /\
    flag = all_ok st && negb (truthy head && py_ne head (prev_hash st)).
Proof.
  intros Ht. unfold check_head.
  destruct (is_text_inv _ Ht) as (t & -> & _).
  destruct (truthy (JStr t)) eqn:Et.
  - destruct (py_ne (JStr t) (prev_hash st)) eqn:En.
    + do 3 eexists. split; [reflexivity|]. split; [reflexivity|].
      cbn. now rewrite andb_false_r.
    + destruct verbose; cbn [slice16 bind]; do 3 eexists;
        (split; [reflexivity|]); (split; [try reflexivity|]).
      * cbn. now rewrite andb_true_r.
      * instantiate (1 := []). now rewrite app_nil_r.
      * cbn. now rewrite andb_true_r.
  - do 3 eexists. split; [reflexivity|]. split; [reflexivity|].
    cbn. now rewrite andb_true_r.
Qed.

Example add_hash_chain_plain_log : add_hash_chain plain_log = Ok chained_log.
Proof. vm_compute. reflexivity. Qed.

Lemma head_hash_of_get (d g : dict) (head : json) :
  get_or (py "_integrity") (JDict []) d = JDict g ->
  head_hash_of (JDict d) = Some head ->
  get_or (py "head_hash") (JStr []) g = head.
Proof.
  unfold get_or, head_hash_of.
  destruct (lookup (py "_integrity") d) as [v|]; [|discriminate 2].
  intros ->. intros ->. reflexivity.
Qed.

(** * Outside the shape of a log document

    A previous hash or a session id with a lone surrogate cannot be
    encoded; a stored hash that is not a str stops [verify_hash_chain] at
    the next event, where [verify_process_log] had returned at the
    mismatch; a number as stored hash stops [verify_process_log] in its
    message. *)

Example compute_event_hash_surrogate :
  compute_event_hash (JDict ev_start) (JStr []) (JStr [55296%N]) =
  Raise UnicodeEncodeError /\
  compute_event_hash (JDict ev_start) JNull (JStr []) = Raise TypeError /\
  compute_event_hash (JList []) (JStr []) (JStr []) = Raise AttributeError.
Proof. evaluate. Qed.

Example verifiers_on_a_list_as_hash :
  verify_process_log ill_typed_hash_log =
  Ok (false, MismatchAt 0 JNull (firstn 16 hash_empty_event) (JList [JInt 1])) /\
  verify_hash_chain ill_typed_hash_log false = Raise TypeError.
Proof. evaluate. Qed.

Example verifiers_on_a_number_as_hash :
  verify_process_log numeric_hash_log = Raise TypeError /\
  verify_hash_chain numeric_hash_log false =
  Ok (false,
      [fail (EventHashMismatch 0 JNull hash_empty_event (JInt 123));
       warn NotAnchored]).
Proof. evaluate. Qed.

(** * The main properties *)

(** On a well-formed log [verify_process_log] returns, and its boolean is
    read off the state [verify_hash_chain] ends its walk in: the flag of
    the walk, unless the head hash is there and differs from the last
    previous hash. *)
Lemma verify_process_log_valid (verbose : bool) (d : dict) (s : pystr)
    (l : list json) (g : dict) (st : chain_state) :
  get_or (py "session_id") (JStr []) d = JStr s ->
  get_or (py "events") (JList []) d = JList l ->
  get_or (py "_integrity") (JDict []) d = JDict g ->
  Utf8.encodable s = true -> forallb valid_event l = true ->
  is_text (get_or (py "head_hash") (JStr []) g) = true ->
  vhc_loop verbose (JStr s) l 0 initial = Ok st ->
  exists detail,
    verify_process_log (JDict d) =
    Ok (all_ok st &&
        negb (truthy (get_or (py "head_hash") (JStr []) g) &&
              py_ne (get_or (py "head_hash") (JStr []) g) (prev_hash st)),
        detail).
Proof.
  intros Es El Eg Hs Hl Hg Hst.
  destruct (loops_agree verbose s l 0 initial Hs Hl eq_refl)
    as (st' & Hloop & Hq & Hcase).
  rewrite Hst in Hloop. injection Hloop as <-.
  unfold verify_process_log. rewrite !py_get_dict. cbn [bind].
  rewrite Es, El. cbn [py_iter bind].
  change (prev_hash initial) with (JStr []) in Hcase.
  destruct Hcase as [(dd & -> & Ha)|(-> & Ha)]; cbn [bind].
  - exists dd. now rewrite Ha.
  - rewrite Eg. cbn [bind]. rewrite py_get_dict. cbn [bind].
    rewrite Ha. cbn [initial all_ok andb].
    destruct (is_text_inv _ Hg) as (t & Et & _).
    destruct (is_text_inv _ Hq) as (q & Eq & _).
    rewrite Et, Eq in *.
    destruct (truthy (JStr t) && py_ne (JStr t) (JStr q)).
    + cbn [slice16 bind negb]. eauto.
    + cbn [py_len bind negb]. eauto.
Qed.

(** C10. On every well-formed log both verifiers return, and with the same
    boolean: [verify_process_log], which stops at the first mismatch, and
    [verify_hash_chain], which replays the whole chain. *)
Theorem verifiers_agree (log : json) (verbose : bool) :
  valid_log log = true ->
  exists b detail msgs,
    verify_process_log log = Ok (b, detail) /\
    verify_hash_chain log verbose = Ok (b, msgs).
Proof.
  intros Hv.
  destruct (valid_log_inv _ Hv) as (d & s & l & g & -> & Es & Hs & El & _ & Hl & Eg & Hg).
  destruct (loops_agree verbose s l 0 initial Hs Hl eq_refl)
    as (st & Hloop & _ & _).
  destruct (verify_process_log_valid verbose d s l g st Es El Eg Hs Hl Hg Hloop)
    as (detail & Hvpl).
  destruct (check_head_text verbose _ st Hg) as (flag & msgs & new & Hc & _ & _ & Hflag).
  exists flag, detail, msgs. split.
  - rewrite Hvpl, Hflag. reflexivity.
  - rewrite (verify_hash_chain_valid verbose d s l g st Es El Eg Hloop).
    exact Hc.
Qed.

Lemma verifiers_agree_witness :
  valid_log chained_log = true /\
  exists b detail msgs,
    verify_process_log chained_log = Ok (b, detail) /\
    verify_hash_chain chained_log true = Ok (b, msgs).
Proof.
  split; [reflexivity|]. apply (verifiers_agree chained_log true). reflexivity.
Defined.

(** C3. On every well-formed log [verify_hash_chain] returns, in either
    mode, after the whole walk: the flag is true exactly when no message is
    a failure, every tampered event has its mismatch among the messages,
    whatever came before it, and so has a head hash that differs from the
    last previous hash.  [verify_process_log] returns as well. *)
Theorem verify_hash_chain_full_replay (log : json) (verbose : bool) :
  valid_log log = true ->
  exists flag msgs,
    verify_hash_chain log verbose = Ok (flag, msgs) /\
    flag = no_fail msgs /\
    (forall i e h,
        tampered log i e h ->
        In (fail (EventHashMismatch i (event_type e) h (stored_hash_of e))) msgs) /\
    (forall head q,
        head_hash_of log = Some head -> truthy head = true ->
        hash_before log (length (events_of log)) = Ok q ->
        py_ne head q = true ->
        In (fail (HeadHashMismatch q head)) msgs) /\
    (exists b detail, verify_process_log log = Ok (b, detail)).
Proof.
  intros Hv.
  destruct (valid_log_inv _ Hv) as (d & s & l & g & -> & Es & Hs & El & Eev & Hl & Eg & Hg).
  destruct (loops_agree verbose s l 0 initial Hs Hl eq_refl)
    as (st & Hloop & _ & _).
  rewrite (verify_hash_chain_valid verbose d s l g st Es El Eg Hloop).
  destruct (check_head_text verbose _ st Hg) as (flag & msgs & new & Hc & Hm & Hf & _).
  destruct (vhc_loop_ok _ _ _ _ _ _ Hloop) as (Hrun & new0 & Hm0 & Hf0).
  cbn [initial messages all_ok prev_hash app andb] in Hm0, Hf0, Hrun.
  exists flag, msgs. split; [exact Hc|]. split; [|split; [|split]];
    [| | |destruct (verify_process_log_valid verbose d s l g st Es El Eg Hs Hl
                      Hg Hloop) as (detail & Hvpl); eauto].
  - rewrite Hf, Hm, Hf0, Hm0. now rewrite no_fail_app.
  - intros i e h (Hn & (prev & Hb & Hh) & Ht & Hne).
    unfold hash_before in Hb.
    rewrite (valid_log_session _ _ _ eq_refl Es) in Hb, Hh. rewrite Eev in Hb, Hn.
    pose proof (@vhc_loop_reports verbose (JStr s) l 0 initial st Hloop
                  i e prev h Hn Hb Hh) as Hin.
    unfold event_messages in Hin. rewrite Ht, Hne in Hin. cbn [negb] in Hin.
    rewrite Hm. apply in_or_app. left. apply Hin. now left.
  - intros head q Hhead Ht Hb Hne.
    unfold hash_before in Hb.
    rewrite (valid_log_session _ _ _ eq_refl Es), Eev, firstn_all, Hrun in Hb.
    injection Hb as <-.
    rewrite (head_hash_of_get _ _ _ Eg Hhead) in Hc.
    unfold check_head in Hc. rewrite Ht, Hne in Hc. injection Hc as _ <-.
    apply in_or_app. right. now left.
Qed.

Lemma verify_hash_chain_full_replay_witness :
  valid_log twice_tampered_log = true /\
  exists flag msgs,
    verify_hash_chain twice_tampered_log false = Ok (flag, msgs) /\
    flag = no_fail msgs /\
    (forall i e h,
        tampered twice_tampered_log i e h ->
        In (fail (EventHashMismatch i (event_type e) h (stored_hash_of e))) msgs) /\
    (forall head q,
        head_hash_of twice_tampered_log = Some head -> truthy head = true ->
        hash_before twice_tampered_log
                    (length (events_of twice_tampered_log)) = Ok q ->
        py_ne head q = true ->
        In (fail (HeadHashMismatch q head)) msgs) /\
    (exists b detail, verify_process_log twice_tampered_log = Ok (b, detail)).
Proof.
  split; [reflexivity|].
  apply (verify_hash_chain_full_replay twice_tampered_log false). reflexivity.
Defined.

(** * [add_hash_chain] *)

Lemma dict_set_same (k : pystr) (v : json) (d : dict) :
  lookup k d = Some v -> dict_set k v d = d.
Proof.
  induction d as [|[k' x] d IH]; simpl; [discriminate|].
  destruct (str_eqb k' k); [congruence|]. intros H. now rewrite IH.
Qed.

Lemma stored_hash_of_set (v : json) (d : dict) :
  stored_hash_of (JDict (dict_set (py "_hash") v d)) = v.
Proof.
  cbn [stored_hash_of]. unfold get_or. now rewrite lookup_dict_set_same.
Qed.

Lemma chainable_inv (log : json) :
  chainable log = true ->
  exists d s l,
    log = JDict d /\
    get_or (py "session_id") (JStr []) d = JStr s /\
    Utf8.encodable s = true /\
    get_or (py "events") (JList []) d = JList l /\
    forallb is_dict l = true /\
    (lookup (py "events") d = Some (JList l) \/
     lookup (py "events") d = None /\ l = []).
Proof.
  destruct log as [| | | | |d]; try discriminate. cbn [chainable].
  intros H. apply andb_true_iff in H as [Hs He].
  unfold field_is, get_or in *.
  assert (exists s, match lookup (py "session_id") d with
                    | Some v => v | None => JStr [] end = JStr s /\
                    Utf8.encodable s = true) as (s & Es & Hs').
  { destruct (lookup (py "session_id") d) as [v|].
    - now apply is_text_inv.
    - exists []. auto. }
  exists d, s.
  destruct (lookup (py "events") d) as [v|].
  - destruct v as [| | | |l|]; try discriminate. exists l. auto 10.
  - exists []. auto 10.
Qed.

(** The loop of [add_hash_chain] on dicts: it returns; run again on its
    own output it changes nothing; and the loop of [verify_hash_chain]
    walks its output to the same last hash without losing its flag. *)
Lemma ahc_loop_chain (s : pystr) (l : list json) (p : pystr) :
  Utf8.encodable s = true -> forallb is_dict l = true ->
  Utf8.encodable p = true ->
  exists l' h,
    ahc_loop (JStr s) l p = Ok (l', h) /\
    Utf8.encodable h = true /\
    length l' = length l /\
    forallb valid_event l' = true /\
    ahc_loop (JStr s) l' p = Ok (l', h) /\
    (forall verbose i st,
        prev_hash st = JStr p ->
        exists st',
          vhc_loop verbose (JStr s) l' i st = Ok st' /\
          prev_hash st' = JStr h /\ all_ok st' = all_ok st).
Proof.
  intros Hs. revert p. induction l as [|e l IH]; intros p Hl Hp.
  - exists [], p. cbn. repeat split; auto. intros verbose i st Hst. eauto.
  - cbn [forallb] in Hl. apply andb_true_iff in Hl as [He Hl].
    destruct e as [| | | | |d]; try discriminate.
    destruct (compute_event_hash_returns d p s Hp Hs) as (bytes & _ & Hh).
    set (h := Sha256.hexdigest bytes) in *.
    assert (Hhe : Utf8.encodable h = true) by apply hexdigest_encodable.
    destruct (IH h Hl Hhe) as (l' & h' & Hloop & Hh' & Hlen & Hval & Hidem & Hver).
    exists (JDict (dict_set (py "_hash") (JStr h) d) :: l'), h'.
    split; [|split; [exact Hh'|split; [|split; [|split]]]].
    + cbn [ahc_loop]. rewrite Hh. cbn [bind py_setitem]. rewrite Hloop.
      reflexivity.
    + cbn [length]. now rewrite Hlen.
    + cbn [forallb valid_event]. unfold field_is.
      rewrite lookup_dict_set_same. cbn [is_text]. now rewrite Hhe, Hval.
    + cbn [ahc_loop]. rewrite compute_event_hash_set_hash, Hh.
      cbn [bind py_setitem]. rewrite dict_set_set, Hidem. reflexivity.
    + intros verbose i st Hst.
      assert (Hc : compute_event_hash (JDict (dict_set (py "_hash") (JStr h) d))
                     (prev_hash st) (JStr s) = Ok h).
      { rewrite compute_event_hash_set_hash, Hst. exact Hh. }
      destruct (vhc_step_returns verbose (JStr s) i _ st _ Hc) as [st1 H1].
      destruct (vhc_step_ok _ _ _ _ _ _ H1) as (d' & h0 & new & _ & Hc' & Hq & _ & Hf & Hnew).
      rewrite Hc in Hc'. injection Hc' as <-.
      rewrite stored_hash_of_set in Hq.
      assert (Hq1 : prev_hash st1 = JStr h).
      { rewrite Hq. unfold py_or. now destruct (truthy (JStr h)). }
      assert (Hf1 : all_ok st1 = all_ok st).
      { rewrite Hf, Hnew. unfold event_messages.
        rewrite stored_hash_of_set, py_ne_str_same.
        destruct (truthy (JStr h)), verbose; cbn; now rewrite andb_true_r. }
      destruct (Hver verbose (S i) st1 Hq1) as (st' & Hv' & Hq' & Hf').
      exists st'. cbn [vhc_loop]. rewrite H1. cbn [bind].
      split; [exact Hv'|]. split; [exact Hq'|congruence].
Qed.

Lemma key_integrity_session : str_eqb (py "_integrity") (py "session_id") = false.
Proof. reflexivity. Qed.
Lemma key_integrity_events : str_eqb (py "_integrity") (py "events") = false.
Proof. reflexivity. Qed.
Lemma key_events_session : str_eqb (py "events") (py "session_id") = false.
Proof. reflexivity. Qed.

Lemma add_hash_chain_chainable (d : dict) (s : pystr) (l l' : list json) (h : pystr) :
  get_or (py "session_id") (JStr []) d = JStr s ->
  get_or (py "events") (JList []) d = JList l ->
  ahc_loop (JStr s) l [] = Ok (l', h) ->
  add_hash_chain (JDict d) = Ok (JDict (chained d l' (length l) h (JStr s))).
Proof.
  intros Es El Hloop. unfold add_hash_chain.
  rewrite !py_get_dict. cbn [bind]. rewrite Es, El. cbn [py_iter bind].
  rewrite Hloop. reflexivity.
Qed.

Lemma chained_fields (d : dict) (s : pystr) (l l' : list json) (n : nat) (h : pystr) :
  get_or (py "session_id") (JStr []) d = JStr s ->
  (lookup (py "events") d = Some (JList l) \/
   lookup (py "events") d = None /\ l = []) ->
  (l = [] -> l' = []) ->
  let d' := chained d l' n h (JStr s) in
  get_or (py "session_id") (JStr []) d' = JStr s /\
  get_or (py "events") (JList []) d' = JList l' /\
  get_or (py "_integrity") (JDict []) d' = integrity_block n h (JStr s) /\
  store_events d' l' = d'.
Proof.
  intros Es Hev Hnil. cbv zeta. unfold chained, store_events, get_or in *.
  rewrite !(@lookup_dict_set_other _ _ _ _ key_integrity_session).
  rewrite !(@lookup_dict_set_other _ _ _ _ key_integrity_events).
  rewrite lookup_dict_set_same.
  destruct Hev as [Hev|[Hev ->]]; rewrite Hev.
  - rewrite (@lookup_dict_set_other _ _ _ _ key_events_session).
    rewrite !lookup_dict_set_same.
    repeat split; try assumption.
    apply dict_set_same.
    rewrite (@lookup_dict_set_other _ _ _ _ key_integrity_events).
    apply lookup_dict_set_same.
  - rewrite Hev, (Hnil eq_refl). repeat split; assumption.
Qed.

Lemma length_nil_inv {A B} (l : list A) (l' : list B) :
  length l' = length l -> l = [] -> l' = [].
Proof. intros H ->. now destruct l'. Qed.

(** C2. For every log document (session id a text, events a list of
    dicts) [add_hash_chain] returns a log on which [verify_hash_chain]
    returns true, in either mode. *)
Theorem add_then_verify_intact (log : json) (verbose : bool) :
  chainable log = true ->
  exists log' msgs,
    add_hash_chain log = Ok log' /\
    verify_hash_chain log' verbose = Ok (true, msgs).
Proof.
  intros Hc.
  destruct (chainable_inv _ Hc) as (d & s & l & -> & Es & Hs & El & Hl & Hev).
  destruct (ahc_loop_chain s l [] Hs Hl eq_refl)
    as (l' & h & Hloop & _ & Hlen & _ & _ & Hver).
  rewrite (@add_hash_chain_chainable d s l l' h Es El Hloop).
  destruct (@chained_fields d s l l' (length l) h Es Hev
              (@length_nil_inv _ _ l l' Hlen)) as (Es' & El' & Eg' & _).
  destruct (Hver verbose 0%nat initial eq_refl) as (st & Hst & Hq & Hf).
  eexists. 
  rewrite (@verify_hash_chain_valid verbose _ s l' _ st Es' El' Eg' Hst).
  change (get_or (py "head_hash") (JStr []) _) with (JStr h).
  unfold check_head. rewrite Hq, py_ne_str_same, Hf.
  destruct (truthy (JStr h)), verbose; cbn; eauto.
Qed.

Lemma add_then_verify_intact_witness :
  chainable plain_log = true /\
  exists log' msgs,
    add_hash_chain plain_log = Ok log' /\
    verify_hash_chain log' false = Ok (true, msgs).
Proof.
  split; [reflexivity|]. apply (add_then_verify_intact plain_log false).
  reflexivity.
Defined.

(** C5. [add_hash_chain] is idempotent: on every log document the second
    application returns the log the first one returned, so every [_hash]
    and the [_integrity] block are the same; the stored [_hash] of an event
    has no part in its hash. *)
Theorem add_hash_chain_idempotent (log : json) :
  chainable log = true ->
  (exists log',
      add_hash_chain log = Ok log' /\ add_hash_chain log' = Ok log') /\
  (forall d v prev sid,
      compute_event_hash (JDict (dict_set (py "_hash") v d)) prev sid =
      compute_event_hash (JDict d) prev sid).
Proof.
  intros Hc. split; [|intros; apply compute_event_hash_set_hash].
  destruct (chainable_inv _ Hc) as (d & s & l & -> & Es & Hs & El & Hl & Hev).
  destruct (ahc_loop_chain s l [] Hs Hl eq_refl)
    as (l' & h & Hloop & _ & Hlen & _ & Hidem & _).
  rewrite (@add_hash_chain_chainable d s l l' h Es El Hloop).
  destruct (@chained_fields d s l l' (length l) h Es Hev
              (@length_nil_inv _ _ l l' Hlen)) as (Es' & El' & _ & Hstore).
  eexists. split; [reflexivity|].
  rewrite (@add_hash_chain_chainable _ s l' l' h Es' El' Hidem).
  do 2 f_equal. unfold chained at 1. rewrite Hstore, Hlen.
  unfold chained. apply dict_set_set.
Qed.

Lemma add_hash_chain_idempotent_witness :
  chainable chained_log = true /\
  (exists log',
      add_hash_chain chained_log = Ok log' /\ add_hash_chain log' = Ok log') /\
  (forall d v prev sid,
      compute_event_hash (JDict (dict_set (py "_hash") v d)) prev sid =
      compute_event_hash (JDict d) prev sid).
Proof.
  split; [reflexivity|]. apply (add_hash_chain_idempotent chained_log).
  reflexivity.
Defined.



(** The hash of the sample event, with its fields in two orders. *)
Example compute_event_hash_sample :
  compute_event_hash (JDict ev_paste) (JStr hash0) (JStr (py "s-1")) = Ok hash1 /\
  compute_event_hash (JDict (rev ev_paste)) (JStr hash0) (JStr (py "s-1")) = Ok hash1.
Proof. evaluate. Qed.

(** * Unsigned logs *)

Lemma unsigned_event (e : json) :
  is_dict e = true -> negb (has_field (py "_hash") e) = true ->
  valid_event e = true /\ negb (truthy (stored_hash_of e)) = true.
Proof.
  destruct e as [| | | | |d]; try discriminate. intros _.
  cbn [has_field valid_event stored_hash_of]. unfold field_is, get_or.
  destruct (lookup (py "_hash") d); [discriminate|]. auto.
Qed.

Lemma unsigned_inv (log : json) :
  chainable log = true -> unsigned log = true ->
  exists d s l,
    log = JDict d /\
    get_or (py "session_id") (JStr []) d = JStr s /\
    Utf8.encodable s = true /\
    get_or (py "events") (JList []) d = JList l /\
    events_of log = l /\
    forallb valid_event l = true /\
    forallb (fun e => negb (truthy (stored_hash_of e))) l = true /\
    get_or (py "_integrity") (JDict []) d = JDict [] /\
    valid_log log = true.
Proof.
  intros Hc Hu.
  destruct (chainable_inv _ Hc) as (d & s & l & -> & Es & Hs & El & Hl & Hev).
  unfold unsigned in Hu. apply andb_true_iff in Hu as [Hno Hni].
  assert (Eev : events_of (JDict d) = l).
  { cbn [events_of]. destruct Hev as [->|[-> ->]]; reflexivity. }
  rewrite Eev in Hno.
  assert (Hboth : forall e, In e l ->
            valid_event e = true /\ negb (truthy (stored_hash_of e)) = true).
  { intros e He. apply unsigned_event.
    - rewrite forallb_forall in Hl. auto.
    - rewrite forallb_forall in Hno. auto. }
  assert (Hval : forallb valid_event l = true).
  { apply forallb_forall. intros e He. apply Hboth, He. }
  assert (Ei : lookup (py "_integrity") d = None).
  { cbn [has_field] in Hni. destruct (lookup (py "_integrity") d);
      [discriminate|reflexivity]. }
  exists d, s, l. repeat split; try assumption.
  - apply forallb_forall. intros e He. apply Hboth, He.
  - unfold get_or. now rewrite Ei.
  - cbn [valid_log]. unfold field_is, get_or in *. rewrite Ei.
    rewrite !andb_true_r. apply andb_true_iff. split.
    + destruct (lookup (py "session_id") d); [|reflexivity].
      subst. exact Hs.
    + destruct Hev as [->|[-> _]]; [exact Hval|reflexivity].
Qed.

Lemma warnings_no_fail (msgs : list message) :
  forallb is_warn msgs = true -> no_fail msgs = true.
Proof.
  unfold no_fail. apply forallb_impl. intros m. unfold is_warn, is_fail.
  now destruct (level_of m).
Qed.

Lemma firstn_snoc {A} (l : list A) (i : nat) (x : A) :
  nth_error l i = Some x -> firstn (S i) l = firstn i l ++ [x].
Proof.
  revert i. induction l as [|y l IH]; intros [|i] H; try discriminate.
  - injection H as ->. reflexivity.
  - cbn [nth_error] in H. cbn [firstn app]. f_equal.
    exact (IH i H).
Qed.

Lemma forallb_firstn {A} (p : A -> bool) (l : list A) (n : nat) :
  forallb p l = true -> forallb p (firstn n l) = true.
Proof.
  revert n. induction l as [|x l IH]; intros [|n] H; try reflexivity.
  cbn [forallb firstn] in *. apply andb_true_iff in H as [Hx Hl].
  now rewrite Hx, IH.
Qed.

Lemma forallb_nth {A} (p : A -> bool) (l : list A) (n : nat) (x : A) :
  forallb p l = true -> nth_error l n = Some x -> p x = true.
Proof.
  rewrite forallb_forall. intros H Hn. apply H.
  eapply nth_error_In. exact Hn.
Qed.

(** Two tampered events: both are reported, the second one against the
    hash the first one stores; the third event is intact. *)
Example verify_twice_tampered :
  verify_hash_chain twice_tampered_log false =
  Ok (false,
      [fail (EventHashMismatch 0 (JStr (py "session_start")) hash0_alt (JStr hash0));
       fail (EventHashMismatch 1 (JStr (py "paste")) hash1_alt (JStr hash1))]) /\
  verify_process_log twice_tampered_log =
  Ok (false, MismatchAt 0 (JStr (py "session_start")) (firstn 16 hash0_alt)
                        (JStr (firstn 16 hash0))).
Proof. evaluate. Qed.

(** * The anchor *)

Lemma has_field_integrity (d : dict) :
  has_field (py "_integrity") (JDict d) = false ->
  get_or (py "_integrity") (JDict []) d = JDict [].
Proof.
  cbn [has_field]. unfold get_or.
  now destruct (lookup (py "_integrity") d).
Qed.

Lemma head_hash_of_none (d g : dict) :
  get_or (py "_integrity") (JDict []) d = JDict g ->
  head_hash_of (JDict d) = None ->
  get_or (py "head_hash") (JStr []) g = JStr [].
Proof.
  unfold get_or, head_hash_of.
  destruct (lookup (py "_integrity") d) as [v|].
  - intros ->. now intros ->.
  - intros [= <-]. reflexivity.
Qed.

(** C7, amended. On every well-formed log, when [_integrity.head_hash] is
    present, not empty, and differs from the previous hash the walk ends
    on, [verify_hash_chain] returns false and adds the head-hash mismatch to
    the messages of the walk, whatever the events gave, and
    [verify_process_log] returns false too.  When the head hash is empty,
    when [_integrity] has no [head_hash], or when there is no [_integrity],
    the flag of the walk is returned as it is and the only message added is
    the warning that the chain is not anchored. *)
Theorem anchor_mismatch_fails (log : json) (verbose : bool) :
  valid_log log = true ->
  exists flag msgs st,
    vhc_loop verbose (session_id_of log) (events_of log) 0 initial = Ok st /\
    verify_hash_chain log verbose = Ok (flag, msgs) /\
    (forall head,
        head_hash_of log = Some head -> truthy head = true ->
        py_ne head (prev_hash st) = true ->
        flag = false /\
        msgs = messages st ++ [fail (HeadHashMismatch (prev_hash st) head)] /\
        exists detail, verify_process_log log = Ok (false, detail)) /\
    (forall head,
        head_hash_of log = Some head -> truthy head = false ->
        flag = all_ok st /\ msgs = messages st ++ [warn NotAnchored]) /\
    (has_field (py "_integrity") log = false ->
     flag = all_ok st /\ msgs = messages st ++ [warn NotAnchored]) /\
    (head_hash_of log = None ->
     flag = all_ok st /\ msgs = messages st ++ [warn NotAnchored]).
Proof.
  intros Hv.
  destruct (valid_log_inv _ Hv) as (d & s & l & g & -> & Es & Hs & El & Eev & Hl & Eg & Hg).
  destruct (loops_agree verbose s l 0 initial Hs Hl eq_refl)
    as (st & Hloop & _ & _).
  rewrite Eev, (valid_log_session _ _ _ eq_refl Es).
  destruct (check_head_text verbose _ st Hg) as (flag & msgs & new & Hc & _).
  exists flag, msgs, st. split; [exact Hloop|].
  rewrite (verify_hash_chain_valid verbose d s l g st Es El Eg Hloop).
  split; [exact Hc|]. split; [|split; [|split]].
  - intros head Hhead Ht Hne.
    rewrite (head_hash_of_get _ _ _ Eg Hhead) in Hc.
    unfold check_head in Hc. rewrite Ht, Hne in Hc. injection Hc as <- <-.
    split; [reflexivity|]. split; [reflexivity|].
    destruct (verify_process_log_valid verbose d s l g st Es El Eg Hs Hl Hg
                Hloop) as (detail & Hvpl).
    rewrite (head_hash_of_get _ _ _ Eg Hhead), Ht, Hne, andb_false_r in Hvpl.
    eauto.
  - intros head Hhead Ht.
    rewrite (head_hash_of_get _ _ _ Eg Hhead) in Hc.
    unfold check_head in Hc. rewrite Ht in Hc. injection Hc as <- <-. auto.
  - intros Hno. rewrite (has_field_integrity _ Hno) in Eg.
    injection Eg as <-. cbn in Hc. injection Hc as <- <-. auto.
  - intros Hnone. rewrite (head_hash_of_none _ _ Eg Hnone) in Hc.
    cbn in Hc. injection Hc as <- <-. auto.
Qed.

Lemma anchor_mismatch_fails_witness :
  valid_log wrong_anchor_log = true /\
  exists flag msgs st,
    vhc_loop false (session_id_of wrong_anchor_log)
             (events_of wrong_anchor_log) 0 initial = Ok st /\
    verify_hash_chain wrong_anchor_log false = Ok (flag, msgs) /\
    (forall head,
        head_hash_of wrong_anchor_log = Some head -> truthy head = true ->
        py_ne head (prev_hash st) = true ->
        flag = false /\
        msgs = messages st ++ [fail (HeadHashMismatch (prev_hash st) head)] /\
        exists detail, verify_process_log wrong_anchor_log = Ok (false, detail)) /\
    (forall head,
        head_hash_of wrong_anchor_log = Some head -> truthy head = false ->
        flag = all_ok st /\ msgs = messages st ++ [warn NotAnchored]) /\
    (has_field (py "_integrity") wrong_anchor_log = false ->
     flag = all_ok st /\ msgs = messages st ++ [warn NotAnchored]) /\
    (head_hash_of wrong_anchor_log = None ->
     flag = all_ok st /\ msgs = messages st ++ [warn NotAnchored]).
Proof.
  split; [reflexivity|].
  apply (anchor_mismatch_fails wrong_anchor_log false). reflexivity.
Defined.

(** An [_integrity] block without [head_hash], over intact events and over
    an altered one: the chain counts as not anchored, and the verdict is
    the one of the walk. *)
Example headless_anchor_warns :
  valid_log headless_anchor_log = true /\
  has_field (py "_integrity") headless_anchor_log = true /\
  head_hash_of headless_anchor_log = None /\
  verify_hash_chain headless_anchor_log false = Ok (true, [warn NotAnchored]) /\
  verify_process_log headless_anchor_log = Ok (true, LogIntact 3) /\
  verify_hash_chain headless_tampered_log false =
  Ok (false,
      [fail (EventHashMismatch 1 (JStr (py "paste")) hash1_alt (JStr hash1));
       warn NotAnchored]).
Proof. evaluate. Qed.

(** The unrelated head hash over intact events: the mismatch is the only
    message. *)
Example verify_wrong_anchor :
  verify_hash_chain wrong_anchor_log false =
  Ok (false, [fail (HeadHashMismatch (JStr hash2) (JStr hash0))]) /\
  verify_process_log wrong_anchor_log =
  Ok (false, HeadMismatchDetail (JStr (firstn 16 hash2)) (JStr (firstn 16 hash0))).
Proof. evaluate. Qed.

(** C7, as stated, fails: the head hash of [empty_anchor_log] is present (it
    is the empty string) and differs from the previous hash the walk ends
    on, and both verifiers pass the log, the first with the one warning
    that the chain is not anchored. *)
Lemma empty_anchor_passes :
  head_hash_of empty_anchor_log = Some (JStr []) /\
  hash_before empty_anchor_log (length (events_of empty_anchor_log)) =
  Ok (JStr hash2) /\
  py_ne (JStr []) (JStr hash2) = true /\
  verify_hash_chain empty_anchor_log false = Ok (true, [warn NotAnchored]) /\
  verify_process_log empty_anchor_log = Ok (true, LogIntact 3).
Proof. evaluate. Qed.

(** * The sanity checks *)

Lemma strs_eqb_eq (a b : list pystr) : strs_eqb a b = true <-> a = b.
Proof.
  revert b; induction a as [|x a IH]; intros [|y b]; simpl; split;
    try congruence; try reflexivity.
  - intros H. apply andb_true_iff in H as [Hx Hr].
    apply str_eqb_eq in Hx. apply IH in Hr. congruence.
  - intros H. injection H as -> ->. rewrite str_eqb_refl. simpl. now apply IH.
Qed.

(** A list in order is left as it is. *)
Lemma sorted_nondecreasing (l : list pystr) :
  nondecreasing l = true -> sorted l = l.
Proof.
  induction l as [|x l IH]; [reflexivity|].
  intros H. cbn [sorted fold_right]. fold (sorted l).
  destruct l as [|y l]; [reflexivity|].
  cbn [nondecreasing] in H. apply andb_true_iff in H as [Hxy Hl].
  rewrite (IH Hl). cbn [insert_str]. now rewrite Hxy.
Qed.

Lemma insert_str_nondecreasing (x : pystr) (l : list pystr) :
  nondecreasing l = true -> nondecreasing (insert_str x l) = true.
Proof.
  induction l as [|y l IH]; [reflexivity|]. intros H.
  cbn [insert_str]. destruct (str_leb x y) eqn:E.
  - cbn [nondecreasing]. rewrite E. exact H.
  - apply str_leb_total in E.
    destruct l as [|z l].
    + cbn [insert_str nondecreasing]. now rewrite E.
    + cbn [nondecreasing] in H. apply andb_true_iff in H as [Hyz Hl].
      specialize (IH Hl). cbn [insert_str] in *.
      destruct (str_leb x z); cbn [nondecreasing] in *.
      * now rewrite E, IH.
      * now rewrite Hyz, IH.
Qed.

Lemma sorted_is_nondecreasing (l : list pystr) : nondecreasing (sorted l) = true.
Proof.
  induction l as [|x l IH]; [reflexivity|].
  cbn [sorted fold_right]. now apply insert_str_nondecreasing.
Qed.

(** [timestamps != sorted(timestamps)] says that the timestamps are not in
    order. *)
Lemma sorted_check (l : list pystr) :
  strs_eqb l (sorted l) = nondecreasing l.
Proof.
  destruct (nondecreasing l) eqn:E.
  - rewrite (sorted_nondecreasing _ E). now apply strs_eqb_eq.
  - destruct (strs_eqb l (sorted l)) eqn:E'; [|reflexivity].
    apply strs_eqb_eq in E'. rewrite E', sorted_is_nondecreasing in E.
    discriminate.
Qed.

Lemma map_result_timestamps (l : list json) :
  forallb is_dict l = true ->
  map_result (fun e => py_get e (py "timestamp") (JStr [])) l =
  Ok (map timestamp_of l).
Proof.
  induction l as [|e l IH]; [reflexivity|]. cbn [forallb]. intros H.
  apply andb_true_iff in H as [He Hl].
  destruct e; try discriminate. cbn [map_result]. rewrite py_get_dict.
  cbn [bind]. now rewrite (IH Hl).
Qed.

Lemma valid_events_dicts (l : list json) :
  forallb valid_event l = true -> forallb is_dict l = true.
Proof. apply forallb_impl. now intros []. Qed.

Lemma last_is_dict (l : list json) (e : json) :
  is_dict e = true -> forallb is_dict l = true -> is_dict (last l e) = true.
Proof.
  revert e. induction l as [|x l IH]; intros e He Hl; [exact He|].
  cbn [forallb] in Hl. apply andb_true_iff in Hl as [Hx Hl].
  cbn [last]. destruct l; [exact Hx|]. now apply IH.
Qed.

Lemma is_dict_get_type (e : json) :
  is_dict e = true -> py_get e (py "type") JNull = Ok (event_type e).
Proof. now destruct e. Qed.

(** The sanity checks on a list of dicts that is not empty and has text
    timestamps. *)
Lemma sanity_checks_events (verbose : bool) (d : dict) (e0 : json)
    (rest : list json) (ts : list pystr) :
  get_or (py "events") (JList []) d = JList (e0 :: rest) ->
  forallb is_dict (e0 :: rest) = true ->
  as_strs (map timestamp_of (e0 :: rest)) = Some ts ->
  let t0 := event_type e0 in
  let t1 := event_type (last rest e0) in
  sanity_checks verbose (JDict d) =
  Ok (Some
        (if negb (nondecreasing ts)
         then (false, boundary_messages t0 t1 ++ [fail NotChronological])
         else (negb (py_ne t0 (JStr (py "session_start"))) &&
               negb (py_ne t1 (JStr (py "session_end"))),
               boundary_messages t0 t1 ++
               (if verbose then [ok Chronological] else [])))).
Proof.
  intros El Hd Hts. cbv zeta. unfold sanity_checks, boundary_messages.
  rewrite py_get_dict. cbn [bind]. rewrite El.
  cbn [truthy negb py_first py_last bind].
  pose proof Hd as Hd'. cbn [forallb] in Hd'.
  apply andb_true_iff in Hd' as [H0 Hrest].
  rewrite (is_dict_get_type _ H0). cbn [bind].
  destruct (py_ne (event_type e0) (JStr (py "session_start")));
    rewrite (is_dict_get_type _ (last_is_dict _ _ H0 Hrest)); cbn [bind];
    destruct (py_ne (event_type (last rest e0)) (JStr (py "session_end")));
    cbn [py_iter bind]; rewrite (map_result_timestamps _ Hd); cbn [bind];
    rewrite Hts, sorted_check;
    destruct (nondecreasing ts); destruct verbose; reflexivity.
Qed.

(** A failed document makes the run exit with 1. *)
Lemma main_exit_failed (verdicts : list bool) :
  In false verdicts -> main_exit verdicts = 1.
Proof.
  intros Hin. unfold main_exit.
  assert (H : (length (filter (fun b => b) verdicts) < length verdicts)%nat).
  { induction verdicts as [|b l IH]; [destruct Hin|].
    destruct Hin as [->|Hin].
    - cbn. pose proof (filter_length_le (fun b => b) l). lia.
    - specialize (IH Hin). destruct b; cbn; lia. }
  destruct (Nat.eqb_spec (length (filter (fun b => b) verdicts)) (length verdicts));
    [lia|reflexivity].
Qed.

(** [check_document] on a well-formed log, given what the sanity checks
    return. *)
Lemma check_document_valid (schema_ok verbose : bool) (log : json)
    (sanity_ok : bool) (smsgs : list message) :
  valid_log log = true ->
  sanity_checks verbose log = Ok (Some (sanity_ok, smsgs)) ->
  exists chain_ok cmsgs,
    verify_hash_chain log verbose = Ok (chain_ok, cmsgs) /\
    check_document schema_ok verbose log =
    Ok (Some (schema_ok && chain_ok && sanity_ok,
              cmsgs ++
              (if chain_ok then [ok (ChainIntact (length (events_of log)))]
               else []) ++ smsgs)).
Proof.
  intros Hv Hsan.
  destruct (valid_log_inv _ Hv) as (d & s & l & g & -> & Es & Hs & El & Eev & Hl & Eg & Hg).
  destruct (loops_agree verbose s l 0 initial Hs Hl eq_refl)
    as (st & Hloop & _ & _).
  destruct (check_head_text verbose _ st Hg) as (flag & msgs & new & Hc & _).
  rewrite <- (verify_hash_chain_valid verbose d s l g st Es El Eg Hloop) in Hc.
  exists flag, msgs. split; [exact Hc|].
  unfold check_document. rewrite Hc. cbn [bind]. rewrite Hsan, Eev.
  destruct flag; cbn [bind]; [|reflexivity].
  rewrite py_get_dict, El. reflexivity.
Qed.

Lemma last_cons_default {A} (x : A) (l : list A) (d : A) :
  last (x :: l) d = last l x.
Proof.
  revert x d. induction l as [|y l IH]; intros x d; [reflexivity|].
  change (last (x :: y :: l) d) with (last (y :: l) d).
  now rewrite (IH y d), (IH y x).
Qed.

(** C9. On every well-formed log whose timestamps, taken in the order of
    the events, are not non-decreasing, the sanity checks fail with the
    message that the events are not in chronological order, and the
    document fails, whatever the schema validation and the chain
    verification gave; a run with a failed document exits with 1. *)
Theorem unordered_timestamps_fail (log : json) (verbose schema_ok : bool)
    (ts : list pystr) :
  valid_log log = true ->
  as_strs (timestamps_of log) = Some ts ->
  nondecreasing ts = false ->
  exists msgs dmsgs,
    sanity_checks verbose log = Ok (Some (false, msgs)) /\
    In (fail NotChronological) msgs /\
    check_document schema_ok verbose log = Ok (Some (false, dmsgs)) /\
    In (fail NotChronological) dmsgs /\
    (forall verdicts, In false verdicts -> main_exit verdicts = 1).
Proof.
  intros Hv Hts Hnd.
  destruct (valid_log_inv _ Hv) as (d & s & l & g & E & Es & Hs & El & Eev & Hl & Eg & Hg).
  unfold timestamps_of in Hts. rewrite Eev in Hts.
  destruct l as [|e0 rest].
  { cbn in Hts. injection Hts as <-. discriminate. }
  assert (Hsan : sanity_checks verbose log =
                 Ok (Some (false,
                           boundary_messages (event_type e0)
                             (event_type (last rest e0)) ++
                           [fail NotChronological]))).
  { subst log.
    rewrite (sanity_checks_events verbose d e0 rest ts El
               (valid_events_dicts _ Hl) Hts).
    now rewrite Hnd. }
  destruct (check_document_valid schema_ok verbose log _ _ Hv Hsan)
    as (chain_ok & cmsgs & _ & Hdoc).
  do 2 eexists. split; [exact Hsan|]. split.
  { apply in_or_app. right. now left. }
  split.
  { rewrite Hdoc. now rewrite andb_false_r. }
  split; [|exact main_exit_failed].
  apply in_or_app. right. apply in_or_app. right. apply in_or_app. right.
  now left.
Qed.

Lemma unordered_timestamps_fail_witness :
  valid_log unordered_log = true /\
  as_strs (timestamps_of unordered_log) =
  Some [py "2026-01-01T00:00:00Z"; py "2026-01-01T00:02:00Z";
        py "2026-01-01T00:01:00Z"; py "2026-01-01T00:02:00Z"] /\
  exists msgs dmsgs,
    sanity_checks false unordered_log = Ok (Some (false, msgs)) /\
    In (fail NotChronological) msgs /\
    check_document true false unordered_log = Ok (Some (false, dmsgs)) /\
    In (fail NotChronological) dmsgs /\
    (forall verdicts, In false verdicts -> main_exit verdicts = 1).
Proof.
  split; [reflexivity|]. split; [reflexivity|].
  apply (unordered_timestamps_fail unordered_log false true
           [py "2026-01-01T00:00:00Z"; py "2026-01-01T00:02:00Z";
            py "2026-01-01T00:01:00Z"; py "2026-01-01T00:02:00Z"]);
    reflexivity.
Defined.

(** The events out of order in an otherwise clean log: the chain passes
    with its warnings, the order check fails the document. *)
Example check_unordered_log :
  sanity_checks false unordered_log = Ok (Some (false, [fail NotChronological])) /\
  verify_hash_chain unordered_log false =
  Ok (true,
      [warn (EventNoHash 0 (JStr (py "session_start")));
       warn (EventNoHash 1 (JStr (py "session_end")));
       warn (EventNoHash 2 (JStr (py "paste")));
       warn (EventNoHash 3 (JStr (py "session_end")));
       warn NotAnchored]) /\
  check_document true false unordered_log =
  Ok (Some (false,
            [warn (EventNoHash 0 (JStr (py "session_start")));
             warn (EventNoHash 1 (JStr (py "session_end")));
             warn (EventNoHash 2 (JStr (py "paste")));
             warn (EventNoHash 3 (JStr (py "session_end")));
             warn NotAnchored;
             ok (ChainIntact 4);
             fail NotChronological])).
Proof. evaluate. Qed.

(** C4, amended. On every well-formed log with events (and text
    timestamps) whose first event is not a session start or whose last
    event is not a session end, the sanity checks print the boundary
    finding at the level of a warning, never as a failure, and they fail:
    the document is classified failed, whatever the schema validation and
    the chain verification gave. *)
Theorem boundary_violation_fails (log : json) (verbose schema_ok : bool)
    (ts : list pystr) :
  valid_log log = true ->
  has_events log = true ->
  as_strs (timestamps_of log) = Some ts ->
  boundary_violation log = true ->
  exists msgs dmsgs,
    sanity_checks verbose log = Ok (Some (false, msgs)) /\
    (In (warn FirstNotSessionStart) msgs \/ In (warn LastNotSessionEnd) msgs) /\
    (forall m,
        In m msgs ->
        text_of m = FirstNotSessionStart \/ text_of m = LastNotSessionEnd ->
        level_of m = LWarn) /\
    check_document schema_ok verbose log = Ok (Some (false, dmsgs)) /\
    (forall verdicts, In false verdicts -> main_exit verdicts = 1).
Proof.
  intros Hv Hev Hts Hb.
  destruct (valid_log_inv _ Hv) as (d & s & l & g & E & Es & Hs & El & Eev & Hl & Eg & Hg).
  unfold timestamps_of in Hts. unfold has_events in Hev.
  unfold boundary_violation, first_type, last_type in Hb.
  rewrite Eev in Hts, Hev, Hb.
  destruct l as [|e0 rest]; [discriminate|].
  rewrite last_cons_default in Hb.
  pose proof (sanity_checks_events verbose d e0 rest ts El
                (valid_events_dicts _ Hl) Hts) as Hsan.
  cbv zeta in Hsan. rewrite <- E in Hsan.
  set (t0 := event_type e0) in *. set (t1 := event_type (last rest e0)) in *.
  assert (Hflag : negb (py_ne t0 (JStr (py "session_start"))) &&
                  negb (py_ne t1 (JStr (py "session_end"))) = false).
  { apply orb_true_iff in Hb as [-> | ->]; [reflexivity|apply andb_false_r]. }
  assert (Hin : In (warn FirstNotSessionStart) (boundary_messages t0 t1) \/
                In (warn LastNotSessionEnd) (boundary_messages t0 t1)).
  { unfold boundary_messages. apply orb_true_iff in Hb as [-> | ->].
    - left. now left.
    - right. apply in_or_app. right. now left. }
  assert (Hlev : forall m, In m (boundary_messages t0 t1) -> level_of m = LWarn).
  { unfold boundary_messages. intros m Hm. apply in_app_or in Hm.
    destruct Hm as [Hm|Hm];
      [destruct (py_ne t0 _)|destruct (py_ne t1 _)];
      cbn in Hm; try contradiction;
      destruct Hm as [<-|[]]; reflexivity. }
  rewrite Hflag in Hsan.
  assert (exists tail,
             sanity_checks verbose log =
             Ok (Some (false, boundary_messages t0 t1 ++ tail)) /\
             forall m, In m tail ->
                       text_of m <> FirstNotSessionStart /\
                       text_of m <> LastNotSessionEnd) as (tail & Hsan' & Htail).
  { destruct (nondecreasing ts); cbn [negb] in Hsan; eexists;
      (split; [exact Hsan|]).
    - intros m Hm. destruct verbose; [|destruct Hm].
      destruct Hm as [<-|[]]. split; discriminate.
    - intros m [<-|[]]. split; discriminate. }
  destruct (check_document_valid schema_ok verbose log _ _ Hv Hsan')
    as (chain_ok & cmsgs & _ & Hdoc).
  do 2 eexists. split; [exact Hsan'|]. split; [|split; [|split]].
  - destruct Hin as [Hin|Hin]; [left|right]; apply in_or_app; now left.
  - intros m Hm Ht. apply in_app_or in Hm as [Hm|Hm]; [now apply Hlev|].
    destruct (Htail m Hm) as [N1 N2]. destruct Ht; contradiction.
  - rewrite Hdoc. now rewrite andb_false_r.
  - exact main_exit_failed.
Qed.

Lemma boundary_violation_fails_witness :
  valid_log paste_only_log = true /\
  has_events paste_only_log = true /\
  as_strs (timestamps_of paste_only_log) = Some [py "2026-01-01T00:01:00Z"] /\
  boundary_violation paste_only_log = true /\
  exists msgs dmsgs,
    sanity_checks false paste_only_log = Ok (Some (false, msgs)) /\
    (In (warn FirstNotSessionStart) msgs \/ In (warn LastNotSessionEnd) msgs) /\
    (forall m,
        In m msgs ->
        text_of m = FirstNotSessionStart \/ text_of m = LastNotSessionEnd ->
        level_of m = LWarn) /\
    check_document true false paste_only_log = Ok (Some (false, dmsgs)) /\
    (forall verdicts, In false verdicts -> main_exit verdicts = 1).
Proof.
  split; [reflexivity|]. split; [reflexivity|]. split; [reflexivity|].
  split; [reflexivity|].
  apply (boundary_violation_fails paste_only_log false true
           [py "2026-01-01T00:01:00Z"]); reflexivity.
Defined.

(** C4, as stated, fails: [paste_only_log] passes the schema validation
    (taken as passed) and the chain verification, its timestamps are in
    order, the only findings are the two boundary warnings, and the
    document is classified failed: the run exits with 1. *)
Lemma boundary_warning_flips_verdict :
  verify_hash_chain paste_only_log false = Ok (true, []) /\
  sanity_checks false paste_only_log =
  Ok (Some (false, [warn FirstNotSessionStart; warn LastNotSessionEnd])) /\
  check_document true false paste_only_log =
  Ok (Some (false, [ok (ChainIntact 1);
                    warn FirstNotSessionStart; warn LastNotSessionEnd])) /\
  main_exit [false] = 1.
Proof. evaluate. Qed.

(** * One altered event in a chain of three *)

Lemma compute_event_hash_ok_inv (e prev sid : json) (h : pystr) :
  compute_event_hash e prev sid = Ok h ->
  exists d p s bytes,
    e = JDict d /\ prev = JStr p /\ sid = JStr s /\
    Utf8.encodable p = true /\ Utf8.encodable s = true /\
    h = Sha256.hexdigest bytes.
Proof.
  unfold compute_event_hash. intros H.
  destruct e as [| | | | |d]; try discriminate.
  destruct prev as [| | |p| |]; try discriminate.
  destruct sid as [| | |s| |]; try discriminate.
  cbn [py_items str_add bind] in H. unbind H. injection H as <-.
  assert (He : Utf8.encodable
                 ((((Dumps.dumps (JDict (filter not_hash_key d)) ++ py "|") ++ p) ++
                   py "|") ++ s) = true).
  { apply encode_returns. eauto. }
  rewrite !encodable_app in He.
  apply andb_true_iff in He as [He Hs]. apply andb_true_iff in He as [He _].
  apply andb_true_iff in He as [_ Hp].
  exists d, p, s, a. auto 10.
Qed.

Lemma key_hash_type : str_eqb (py "_hash") (py "type") = false.
Proof. reflexivity. Qed.

Lemma event_type_sign (e : dict) (h : pystr) :
  event_type (sign e h) = get_or (py "type") JNull e.
Proof.
  unfold sign. cbn [event_type]. unfold get_or.
  now rewrite (lookup_dict_set_other _ _ _ _ key_hash_type).
Qed.

(** One turn of the loop on a signed event. *)
Lemma vhc_step_signed (verbose : bool) (s : pystr) (i : nat) (e : dict)
    (t h p : pystr) (st : chain_state) :
  prev_hash st = JStr p ->
  compute_event_hash (JDict e) (JStr p) (JStr s) = Ok h ->
  truthy (JStr t) = true ->
  vhc_step verbose (JStr s) i (sign e t) st =
  Ok {| messages :=
          messages st ++
          (if str_eqb t h
           then if verbose
                then [ok (EventHashOk i (get_or (py "type") JNull e)
                                      (JStr (firstn 16 h)))]
                else []
           else [fail (EventHashMismatch i (get_or (py "type") JNull e) h (JStr t))]);
        prev_hash := JStr t;
        all_ok := all_ok st && str_eqb t h |}.
Proof.
  intros Hp Hh Ht.
  assert (Hc : compute_event_hash (sign e t) (prev_hash st) (JStr s) = Ok h).
  { unfold sign. now rewrite compute_event_hash_set_hash, Hp. }
  destruct (vhc_step_returns verbose (JStr s) i _ st _ Hc) as [st' H'].
  rewrite H'. f_equal.
  destruct (vhc_step_ok _ _ _ _ _ _ H') as (d' & h' & new & _ & Hc' & Hq & Hm & Hf & Hnew).
  rewrite Hc in Hc'. injection Hc' as <-.
  unfold event_messages in Hnew. rewrite event_type_sign in Hnew.
  unfold sign in Hq, Hnew. rewrite stored_hash_of_set in Hq, Hnew.
  unfold py_or in Hq. rewrite Ht in Hq, Hnew. cbn [negb] in Hnew.
  unfold py_ne in Hnew. cbn [py_eq] in Hnew.
  destruct st' as [m q f]. cbn [messages prev_hash all_ok] in *.
  subst m q f new.
  destruct (str_eqb t h); cbn [negb]; [destruct verbose|]; cbn;
    now rewrite ?andb_true_r, ?andb_false_r.
Qed.

(** C8, amended. In a chained log of three events whose second event was
    altered (its hash no longer the stored one) with every stored hash left
    as it was, [verify_hash_chain] returns false with one finding, the
    mismatch at event 1; the walk goes on from the stored hash, so event 2
    is intact: it has no finding, or the intact one in verbose mode.  The
    document is classified failed and the run exits with 1. *)
Theorem altered_event_reported_once (s : pystr) (e0 e1 e1' e2 : dict)
    (h0 h1 h2 h1' : pystr) :
  compute_event_hash (JDict e0) (JStr []) (JStr s) = Ok h0 ->
  compute_event_hash (JDict e1) (JStr h0) (JStr s) = Ok h1 ->
  compute_event_hash (JDict e2) (JStr h1) (JStr s) = Ok h2 ->
  compute_event_hash (JDict e1') (JStr h0) (JStr s) = Ok h1' ->
  str_eqb h1 h1' = false ->
  verify_hash_chain (three_event_log s e0 e1 e2 h0 h1 h2) false = Ok (true, []) /\
  verify_hash_chain (three_event_log s e0 e1' e2 h0 h1 h2) false =
  Ok (false,
      [fail (EventHashMismatch 1 (get_or (py "type") JNull e1') h1' (JStr h1))]) /\
  verify_hash_chain (three_event_log s e0 e1' e2 h0 h1 h2) true =
  Ok (false,
      [ok (EventHashOk 0 (get_or (py "type") JNull e0) (JStr (firstn 16 h0)));
       fail (EventHashMismatch 1 (get_or (py "type") JNull e1') h1' (JStr h1));
       ok (EventHashOk 2 (get_or (py "type") JNull e2) (JStr (firstn 16 h2)));
       ok (HeadHashOk (JStr (firstn 16 h2)))]) /\
  (forall schema_ok verbose sanity_ok smsgs,
      sanity_checks verbose (three_event_log s e0 e1' e2 h0 h1 h2) =
      Ok (Some (sanity_ok, smsgs)) ->
      exists dmsgs,
        check_document schema_ok verbose (three_event_log s e0 e1' e2 h0 h1 h2) =
        Ok (Some (false, dmsgs))) /\
  (forall verdicts, In false verdicts -> main_exit verdicts = 1).
Proof.
  intros H0 H1 H2 H1' Hne.
  assert (T0 : truthy (JStr h0) = true).
  { destruct (compute_event_hash_ok_inv _ _ _ _ H0) as (? & ? & ? & b & _ & _ & _ & _ & _ & ->).
    apply hexdigest_truthy. }
  assert (T1 : truthy (JStr h1) = true).
  { destruct (compute_event_hash_ok_inv _ _ _ _ H1) as (? & ? & ? & b & _ & _ & _ & _ & _ & ->).
    apply hexdigest_truthy. }
  assert (T2 : truthy (JStr h2) = true).
  { destruct (compute_event_hash_ok_inv _ _ _ _ H2) as (? & ? & ? & b & _ & _ & _ & _ & _ & ->).
    apply hexdigest_truthy. }
  assert (Hwalk : forall verbose e h,
             compute_event_hash (JDict e) (JStr h0) (JStr s) = Ok h ->
             verify_hash_chain (three_event_log s e0 e e2 h0 h1 h2) verbose =
             check_head verbose (JStr h2)
               {| messages :=
                    (([] ++
                      (if verbose
                       then [ok (EventHashOk 0 (get_or (py "type") JNull e0)
                                             (JStr (firstn 16 h0)))]
                       else [])) ++
                     (if str_eqb h1 h
                      then if verbose
                           then [ok (EventHashOk 1 (get_or (py "type") JNull e)
                                                 (JStr (firstn 16 h)))]
                           else []
                      else [fail (EventHashMismatch 1
                                    (get_or (py "type") JNull e) h (JStr h1))])) ++
                    (if verbose
                     then [ok (EventHashOk 2 (get_or (py "type") JNull e2)
                                           (JStr (firstn 16 h2)))]
                     else []);
                  prev_hash := JStr h2;
                  all_ok := true && true && str_eqb h1 h && true |}).
  { intros verbose e h He. unfold three_event_log.
    match goal with
    | |- verify_hash_chain (JDict ?d) _ = check_head _ _ ?st =>
        apply (verify_hash_chain_valid verbose d s
                 [sign e0 h0; sign e h1; sign e2 h2]
                 [(py "algorithm", JStr (py "SHA-256-CHAIN"));
                  (py "chain_length", JInt (Z.of_nat 3));
                  (py "head_hash", JStr h2);
                  (py "session_id", JStr s);
                  (py "note", JStr integrity_note)]
                 st eq_refl eq_refl eq_refl)
    end.
    cbn [vhc_loop].
    rewrite (vhc_step_signed verbose s 0 e0 h0 h0 [] initial eq_refl H0 T0).
    rewrite str_eqb_refl. cbn [bind].
    erewrite (vhc_step_signed verbose s 1 e h1 h h0);
      [|reflexivity|exact He|exact T1].
    cbn [bind messages all_ok prev_hash initial].
    erewrite (vhc_step_signed verbose s 2 e2 h2 h2 h1);
      [|reflexivity|exact H2|exact T2].
    rewrite str_eqb_refl. reflexivity. }
  assert (Hbad : forall verbose,
             exists msgs,
               verify_hash_chain (three_event_log s e0 e1' e2 h0 h1 h2) verbose =
               Ok (false, msgs)).
  { intros verbose. rewrite (Hwalk verbose e1' h1' H1'), Hne.
    unfold check_head. rewrite T2, py_ne_str_same.
    destruct verbose; cbn; eauto. }
  split; [|split; [|split; [|split]]].
  - rewrite (Hwalk false e1 h1 H1), str_eqb_refl.
    unfold check_head. rewrite T2. cbn [prev_hash].
    now rewrite py_ne_str_same.
  - rewrite (Hwalk false e1' h1' H1'), Hne.
    unfold check_head. rewrite T2. cbn [prev_hash].
    now rewrite py_ne_str_same.
  - rewrite (Hwalk true e1' h1' H1'), Hne.
    unfold check_head. rewrite T2. cbn [prev_hash].
    now rewrite py_ne_str_same.
  - intros schema_ok verbose sanity_ok smsgs Hsan.
    destruct (Hbad verbose) as [msgs Hv].
    unfold check_document. rewrite Hv. cbn [bind]. rewrite Hsan.
    rewrite andb_false_r. cbn [andb]. eexists. reflexivity.
  - exact main_exit_failed.
Qed.

Lemma altered_event_reported_once_witness :
  compute_event_hash (JDict ev_start) (JStr []) (JStr (py "s-1")) = Ok hash0 /\
  compute_event_hash (JDict ev_paste) (JStr hash0) (JStr (py "s-1")) = Ok hash1 /\
  compute_event_hash (JDict ev_end) (JStr hash1) (JStr (py "s-1")) = Ok hash2 /\
  compute_event_hash (JDict ev_paste_alt) (JStr hash0) (JStr (py "s-1")) =
  Ok hash1_alt /\
  str_eqb hash1 hash1_alt = false /\
  verify_hash_chain
    (three_event_log (py "s-1") ev_start ev_paste_alt ev_end hash0 hash1 hash2)
    false =
  Ok (false, [fail (EventHashMismatch 1 (JStr (py "paste")) hash1_alt (JStr hash1))]).
Proof.
  assert (H0 : compute_event_hash (JDict ev_start) (JStr []) (JStr (py "s-1")) = Ok hash0)
    by (vm_compute; reflexivity).
  assert (H1 : compute_event_hash (JDict ev_paste) (JStr hash0) (JStr (py "s-1")) = Ok hash1)
    by (vm_compute; reflexivity).
  assert (H2 : compute_event_hash (JDict ev_end) (JStr hash1) (JStr (py "s-1")) = Ok hash2)
    by (vm_compute; reflexivity).
  assert (H1' : compute_event_hash (JDict ev_paste_alt) (JStr hash0) (JStr (py "s-1")) =
                Ok hash1_alt) by (vm_compute; reflexivity).
  assert (Hne : str_eqb hash1 hash1_alt = false) by reflexivity.
  do 5 (split; [assumption|]).
  exact (proj1 (proj2 (altered_event_reported_once (py "s-1") ev_start ev_paste
                         ev_paste_alt ev_end hash0 hash1 hash2 hash1_alt
                         H0 H1 H2 H1' Hne))).
Defined.

(** C8, as stated, fails: in [tampered_log] (three events properly chained,
    the payload of event 1 altered, the hashes stale) the only finding is
    the mismatch at event 1.  No message is about event 2 in the default
    mode, and in verbose mode event 2 gets the message of an intact event;
    both verifiers return false and the document is classified failed. *)
Lemma tampered_log_single_finding :
  verify_hash_chain tampered_log false =
  Ok (false, [fail (EventHashMismatch 1 (JStr (py "paste")) hash1_alt (JStr hash1))]) /\
  verify_hash_chain tampered_log true =
  Ok (false,
      [ok (EventHashOk 0 (JStr (py "session_start")) (JStr (firstn 16 hash0)));
       fail (EventHashMismatch 1 (JStr (py "paste")) hash1_alt (JStr hash1));
       ok (EventHashOk 2 (JStr (py "session_end")) (JStr (firstn 16 hash2)));
       ok (HeadHashOk (JStr (firstn 16 hash2)))]) /\
  verify_process_log tampered_log =
  Ok (false, MismatchAt 1 (JStr (py "paste")) (firstn 16 hash1_alt)
                        (JStr (firstn 16 hash1))) /\
  check_document true false tampered_log =
  Ok (Some (false,
            [fail (EventHashMismatch 1 (JStr (py "paste")) hash1_alt (JStr hash1))])) /\
  main_exit [false] = 1.
Proof. evaluate. Qed.

(** * Further properties *)

Lemma check_head_ok (verbose : bool) (head : json) (st : chain_state)
    (flag : bool) (msgs : list message) :
  check_head verbose head st = Ok (flag, msgs) ->
  exists new, msgs = messages st ++ new /\ flag = all_ok st && no_fail new.
Proof.
  unfold check_head. intros H.
  destruct (truthy head).
  - destruct (py_ne head (prev_hash st)).
    + injection H as <- <-. eexists. split; [reflexivity|].
      cbn. now rewrite andb_false_r.
    + destruct verbose.
      * unbind H. injection H as <- <-. eexists. split; [reflexivity|].
        cbn. now rewrite andb_true_r.
      * injection H as <- <-. exists [].
        now rewrite app_nil_r, andb_true_r.
  - injection H as <- <-. eexists. split; [reflexivity|].
    cbn. now rewrite andb_true_r.
Qed.

(** X1. Whatever the log, when [verify_hash_chain] returns, its boolean is
    true exactly when none of its messages is a failure. *)
Theorem verify_hash_chain_flag (log : json) (verbose flag : bool)
    (msgs : list message) :
  verify_hash_chain log verbose = Ok (flag, msgs) -> flag = no_fail msgs.
Proof.
  unfold verify_hash_chain. intros H.
  unbind H. unbind H. unbind H. unbind H. unbind H. unbind H.
  destruct (vhc_loop_ok _ _ _ _ _ _ Ha2) as (_ & new0 & Hm0 & Hf0).
  destruct (check_head_ok _ _ _ _ _ H) as (new & Hm & Hf).
  cbn [initial messages all_ok app andb] in Hm0, Hf0.
  rewrite Hf, Hm, Hf0, Hm0. now rewrite no_fail_app.
Qed.

Lemma verify_hash_chain_flag_witness :
  verify_hash_chain wrong_anchor_log false =
  Ok (false, [fail (HeadHashMismatch (JStr hash2) (JStr hash0))]) /\
  false = no_fail [fail (HeadHashMismatch (JStr hash2) (JStr hash0))].
Proof.
  assert (H : verify_hash_chain wrong_anchor_log false =
              Ok (false, [fail (HeadHashMismatch (JStr hash2) (JStr hash0))]))
    by (vm_compute; reflexivity).
  split; [exact H|].
  exact (verify_hash_chain_flag wrong_anchor_log false false _ H).
Defined.

(** The last hash of the loop of [add_hash_chain] is the hash stored in
    the last event, or the starting hash when there is no event. *)
Lemma ahc_loop_last (sid : json) (l l' : list json) (p h : pystr) :
  ahc_loop sid l p = Ok (l', h) ->
  length l' = length l /\
  stored_hash_of (last l' (JDict [(py "_hash", JStr p)])) = JStr h.
Proof.
  revert l' p. induction l as [|e l IH]; intros l' p H; cbn [ahc_loop] in H.
  - injection H as <- <-. split; reflexivity.
  - unbind H. unbind H.
    destruct (ahc_loop sid l a) as [[rest last']|] eqn:E; [|discriminate].
    cbn [bind] in H. injection H as <- <-.
    destruct (IH _ _ E) as [Hlen Hlast].
    split; [cbn [length]; now rewrite Hlen|].
    destruct (compute_event_hash_dict _ _ _ _ Ha) as [d ->].
    cbn [py_setitem] in Ha0. injection Ha0 as <-.
    destruct rest as [|r rest].
    + cbn [ahc_loop last]. destruct l; [|discriminate].
      cbn [ahc_loop] in E. injection E as <-. apply stored_hash_of_set.
    + change (last (JDict (dict_set (py "_hash") (JStr a) d) :: r :: rest)
                   (JDict [(py "_hash", JStr p)]))
        with (last (r :: rest) (JDict [(py "_hash", JStr p)])).
      rewrite last_cons_default. rewrite last_cons_default in Hlast.
      exact Hlast.
Qed.

(** X2. On every log document [add_hash_chain] returns a log with as many
    events, whose [_integrity] block holds the algorithm name, the number
    of events, the session id and, as head hash, the hash stored in the last
    event (the empty string when there is no event). *)
Theorem add_hash_chain_anchor (log : json) :
  chainable log = true ->
  exists log' h,
    add_hash_chain log = Ok log' /\
    length (events_of log') = length (events_of log) /\
    session_id_of log' = session_id_of log /\
    match log' with
    | JDict d' => lookup (py "_integrity") d'
    | _ => None
    end = Some (integrity_block (length (events_of log)) h (session_id_of log)) /\
    stored_hash_of (last (events_of log') (JDict [(py "_hash", JStr [])])) = JStr h.
Proof.
  intros Hc.
  destruct (chainable_inv _ Hc) as (d & s & l & -> & Es & Hs & El & Hl & Hev).
  destruct (ahc_loop_chain s l [] Hs Hl eq_refl)
    as (l' & h & Hloop & _ & Hlen & _ & _ & _).
  destruct (ahc_loop_last _ _ _ _ _ Hloop) as [_ Hlast].
  destruct (@chained_fields d s l l' (length l) h Es Hev
              (@length_nil_inv _ _ l l' Hlen)) as (Es' & El' & Eg' & _).
  assert (Eev : events_of (JDict d) = l).
  { cbn [events_of]. destruct Hev as [->|[-> ->]]; reflexivity. }
  assert (Eev' : events_of (JDict (chained d l' (length l) h (JStr s))) = l').
  { cbn [events_of]. unfold get_or in El'.
    destruct (lookup (py "events") (chained d l' (length l) h (JStr s)));
      [now rewrite El'|now injection El' as <-]. }
  exists (JDict (chained d l' (length l) h (JStr s))), h.
  rewrite (@add_hash_chain_chainable d s l l' h Es El Hloop), Eev, Eev'.
  cbn [session_id_of]. rewrite Es, Es'.
  repeat split; try assumption.
  unfold chained. apply lookup_dict_set_same.
Qed.

Lemma add_hash_chain_anchor_witness :
  chainable plain_log = true /\
  exists log' h,
    add_hash_chain plain_log = Ok log' /\
    length (events_of log') = length (events_of plain_log) /\
    session_id_of log' = session_id_of plain_log /\
    match log' with
    | JDict d' => lookup (py "_integrity") d'
    | _ => None
    end = Some (integrity_block (length (events_of plain_log)) h
                                (session_id_of plain_log)) /\
    stored_hash_of (last (events_of log') (JDict [(py "_hash", JStr [])])) = JStr h.
Proof.
  split; [reflexivity|]. apply (add_hash_chain_anchor plain_log). reflexivity.
Defined.

(** X3. A log with an empty list of events and no anchor: the chain
    verifier returns true with the warning that the chain is not anchored,
    the sanity checks pass with the warning that there are no events, and
    the verdict on the document is the one of the schema validation. *)
Theorem empty_log_warnings (d : dict) (verbose schema_ok : bool) :
  lookup (py "events") d = Some (JList []) ->
  lookup (py "_integrity") d = None ->
  verify_hash_chain (JDict d) verbose = Ok (true, [warn NotAnchored]) /\
  verify_process_log (JDict d) = Ok (true, LogIntact 0) /\
  sanity_checks verbose (JDict d) = Ok (Some (true, [warn NoEvents])) /\
  check_document schema_ok verbose (JDict d) =
  Ok (Some (schema_ok,
            [warn NotAnchored; ok (ChainIntact 0); warn NoEvents])).
Proof.
  intros He Hi.
  assert (Hv : verify_hash_chain (JDict d) verbose = Ok (true, [warn NotAnchored])).
  { unfold verify_hash_chain. rewrite !py_get_dict. unfold get_or.
    rewrite He, Hi. reflexivity. }
  assert (Hs : sanity_checks verbose (JDict d) = Ok (Some (true, [warn NoEvents]))).
  { unfold sanity_checks. rewrite py_get_dict. unfold get_or.
    rewrite He. reflexivity. }
  split; [exact Hv|]. split; [|split; [exact Hs|]].
  - unfold verify_process_log. rewrite !py_get_dict. unfold get_or.
    rewrite He, Hi. reflexivity.
  - unfold check_document. rewrite Hv. cbn [bind].
    rewrite py_get_dict. unfold get_or. rewrite He. cbn [py_len bind length].
    rewrite Hs. cbn. now rewrite !andb_true_r.
Qed.

Lemma empty_log_warnings_witness :
  lookup (py "events") [(py "session_id", JStr (py "s-1")); (py "events", JList [])] =
  Some (JList []) /\
  verify_hash_chain
    (JDict [(py "session_id", JStr (py "s-1")); (py "events", JList [])]) false =
  Ok (true, [warn NotAnchored]).
Proof.
  split; [reflexivity|].
  exact (proj1 (empty_log_warnings
                  [(py "session_id", JStr (py "s-1")); (py "events", JList [])]
                  false true eq_refl eq_refl)).
Defined.

(** * The hashed text *)

(** X4. The previous hash and the session id are joined by a bare ["|"]:
    moving a part of the previous hash behind a bar over to the front of
    the session id does not change the hash of an event. *)
Theorem hash_delimiter_ambiguity (event : json) (a b c : pystr) :
  compute_event_hash event (JStr (a ++ py "|" ++ b)) (JStr c) =
  compute_event_hash event (JStr a) (JStr (b ++ py "|" ++ c)).
Proof.
  unfold compute_event_hash.
  destruct (py_items event) as [items|e]; [|reflexivity].
  cbn [bind str_add]. now rewrite <- !app_assoc.
Qed.

(** * The two modes of [verify_hash_chain] *)

Lemma event_messages_quiet (i : nat) (e : json) (h : pystr) :
  event_messages false i e h =
  filter (fun m => negb (is_ok m)) (event_messages true i e h).
Proof.
  unfold event_messages.
  destruct (negb (truthy (stored_hash_of e))); [reflexivity|].
  destruct (py_ne (stored_hash_of e) (JStr h)); reflexivity.
Qed.

Lemma event_messages_verbose (i : nat) (e : json) (h : pystr) :
  exists m, event_messages true i e h = [m] /\ about_event i m = true.
Proof.
  unfold event_messages.
  destruct (negb (truthy (stored_hash_of e)));
    [|destruct (py_ne (stored_hash_of e) (JStr h))];
    eexists; (split; [reflexivity|]); cbn; apply Nat.eqb_refl.
Qed.

(** A turn of the loop, from the hash of the event. *)
Lemma vhc_step_eq (verbose : bool) (sid : json) (i : nat) (e : json)
    (st : chain_state) (h : pystr) :
  compute_event_hash e (prev_hash st) sid = Ok h ->
  vhc_step verbose sid i e st =
  Ok {| messages := messages st ++ event_messages verbose i e h;
        prev_hash := py_or (stored_hash_of e) (JStr h);
        all_ok := all_ok st && no_fail (event_messages verbose i e h) |}.
Proof.
  intros Hh.
  destruct (vhc_step_returns verbose sid i e st h Hh) as [st' H'].
  rewrite H'. f_equal.
  destruct (vhc_step_ok _ _ _ _ _ _ H') as (d & h' & new & _ & Hh' & Hq & Hm & Hf & Hnew).
  rewrite Hh in Hh'. injection Hh' as <-. subst new.
  destruct st' as [m q f]. cbn [messages prev_hash all_ok] in *. now subst.
Qed.

Lemma no_fail_quiet (msgs : list message) :
  no_fail (filter (fun m => negb (is_ok m)) msgs) = no_fail msgs.
Proof.
  unfold no_fail.
  induction msgs as [|m msgs IH]; [reflexivity|].
  cbn [filter forallb].
  assert (Hm : is_ok m = true -> is_fail m = false)
    by (unfold is_ok, is_fail; destruct (level_of m); congruence).
  destruct (is_ok m); cbn [negb].
  - rewrite (Hm eq_refl). exact IH.
  - cbn [forallb]. now rewrite IH.
Qed.

(** The verbose walk and the quiet one: the same previous hash and flag,
    and the quiet messages are the verbose ones that are not of level ok. *)
Lemma vhc_loop_quiet (sid : json) (l : list json) (i : nat)
    (st st' qt : chain_state) :
  vhc_loop true sid l i st = Ok st' ->
  prev_hash qt = prev_hash st -> all_ok qt = all_ok st ->
  messages qt = filter (fun m => negb (is_ok m)) (messages st) ->
  exists qt',
    vhc_loop false sid l i qt = Ok qt' /\
    prev_hash qt' = prev_hash st' /\ all_ok qt' = all_ok st' /\
    messages qt' = filter (fun m => negb (is_ok m)) (messages st').
Proof.
  revert i st qt. induction l as [|e l IH]; intros i st qt H Hp Hf Hm.
  - cbn in H. injection H as <-. exists qt. cbn. auto.
  - cbn [vhc_loop] in H. unbind H.
    destruct (vhc_step_ok _ _ _ _ _ _ Ha) as (d & h & new & _ & Hh & _).
    rewrite (vhc_step_eq true sid i e st h Hh) in Ha. injection Ha as <-.
    cbn [vhc_loop]. rewrite <- Hp in Hh.
    rewrite (vhc_step_eq false sid i e qt h Hh). cbn [bind].
    eapply IH; [exact H|reflexivity| |]; cbn [all_ok messages].
    + now rewrite Hf, event_messages_quiet, no_fail_quiet.
    + now rewrite Hm, filter_app, event_messages_quiet.
Qed.

(** X5. The verbose mode changes neither the verdict nor the findings:
    when [verify_hash_chain] returns in verbose mode, it returns the same
    boolean in the default mode, with the messages of the verbose mode that
    are not of level ok, in the same order. *)
Theorem verbose_only_adds_ok (log : json) (flag : bool) (msgs : list message) :
  verify_hash_chain log true = Ok (flag, msgs) ->
  verify_hash_chain log false =
  Ok (flag, filter (fun m => negb (is_ok m)) msgs).
Proof.
  unfold verify_hash_chain. intros H.
  unbind H. unbind H. unbind H. unbind H. unbind H. unbind H.
  rewrite Ha, Ha0. cbn [bind]. rewrite Ha1. cbn [bind].
  destruct (vhc_loop_quiet _ _ _ _ _ initial Ha2 eq_refl eq_refl eq_refl)
    as (qt & Hq & Hp & Hf & Hm).
  rewrite Hq. cbn [bind]. rewrite Ha3. cbn [bind]. rewrite Ha4. cbn [bind].
  unfold check_head in *. rewrite Hp, Hf, Hm.
  destruct (truthy a4).
  - destruct (py_ne a4 (prev_hash a2)).
    + injection H as <- <-. rewrite filter_app. cbn. reflexivity.
    + unbind H. injection H as <- <-. rewrite filter_app. cbn.
      now rewrite app_nil_r.
  - injection H as <- <-. rewrite filter_app. reflexivity.
Qed.

Lemma verbose_only_adds_ok_witness :
  verify_hash_chain tampered_log true =
  Ok (false,
      [ok (EventHashOk 0 (JStr (py "session_start")) (JStr (firstn 16 hash0)));
       fail (EventHashMismatch 1 (JStr (py "paste")) hash1_alt (JStr hash1));
       ok (EventHashOk 2 (JStr (py "session_end")) (JStr (firstn 16 hash2)));
       ok (HeadHashOk (JStr (firstn 16 hash2)))]) /\
  verify_hash_chain tampered_log false =
  Ok (false,
      [fail (EventHashMismatch 1 (JStr (py "paste")) hash1_alt (JStr hash1))]).
Proof.
  assert (H : verify_hash_chain tampered_log true =
    Ok (false,
      [ok (EventHashOk 0 (JStr (py "session_start")) (JStr (firstn 16 hash0)));
       fail (EventHashMismatch 1 (JStr (py "paste")) hash1_alt (JStr hash1));
       ok (EventHashOk 2 (JStr (py "session_end")) (JStr (firstn 16 hash2)));
       ok (HeadHashOk (JStr (firstn 16 hash2)))])) by (vm_compute; reflexivity).
  split; [exact H|].
  exact (verbose_only_adds_ok tampered_log false _ H).
Defined.

(** The converse fails outside the shape of a log: with a number as last
    stored hash and as head hash the default mode returns, and the verbose
    mode raises on the slice of the head hash. *)
Example verbose_raises_on_numeric_anchor :
  verify_hash_chain numeric_anchor_log false =
  Ok (false, [fail (EventHashMismatch 0 JNull hash_empty_event (JInt 123))]) /\
  verify_hash_chain numeric_anchor_log true = Raise TypeError.
Proof. evaluate. Qed.

(** The verbose walk adds one message for each event, in their order. *)
Lemma vhc_loop_verbose (sid : json) (l : list json) (i : nat)
    (st st' : chain_state) :
  vhc_loop true sid l i st = Ok st' ->
  exists new,
    messages st' = messages st ++ new /\
    length new = length l /\
    forall k m, nth_error new k = Some m -> about_event (i + k) m = true.
Proof.
  revert i st. induction l as [|e l IH]; intros i st H.
  - cbn in H. injection H as <-. exists []. rewrite app_nil_r.
    repeat split. intros [|k] m; discriminate.
  - cbn [vhc_loop] in H. unbind H.
    destruct (vhc_step_ok _ _ _ _ _ _ Ha) as (d & h & new & _ & Hh & _).
    rewrite (vhc_step_eq true sid i e st h Hh) in Ha. injection Ha as <-.
    destruct (IH _ _ H) as (rest & Hm & Hlen & Hnth).
    destruct (event_messages_verbose i e h) as (m0 & Hm0 & Hab).
    cbn [messages] in Hm. rewrite Hm0 in Hm.
    exists (m0 :: rest). split; [|split].
    + rewrite Hm, <- app_assoc. reflexivity.
    + cbn [length]. now rewrite Hlen.
    + intros [|k] m Hk.
      * injection Hk as <-. now rewrite Nat.add_0_r.
      * rewrite Nat.add_succ_r. exact (Hnth k m Hk).
Qed.

(** The walk returns on the items of a list only. *)
Lemma vhc_items_events (verbose : bool) (log sid events : json)
    (items : list json) (st : chain_state) :
  py_get log (py "events") (JList []) = Ok events ->
  py_iter events = Ok items ->
  vhc_loop verbose sid items 0 initial = Ok st ->
  items = events_of log.
Proof.
  intros Hev Hit Hloop.
  destruct log as [| | | | |d]; try discriminate.
  cbn [py_get] in Hev. injection Hev as <-. cbn [events_of].
  destruct (lookup (py "events") d) as [v|].
  - destruct v as [| | |s|l|d']; try discriminate; cbn [py_iter] in Hit;
      injection Hit as <-.
    + destruct s as [|c s]; [reflexivity|].
      cbn [map vhc_loop] in Hloop. unbind Hloop.
      destruct (vhc_step_ok _ _ _ _ _ _ Ha) as (d0 & _ & _ & He & _).
      discriminate.
    + reflexivity.
    + destruct d' as [|kv d']; [reflexivity|].
      cbn [map vhc_loop] in Hloop. unbind Hloop.
      destruct (vhc_step_ok _ _ _ _ _ _ Ha) as (d0 & _ & _ & He & _).
      discriminate.
  - cbn [py_iter] in Hit. now injection Hit as <-.
Qed.

(** X6. In verbose mode [verify_hash_chain] reports on everything it
    checks: when it returns, its messages are one finding for each event,
    in the order of the events, and then one finding on the anchor. *)
Theorem verbose_reports_each_event (log : json) (flag : bool)
    (msgs : list message) :
  verify_hash_chain log true = Ok (flag, msgs) ->
  exists per_event anchor,
    msgs = per_event ++ [anchor] /\
    length per_event = length (events_of log) /\
    (forall i m, nth_error per_event i = Some m -> about_event i m = true) /\
    about_anchor anchor = true.
Proof.
  unfold verify_hash_chain. intros H.
  unbind H. unbind H. unbind H. unbind H. unbind H. unbind H.
  pose proof (vhc_items_events _ _ _ _ _ _ Ha0 Ha1 Ha2) as Hitems.
  destruct (vhc_loop_verbose _ _ _ _ _ Ha2) as (new & Hm & Hlen & Hnth).
  cbn [messages initial app] in Hm.
  assert (Hhead : exists anchor,
             msgs = messages a2 ++ [anchor] /\ about_anchor anchor = true).
  { unfold check_head in H. destruct (truthy a4).
    - destruct (py_ne a4 (prev_hash a2)).
      + injection H as <- <-. eexists. split; reflexivity.
      + unbind H. injection H as <- <-. eexists. split; reflexivity.
    - injection H as <- <-. eexists. split; reflexivity. }
  destruct Hhead as (anchor & Hmsgs & Hanchor).
  exists new, anchor. rewrite Hmsgs, Hm, Hlen, Hitems. auto.
Qed.

Lemma verbose_reports_each_event_witness :
  exists per_event anchor,
    [ok (EventHashOk 0 (JStr (py "session_start")) (JStr (firstn 16 hash0)));
     fail (EventHashMismatch 1 (JStr (py "paste")) hash1_alt (JStr hash1));
     ok (EventHashOk 2 (JStr (py "session_end")) (JStr (firstn 16 hash2)));
     ok (HeadHashOk (JStr (firstn 16 hash2)))] = per_event ++ [anchor] /\
    length per_event = length (events_of tampered_log) /\
    (forall i m, nth_error per_event i = Some m -> about_event i m = true) /\
    about_anchor anchor = true.
Proof.
  apply (verbose_reports_each_event tampered_log false).
  vm_compute; reflexivity.
Defined.

(** * What [verify_process_log] reports *)

Lemma py_get_hash (e : json) (v : json) :
  py_get e (py "_hash") (JStr []) = Ok v -> v = stored_hash_of e.
Proof. destruct e; try discriminate. cbn. now intros [= <-]. Qed.

Lemma py_get_type (e : json) (v : json) :
  py_get e (py "type") JNull = Ok v -> v = event_type e.
Proof. destruct e; try discriminate. cbn. now intros [= <-]. Qed.

Lemma mismatch_at_cons (sid : json) (e0 : json) (l : list json) (prev : json)
    (h0 : pystr) (j : nat) (e : json) (h : pystr) :
  compute_event_hash e0 prev sid = Ok h0 ->
  mismatch_at sid (e0 :: l) prev (S j) e h <->
  mismatch_at sid l (py_or (stored_hash_of e0) (JStr h0)) j e h.
Proof.
  intros H0. unfold mismatch_at. cbn [nth_error firstn running_hash].
  rewrite H0. cbn [bind]. reflexivity.
Qed.

(** The early return of the loop: at the first event whose stored hash is
    not the expected one. *)
Lemma vpl_loop_mismatch (sid : json) (l : list json) (i0 : nat) (prev : json)
    (d : detail) :
  vpl_loop sid l i0 prev = Ok (inl d) ->
  exists j e h got,
    d = MismatchAt (i0 + j) (event_type e) (firstn 16 h) got /\
    slice16 (stored_hash_of e) = Ok got /\
    mismatch_at sid l prev j e h /\
    forall k e' h', (k < j)%nat -> ~ mismatch_at sid l prev k e' h'.
Proof.
  revert i0 prev d.
  induction l as [|e0 l IH]; intros i0 prev d H; [discriminate|].
  cbn [vpl_loop] in H. unbind H. unbind H.
  apply py_get_hash in Ha. subst a.
  destruct (truthy (stored_hash_of e0) && py_ne (stored_hash_of e0) (JStr a0)) eqn:C.
  - unbind H. unbind H. injection H as <-. apply py_get_type in Ha. subst a.
    apply andb_true_iff in C as [C1 C2].
    exists 0%nat, e0, a0, a1. rewrite Nat.add_0_r.
    split; [reflexivity|]. split; [exact Ha1|]. split.
    + split; [reflexivity|]. split; [|split; assumption].
      exists prev. split; [reflexivity|exact Ha0].
    + intros k e' h' Hk. lia.
  - destruct (IH _ _ _ H) as (j & e & h & got & Hd & Hs & Hm & Hfirst).
    exists (S j), e, h, got. rewrite Nat.add_succ_r.
    split; [exact Hd|]. split; [exact Hs|]. split.
    + now apply (mismatch_at_cons sid e0 l prev a0 j e h Ha0).
    + intros [|k] e' h' Hk Hn.
      * destruct Hn as (He & (q & Hq & Hh) & T1 & T2).
        cbn in He, Hq. injection He as <-. injection Hq as <-.
        rewrite Ha0 in Hh. injection Hh as <-.
        rewrite T1, T2 in C. discriminate.
      * apply (mismatch_at_cons sid e0 l prev a0 k e' h' Ha0) in Hn.
        apply (Hfirst k e' h'); [lia|exact Hn].
Qed.

(** The loop runs to its end: no event stores a hash that is not the
    expected one. *)
Lemma vpl_loop_clean (sid : json) (l : list json) (i0 : nat) (prev q : json) :
  vpl_loop sid l i0 prev = Ok (inr q) ->
  running_hash sid l prev = Ok q /\
  forall k e' h', ~ mismatch_at sid l prev k e' h'.
Proof.
  revert i0 prev. induction l as [|e0 l IH]; intros i0 prev H.
  - cbn in H. injection H as <-. split; [reflexivity|].
    intros [|k] e' h' (He & _); discriminate.
  - cbn [vpl_loop] in H. unbind H. unbind H.
    apply py_get_hash in Ha. subst a.
    destruct (truthy (stored_hash_of e0) && py_ne (stored_hash_of e0) (JStr a0)) eqn:C.
    { unbind H. unbind H. discriminate. }
    destruct (IH _ _ H) as (Hq & Hclean). split.
    + cbn [running_hash]. rewrite Ha0. exact Hq.
    + intros [|k] e' h' Hn.
      * destruct Hn as (He & (q' & Hq' & Hh) & T1 & T2).
        cbn in He, Hq'. injection He as <-. injection Hq' as <-.
        rewrite Ha0 in Hh. injection Hh as <-.
        rewrite T1, T2 in C. discriminate.
      * apply (mismatch_at_cons sid e0 l prev a0 k e' h' Ha0) in Hn.
        exact (Hclean k e' h' Hn).
Qed.

(** The loop of [verify_process_log] returns on the items of a list only. *)
Lemma vpl_items_events (log sid events : json) (items : list json)
    (r : detail + json) :
  py_get log (py "events") (JList []) = Ok events ->
  py_iter events = Ok items ->
  vpl_loop sid items 0 (JStr []) = Ok r ->
  items = events_of log /\ py_len events = Ok (length items).
Proof.
  intros Hev Hit Hloop.
  destruct log as [| | | | |d]; try discriminate.
  cbn [py_get] in Hev. injection Hev as <-. cbn [events_of].
  destruct (lookup (py "events") d) as [v|].
  - destruct v as [| | |s|l|d']; try discriminate; cbn [py_iter] in Hit;
      injection Hit as <-.
    + destruct s as [|c s]; [split; reflexivity|]. discriminate.
    + split; reflexivity.
    + destruct d' as [|kv d']; [split; reflexivity|]. discriminate.
  - cbn [py_iter] in Hit. injection Hit as <-. split; reflexivity.
Qed.

Lemma tampered_mismatch (log : json) (i : nat) (e : json) (h : pystr) :
  tampered log i e h <->
  mismatch_at (session_id_of log) (events_of log) (JStr []) i e h.
Proof. reflexivity. Qed.

Lemma py_get_session (log sid : json) :
  py_get log (py "session_id") (JStr []) = Ok sid -> sid = session_id_of log.
Proof. destruct log; try discriminate. cbn. now intros [= <-]. Qed.

(** X7. [verify_process_log] points at the first tampered event: when it
    returns a mismatch at event [i], event [i] stores a hash that is not
    its expected hash, no event before it does, and the detail shows the
    type of the event and the first 16 characters of both hashes. *)
Theorem first_mismatch_reported (log : json) (i : nat) (ty : json)
    (expected16 : pystr) (got16 : json) :
  verify_process_log log = Ok (false, MismatchAt i ty expected16 got16) ->
  exists e h,
    tampered log i e h /\
    ty = event_type e /\
    expected16 = firstn 16 h /\
    slice16 (stored_hash_of e) = Ok got16 /\
    forall j e' h', (j < i)%nat -> ~ tampered log j e' h'.
Proof.
  unfold verify_process_log. intros H.
  unbind H. unbind H. unbind H. unbind H.
  destruct (vpl_items_events _ _ _ _ _ Ha0 Ha1 Ha2) as [Hitems _].
  apply py_get_session in Ha. subst a a1.
  destruct a2 as [d|q].
  - injection H as ->.
    destruct (vpl_loop_mismatch _ _ _ _ _ Ha2) as (j & e & h & got & Hd & Hs & Hm & Hfirst).
    cbn [Nat.add] in Hd. injection Hd as -> -> -> ->.
    exists e, h. split; [exact Hm|]. repeat (split; [reflexivity|]).
    split; [exact Hs|]. exact Hfirst.
  - unbind H. unbind H.
    destruct (truthy a1 && py_ne a1 q).
    + unbind H. unbind H. discriminate.
    + unbind H. discriminate.
Qed.

Lemma first_mismatch_reported_witness :
  exists e h,
    tampered twice_tampered_log 0 e h /\
    JStr (py "session_start") = event_type e /\
    firstn 16 hash0_alt = firstn 16 h /\
    slice16 (stored_hash_of e) = Ok (JStr (firstn 16 hash0)) /\
    forall j e' h', (j < 0)%nat -> ~ tampered twice_tampered_log j e' h'.
Proof.
  apply (first_mismatch_reported twice_tampered_log 0).
  vm_compute; reflexivity.
Defined.

(** X8. When [verify_process_log] returns true, no event of the log is
    tampered, and the detail counts the events of the log. *)
Theorem intact_means_no_tampered_event (log : json) (d : detail) :
  verify_process_log log = Ok (true, d) ->
  d = LogIntact (length (events_of log)) /\
  forall i e h, ~ tampered log i e h.
Proof.
  unfold verify_process_log. intros H.
  unbind H. unbind H. unbind H. unbind H.
  destruct (vpl_items_events _ _ _ _ _ Ha0 Ha1 Ha2) as [Hitems Hlen].
  apply py_get_session in Ha. subst a a1.
  destruct a2 as [d'|q]; [discriminate|].
  unbind H. unbind H.
  destruct (truthy a1 && py_ne a1 q).
  - unbind H. unbind H. discriminate.
  - rewrite Hlen in H. cbn [bind] in H. injection H as <-.
    split; [reflexivity|].
    exact (proj2 (vpl_loop_clean _ _ _ _ _ Ha2)).
Qed.

Lemma intact_means_no_tampered_event_witness :
  LogIntact 3 = LogIntact (length (events_of chained_log)) /\
  forall i e h, ~ tampered chained_log i e h.
Proof.
  apply (intact_means_no_tampered_event chained_log).
  vm_compute; reflexivity.
Defined.

(** * Chained logs *)

Lemma compute_event_hash_truthy (e prev sid : json) (h : pystr) :
  compute_event_hash e prev sid = Ok h -> truthy (JStr h) = true.
Proof.
  intros H.
  destruct (compute_event_hash_ok_inv _ _ _ _ H) as (d & p & s & bytes & _ & _ & _ & _ & _ & ->).
  apply hexdigest_truthy.
Qed.

(** [add_hash_chain] chains the events, and changes only the hash they
    store. *)
Lemma ahc_loop_chained (sid : json) (l l' : list json) (p h : pystr) :
  ahc_loop sid l p = Ok (l', h) ->
  chain sid p l' h /\
  Forall2 (fun e e' => payload_of e' = payload_of e /\
                       event_type e' = event_type e /\
                       timestamp_of e' = timestamp_of e /\
                       is_dict e = true /\ is_dict e' = true) l l'.
Proof.
  revert l' p. induction l as [|e l IH]; intros l' p H.
  - cbn in H. injection H as <- <-. split; constructor.
  - cbn [ahc_loop] in H. unbind H. unbind H. unbind H.
    destruct a1 as [rest q]. injection H as <- <-.
    destruct (compute_event_hash_dict _ _ _ _ Ha) as [d ->].
    cbn [py_setitem] in Ha0. injection Ha0 as <-.
    destruct (IH _ _ Ha1) as [Hc Hf]. split.
    + apply chain_cons with (h := a); [| |exact Hc].
      * now rewrite compute_event_hash_set_hash.
      * unfold get_or. now rewrite lookup_dict_set_same.
    + constructor; [|exact Hf]. cbn [payload_of event_type timestamp_of is_dict].
      rewrite filter_dict_set_hash. unfold get_or.
      rewrite !lookup_dict_set_other by reflexivity. auto 6.
Qed.

Lemma chain_app (sid : json) (p : pystr) (l1 l2 : list json) (q : pystr) :
  chain sid p (l1 ++ l2) q ->
  exists m, chain sid p l1 m /\ chain sid m l2 q.
Proof.
  revert p. induction l1 as [|e l1 IH]; intros p H.
  - exists p. split; [constructor|exact H].
  - cbn [app] in H. inversion H as [|p' d h l' q' Hh Hs Hc]; subst.
    destruct (IH _ Hc) as (m & H1 & H2).
    exists m. split; [|exact H2]. now apply chain_cons with (h := h).
Qed.

(** The hash a chained run ends on: the one its last event stores. *)
Lemma chain_last (sid : json) (p : pystr) (l : list json) (q : pystr) :
  chain sid p l q ->
  stored_hash_of (last l (JDict [(py "_hash", JStr p)])) = JStr q.
Proof.
  induction 1 as [p|p d h l q Hh Hs Hc IH]; [reflexivity|].
  destruct l as [|e l].
  - inversion Hc; subst. exact Hs.
  - rewrite (last_cons_default e l) in IH.
    rewrite (last_cons_default (JDict d) (e :: l)).
    now rewrite (last_cons_default e l).
Qed.

Lemma chain_truthy (sid : json) (p : pystr) (l : list json) (q : pystr) :
  chain sid p l q -> l <> [] -> truthy (JStr q) = true.
Proof.
  induction 1 as [p|p d h l q Hh Hs Hc IH]; intros Hl; [congruence|].
  destruct l as [|e l].
  - inversion Hc; subst. exact (compute_event_hash_truthy _ _ _ _ Hh).
  - apply IH. discriminate.
Qed.

(** In the default mode the walk over a chained run adds no message and
    keeps the flag. *)
Lemma chain_quiet (sid : json) (p : pystr) (l : list json) (q : pystr)
    (i : nat) (st : chain_state) :
  chain sid p l q -> prev_hash st = JStr p ->
  vhc_loop false sid l i st =
  Ok {| messages := messages st; prev_hash := JStr q; all_ok := all_ok st |}.
Proof.
  intros H. revert i st.
  induction H as [p|p d h l q Hh Hs Hc IH]; intros i st Hp.
  - cbn. rewrite <- Hp. now destruct st.
  - cbn [vhc_loop]. rewrite <- Hp in Hh.
    rewrite (vhc_step_eq false sid i (JDict d) st h Hh). cbn [bind].
    unfold event_messages. cbn [stored_hash_of]. rewrite Hs.
    rewrite (compute_event_hash_truthy _ _ _ _ Hh), py_ne_str_same.
    cbn [negb]. rewrite IH.
    + cbn [messages all_ok no_fail forallb]. now rewrite app_nil_r, andb_true_r.
    + cbn [prev_hash]. unfold py_or.
      now rewrite (compute_event_hash_truthy _ _ _ _ Hh).
Qed.

Lemma chain_running_hash (sid : json) (p : pystr) (l : list json) (q : pystr) :
  chain sid p l q -> running_hash sid l (JStr p) = Ok (JStr q).
Proof.
  intros H.
  pose proof (chain_quiet sid p l q 0
                {| messages := []; prev_hash := JStr p; all_ok := true |}
                H eq_refl) as Hq.
  exact (proj1 (vhc_loop_ok _ _ _ _ _ _ Hq)).
Qed.

(** What [add_hash_chain] returns, when it returns: the log with its events
    chained in place and the anchor on their last hash. *)
Lemma add_hash_chain_inv (log log' : json) :
  add_hash_chain log = Ok log' ->
  exists d l' h,
    log = JDict d /\
    ahc_loop (session_id_of log) (events_of log) [] = Ok (l', h) /\
    log' = JDict (chained d l' (length (events_of log)) h (session_id_of log)) /\
    session_id_of log' = session_id_of log /\
    events_of log' = l' /\
    py_iter (get_or (py "events") (JList []) (chained d l' (length (events_of log)) h (session_id_of log))) = Ok l'.
Proof.
  unfold add_hash_chain. intros H.
  unbind H. unbind H. unbind H. unbind H. destruct a2 as [l' h].
  unbind H. unbind H.
  destruct log as [| | | | |d]; try discriminate.
  cbn [py_get] in Ha, Ha0. injection Ha as <-. injection Ha0 as <-.
  cbn [py_items] in Ha4. injection Ha4 as <-.
  cbn [py_setitem] in H. injection H as <-.
  assert (Hitems : a1 = events_of (JDict d) /\ a2 = length a1 /\
                   events_of (JDict (store_events d l')) = l' /\
                   py_iter (get_or (py "events") (JList []) (store_events d l')) = Ok l').
  { cbn [events_of]. unfold store_events, get_or.
    destruct (lookup (py "events") d) as [v|] eqn:E.
    - destruct v as [| | |s|l|d']; try discriminate; cbn [py_iter] in Ha1;
        injection Ha1 as <-; cbn [py_len] in Ha3; injection Ha3 as <-.
      + destruct s as [|c s]; [|discriminate].
        cbn in Ha2. injection Ha2 as <- <-. rewrite E. auto.
      + rewrite lookup_dict_set_same. auto.
      + destruct d' as [|kv d']; [|discriminate].
        cbn in Ha2. injection Ha2 as <- <-. rewrite E. auto.
    - cbn [py_iter] in Ha1. injection Ha1 as <-.
      cbn in Ha2. injection Ha2 as <- <-. cbn in Ha3. injection Ha3 as <-.
      rewrite E. auto. }
  destruct Hitems as (-> & -> & Hev' & Hiter).
  exists d, l', h. cbn [session_id_of]. unfold chained.
  split; [reflexivity|]. split; [exact Ha2|]. split; [reflexivity|].
  split; [|split].
  - unfold get_or. rewrite lookup_dict_set_other by reflexivity.
    unfold store_events. destruct (lookup (py "events") d) as [[| | | | |]|];
      try reflexivity.
    now rewrite lookup_dict_set_other by reflexivity.
  - cbn [events_of] in *. now rewrite lookup_dict_set_other by reflexivity.
  - unfold get_or in *. now rewrite lookup_dict_set_other by reflexivity.
Qed.

(** [verify_hash_chain] on a dict whose anchor is a dict. *)
Lemma verify_hash_chain_dict (verbose : bool) (d g : dict) (items : list json)
    (st : chain_state) :
  py_iter (get_or (py "events") (JList []) d) = Ok items ->
  get_or (py "_integrity") (JDict []) d = JDict g ->
  vhc_loop verbose (get_or (py "session_id") (JStr []) d) items 0 initial = Ok st ->
  verify_hash_chain (JDict d) verbose =
  check_head verbose (get_or (py "head_hash") (JStr []) g) st.
Proof.
  intros Hit Hg Hloop. unfold verify_hash_chain.
  rewrite !py_get_dict. cbn [bind]. rewrite Hit. cbn [bind].
  rewrite Hloop. cbn [bind]. rewrite Hg. reflexivity.
Qed.

Lemma chained_integrity (d : dict) (l' : list json) (n : nat) (h : pystr)
    (sid : json) :
  get_or (py "_integrity") (JDict []) (chained d l' n h sid) =
  integrity_block n h sid.
Proof. unfold chained, get_or. now rewrite lookup_dict_set_same. Qed.

Lemma head_hash_block (n : nat) (h : pystr) (sid : json) (g : dict) :
  integrity_block n h sid = JDict g ->
  get_or (py "head_hash") (JStr []) g = JStr h.
Proof. now intros [= <-]. Qed.

(** In either mode the walk over a chained run keeps the flag. *)
Lemma chain_intact (verbose : bool) (sid : json) (p : pystr) (l : list json)
    (q : pystr) (i : nat) (st : chain_state) :
  chain sid p l q -> prev_hash st = JStr p ->
  exists st',
    vhc_loop verbose sid l i st = Ok st' /\
    prev_hash st' = JStr q /\ all_ok st' = all_ok st.
Proof.
  intros H. revert i st.
  induction H as [p|p d h l q Hh Hs Hc IH]; intros i st Hp.
  - exists st. cbn. auto.
  - cbn [vhc_loop]. rewrite <- Hp in Hh.
    rewrite (vhc_step_eq verbose sid i (JDict d) st h Hh). cbn [bind].
    unfold event_messages. cbn [stored_hash_of]. rewrite Hs.
    rewrite (compute_event_hash_truthy _ _ _ _ Hh), py_ne_str_same.
    cbn [negb].
    match goal with |- exists st', vhc_loop _ _ _ _ ?s = _ /\ _ =>
      destruct (IH (S i) s) as (st' & Hl & Hq & Hf)
    end.
    + cbn [prev_hash]. unfold py_or.
      now rewrite (compute_event_hash_truthy _ _ _ _ Hh).
    + exists st'. split; [exact Hl|]. split; [exact Hq|].
      rewrite Hf. cbn [all_ok]. destruct verbose; cbn; apply andb_true_r.
Qed.

(** Whenever [add_hash_chain] returns, [verify_hash_chain] returns true on
    its result, in either mode. *)
Lemma chained_log_intact (verbose : bool) (log log' : json) :
  add_hash_chain log = Ok log' ->
  exists msgs, verify_hash_chain log' verbose = Ok (true, msgs).
Proof.
  intros H.
  destruct (add_hash_chain_inv _ _ H) as (d & l' & h & -> & Hloop & -> & Hsid & Hev & Hit).
  destruct (ahc_loop_chained _ _ _ _ _ Hloop) as [Hc Hf].
  destruct (chain_intact verbose _ _ _ _ 0 initial Hc eq_refl) as (st & Hq & Hp & Hok).
  rewrite <- Hsid in Hq. cbn [session_id_of] in Hq.
  rewrite (verify_hash_chain_dict verbose _ _ _ _ Hit (chained_integrity _ _ _ _ _) Hq).
  unfold check_head.
  rewrite (head_hash_block _ h _ _ eq_refl), Hp, Hok, py_ne_str_same.
  cbn [all_ok initial slice16 bind].
  destruct (truthy (JStr h)); [destruct verbose|]; eauto.
Qed.

(** X9. The log [add_hash_chain] returns is verified without a word:
    whenever [add_hash_chain] returns, [verify_hash_chain] returns true on
    its result, with no message in the default mode when the log has
    events, and the one warning that the chain is not anchored when it has
    none (the head hash written is then the empty string). *)
Theorem chained_log_verifies_silently (log log' : json) :
  add_hash_chain log = Ok log' ->
  verify_hash_chain log' false =
  Ok (true, match events_of log with
            | [] => [warn NotAnchored]
            | _ :: _ => []
            end).
Proof.
  intros H.
  destruct (add_hash_chain_inv _ _ H) as (d & l' & h & -> & Hloop & -> & Hsid & Hev & Hit).
  destruct (ahc_loop_chained _ _ _ _ _ Hloop) as [Hc Hf].
  pose proof (chain_quiet _ _ _ _ 0 initial Hc eq_refl) as Hq.
  rewrite <- Hsid in Hq. cbn [session_id_of] in Hq.
  rewrite (verify_hash_chain_dict false _ _ _ _ Hit (chained_integrity _ _ _ _ _) Hq).
  unfold check_head.
  rewrite (head_hash_block _ h _ _ eq_refl).
  cbn [prev_hash messages all_ok initial app].
  destruct (events_of (JDict d)) as [|e l] eqn:El.
  - cbn in Hloop. injection Hloop as <- <-. reflexivity.
  - assert (Hne : l' <> []).
    { inversion Hf; discriminate. }
    rewrite (chain_truthy _ _ _ _ Hc Hne), py_ne_str_same. reflexivity.
Qed.

Lemma chained_log_verifies_silently_witness :
  verify_hash_chain chained_log false = Ok (true, []).
Proof.
  apply (chained_log_verifies_silently plain_log chained_log).
  vm_compute; reflexivity.
Defined.

(** * Altered and cut chains *)

Lemma get_or_set_other (k k' : pystr) (v default : json) (d : dict) :
  str_eqb k k' = false ->
  get_or k' default (dict_set k v d) = get_or k' default d.
Proof. intros H. unfold get_or. now rewrite lookup_dict_set_other. Qed.

Lemma get_or_set_same (k : pystr) (v default : json) (d : dict) :
  get_or k default (dict_set k v d) = v.
Proof. unfold get_or. now rewrite lookup_dict_set_same. Qed.

Lemma firstn_length_app {A} (l1 l2 : list A) :
  firstn (length l1) (l1 ++ l2) = l1.
Proof. induction l1 as [|x l1 IH]; [reflexivity|]. cbn. now rewrite IH. Qed.

(** The log [add_hash_chain] returns: a dict with the session id of the
    log, a chained list of events and the anchor on its last hash. *)
Lemma add_hash_chain_shape (log log' : json) :
  add_hash_chain log = Ok log' ->
  exists d' h,
    log' = JDict d' /\
    chain (session_id_of log') [] (events_of log') h /\
    get_or (py "session_id") (JStr []) d' = session_id_of log' /\
    get_or (py "_integrity") (JDict []) d' =
    integrity_block (length (events_of log)) h (session_id_of log) /\
    py_iter (get_or (py "events") (JList []) d') = Ok (events_of log') /\
    Forall2 (fun e e' => payload_of e' = payload_of e /\
                         event_type e' = event_type e /\
                         timestamp_of e' = timestamp_of e /\
                         is_dict e = true /\ is_dict e' = true)
            (events_of log) (events_of log').
Proof.
  intros H.
  destruct (add_hash_chain_inv _ _ H) as (d & l' & h & -> & Hloop & -> & Hsid & Hev & Hit).
  destruct (ahc_loop_chained _ _ _ _ _ Hloop) as [Hc Hf].
  exists (chained d l' (length (events_of (JDict d))) h (session_id_of (JDict d))), h.
  rewrite Hsid, Hev, chained_integrity. auto 7.
Qed.

(** X10. An altered event is found where it is.  In a log chained by
    [add_hash_chain], replace one event by another one that keeps the stored
    hash of the event replaced; when the expected hash of the new event is
    not that stored hash, [verify_hash_chain] returns false with one
    message, the mismatch at the position of the event: the events after it
    and the anchor are found intact, since the walk goes on from the stored
    hash. *)
Theorem altered_event_detected (log log' : json) (pre post : list json)
    (old : json) (e_alt : dict) (prev : json) (h_alt : pystr) :
  add_hash_chain log = Ok log' ->
  events_of log' = pre ++ old :: post ->
  hash_before log' (length pre) = Ok prev ->
  compute_event_hash (JDict e_alt) prev (session_id_of log') = Ok h_alt ->
  py_ne (stored_hash_of old) (JStr h_alt) = true ->
  verify_hash_chain (with_events (pre ++ resign e_alt old :: post) log') false =
  Ok (false,
      [fail (EventHashMismatch (length pre) (event_type (JDict e_alt)) h_alt
                               (stored_hash_of old))]).
Proof.
  intros Hadd Hev Hprev Hh Hne.
  destruct (add_hash_chain_shape _ _ Hadd) as (d' & h & -> & Hc & Hsid & Hg & Hit & Hf).
  rewrite Hev in Hc.
  destruct (chain_app _ _ _ _ _ Hc) as (m & Hpre & Hrest).
  inversion Hrest as [|p dold ho l q Hho Hso Hpost]; subst.
  unfold hash_before in Hprev.
  rewrite Hev, firstn_length_app, (chain_running_hash _ _ _ _ Hpre) in Hprev.
  injection Hprev as <-.
  cbn [with_events].
  assert (Hloop :
    vhc_loop false (session_id_of (JDict d'))
      (pre ++ resign e_alt (JDict dold) :: post) 0 initial =
    Ok {| messages :=
            [fail (EventHashMismatch (length pre) (event_type (JDict e_alt))
                                     h_alt (JStr ho))];
          prev_hash := JStr h;
          all_ok := false |}).
  { rewrite vhc_loop_app, (chain_quiet _ _ _ _ 0 initial Hpre eq_refl).
    cbn [bind vhc_loop Nat.add].
    assert (Hr : compute_event_hash (resign e_alt (JDict dold))
                   (JStr m) (session_id_of (JDict d')) = Ok h_alt).
    { unfold resign. now rewrite compute_event_hash_set_hash. }
    rewrite (vhc_step_eq false _ _ _
               {| messages := messages initial; prev_hash := JStr m;
                  all_ok := all_ok initial |} h_alt Hr). cbn [bind].
    assert (Hst : stored_hash_of (resign e_alt (JDict dold)) = JStr ho).
    { unfold resign. rewrite stored_hash_of_set. exact Hso. }
    assert (Hty : event_type (resign e_alt (JDict dold)) = event_type (JDict e_alt)).
    { unfold resign. cbn [event_type]. now apply get_or_set_other. }
    cbn [stored_hash_of] in Hne. rewrite Hso in Hne.
    unfold event_messages. rewrite Hst, Hty, Hne.
    rewrite (compute_event_hash_truthy _ _ _ _ Hho). cbn [negb].
    rewrite (chain_quiet _ ho post h); [reflexivity|exact Hpost|].
    cbn [prev_hash]. unfold py_or.
    now rewrite (compute_event_hash_truthy _ _ _ _ Hho). }
  assert (Hne' : pre ++ JDict dold :: post <> []) by now destruct pre.
  assert (Hit' : py_iter (get_or (py "events") (JList [])
                   (dict_set (py "events")
                      (JList (pre ++ resign e_alt (JDict dold) :: post)) d')) =
                 Ok (pre ++ resign e_alt (JDict dold) :: post))
    by now rewrite get_or_set_same.
  rewrite <- Hsid in Hloop.
  rewrite <- (get_or_set_other (py "events") (py "session_id")
                (JList (pre ++ resign e_alt (JDict dold) :: post)) (JStr []) d'
                eq_refl) in Hloop.
  rewrite <- (get_or_set_other (py "events") (py "_integrity")
                (JList (pre ++ resign e_alt (JDict dold) :: post)) (JDict []) d'
                eq_refl) in Hg.
  rewrite (verify_hash_chain_dict false _ _ _ _ Hit' Hg Hloop).
  unfold check_head. cbn [get_or lookup str_eqb].
  rewrite (head_hash_block (length (events_of log)) h (session_id_of log) _ eq_refl).
  cbn [prev_hash messages all_ok].
  rewrite (chain_truthy _ _ _ _ Hc Hne'), py_ne_str_same.
  cbn [stored_hash_of]. now rewrite Hso.
Qed.

Lemma altered_event_detected_witness :
  verify_hash_chain
    (with_events ([signed ev_start hash0] ++
                  resign ev_paste_alt (signed ev_paste hash1) ::
                  [signed ev_end hash2]) chained_log) false =
  Ok (false,
      [fail (EventHashMismatch 1 (JStr (py "paste")) hash1_alt (JStr hash1))]).
Proof.
  apply (altered_event_detected plain_log chained_log [signed ev_start hash0]
           [signed ev_end hash2] (signed ev_paste hash1) ev_paste_alt
           (JStr hash0) hash1_alt); vm_compute; reflexivity.
Defined.

Lemma lookup_filter_other (k k' : pystr) (d : dict) :
  str_eqb k' k = false ->
  lookup k' (filter (fun kv => negb (str_eqb (fst kv) k)) d) = lookup k' d.
Proof.
  intros Hk. induction d as [|[k0 x] d IH]; [reflexivity|].
  cbn [filter fst]. destruct (str_eqb k0 k) eqn:E; cbn [negb lookup].
  - apply str_eqb_eq in E. subst k0. rewrite (str_eqb_sym k k'), Hk. exact IH.
  - cbn [lookup]. now rewrite IH.
Qed.

Lemma lookup_filter_same (k : pystr) (d : dict) :
  lookup k (filter (fun kv => negb (str_eqb (fst kv) k)) d) = None.
Proof.
  induction d as [|[k0 x] d IH]; [reflexivity|].
  cbn [filter fst]. destruct (str_eqb k0 k) eqn:E; cbn [negb lookup]; [exact IH|].
  cbn [lookup]. now rewrite E.
Qed.

Lemma chain_firstn (sid : json) (p : pystr) (l : list json) (q : pystr) (n : nat) :
  chain sid p l q -> exists m, chain sid p (firstn n l) m.
Proof.
  intros H. rewrite <- (firstn_skipn n l) in H.
  destruct (chain_app _ _ _ _ _ H) as (m & Hm & _). eauto.
Qed.

(** X11. Without the anchor a cut goes unnoticed: a log chained by
    [add_hash_chain], cut after any number of its events and with its
    [_integrity] block removed, is verified as intact; the one message is
    the warning that the chain is not anchored. *)
Theorem cut_unnoticed_without_anchor (log log' : json) (n : nat) :
  add_hash_chain log = Ok log' ->
  verify_hash_chain
    (without (py "_integrity") (with_events (firstn n (events_of log')) log'))
    false =
  Ok (true, [warn NotAnchored]).
Proof.
  intros Hadd.
  destruct (add_hash_chain_shape _ _ Hadd) as (d' & h & -> & Hc & Hsid & Hg & Hit & Hf).
  destruct (chain_firstn _ _ _ _ n Hc) as (m & Hm).
  cbn [with_events without].
  set (l := firstn n (events_of (JDict d'))) in *.
  set (d2 := filter (fun kv => negb (str_eqb (fst kv) (py "_integrity")))
               (dict_set (py "events") (JList l) d')).
  assert (Hev2 : py_iter (get_or (py "events") (JList []) d2) = Ok l).
  { unfold d2, get_or. rewrite lookup_filter_other by reflexivity.
    now rewrite lookup_dict_set_same. }
  assert (Hg2 : get_or (py "_integrity") (JDict []) d2 = JDict []).
  { unfold d2, get_or. now rewrite lookup_filter_same. }
  assert (Hs2 : get_or (py "session_id") (JStr []) d2 = session_id_of (JDict d')).
  { unfold d2, get_or. rewrite lookup_filter_other by reflexivity.
    now rewrite lookup_dict_set_other by reflexivity. }
  pose proof (chain_quiet _ _ _ _ 0 initial Hm eq_refl) as Hq.
  rewrite <- Hs2 in Hq.
  rewrite (verify_hash_chain_dict false _ _ _ _ Hev2 Hg2 Hq). reflexivity.
Qed.

Lemma cut_unnoticed_without_anchor_witness :
  verify_hash_chain
    (without (py "_integrity")
       (with_events (firstn 2 (events_of chained_log)) chained_log))
    false =
  Ok (true, [warn NotAnchored]).
Proof.
  apply (cut_unnoticed_without_anchor plain_log chained_log 2).
  vm_compute; reflexivity.
Defined.

(** X12. With the anchor a cut is found: in a log chained by
    [add_hash_chain] and cut after [n] events, the walk ends on the hash the
    chain had reached there; when the head hash is not that hash,
    [verify_hash_chain] returns false with one message, the mismatch of the
    head hash. *)
Theorem cut_detected_by_anchor (log log' : json) (n : nat) (head reached : json) :
  add_hash_chain log = Ok log' ->
  head_hash_of log' = Some head ->
  hash_before log' n = Ok reached ->
  py_ne head reached = true ->
  verify_hash_chain (with_events (firstn n (events_of log')) log') false =
  Ok (false, [fail (HeadHashMismatch reached head)]).
Proof.
  intros Hadd Hhead Hreached Hne.
  destruct (add_hash_chain_shape _ _ Hadd) as (d' & h & -> & Hc & Hsid & Hg & Hit & Hf).
  destruct (chain_firstn _ _ _ _ n Hc) as (m & Hm).
  unfold hash_before in Hreached.
  rewrite (chain_running_hash _ _ _ _ Hm) in Hreached. injection Hreached as <-.
  cbn [with_events].
  set (l := firstn n (events_of (JDict d'))) in *.
  assert (Hev2 : py_iter (get_or (py "events") (JList [])
                            (dict_set (py "events") (JList l) d')) = Ok l)
    by now rewrite get_or_set_same.
  pose proof (chain_quiet _ _ _ _ 0 initial Hm eq_refl) as Hq.
  rewrite <- Hsid in Hq.
  rewrite <- (get_or_set_other (py "events") (py "session_id") (JList l)
                (JStr []) d' eq_refl) in Hq.
  assert (Hhd : JStr h = head) by exact (head_hash_of_get d' _ head Hg Hhead).
  subst head.
  rewrite <- (get_or_set_other (py "events") (py "_integrity") (JList l)
                (JDict []) d' eq_refl) in Hg.
  rewrite (verify_hash_chain_dict false _ _ _ _ Hev2 Hg Hq).
  unfold check_head.
  rewrite (head_hash_block (length (events_of log)) h (session_id_of log) _ eq_refl).
  cbn [prev_hash messages all_ok initial app]. rewrite Hne.
  destruct (truthy (JStr h)) eqn:T; [reflexivity|].
  destruct h; [|discriminate]. 
  destruct (events_of (JDict d')) as [|e l0] eqn:E.
  - subst l. rewrite firstn_nil in Hm. inversion Hm; subst.
    now rewrite py_ne_str_same in Hne.
  - rewrite (chain_truthy _ _ _ _ Hc) in T; discriminate.
Qed.

Lemma cut_detected_by_anchor_witness :
  verify_hash_chain (with_events (firstn 2 (events_of chained_log)) chained_log)
                    false =
  Ok (false, [fail (HeadHashMismatch (JStr hash1) (JStr hash2))]).
Proof.
  apply (cut_detected_by_anchor plain_log chained_log 2 (JStr hash2) (JStr hash1));
    vm_compute; reflexivity.
Defined.

(** * What [add_hash_chain] leaves as it is *)

Lemma keys_dict_set (k : pystr) (v : json) (d : dict) :
  map fst (dict_set k v d) = keys_with k (JDict d).
Proof.
  unfold keys_with. cbn [has_field keys_of].
  induction d as [|[k0 x] d IH]; [reflexivity|].
  cbn [dict_set lookup]. destruct (str_eqb k0 k); [reflexivity|].
  cbn [map fst]. rewrite IH. now destruct (lookup k d).
Qed.

Lemma ahc_loop_events (sid : json) (l l' : list json) (p h : pystr) :
  ahc_loop sid l p = Ok (l', h) ->
  Forall2 (fun e e' => exists d x,
             e = JDict d /\ e' = JDict (dict_set (py "_hash") (JStr x) d)) l l'.
Proof.
  revert l' p. induction l as [|e l IH]; intros l' p H.
  - cbn in H. injection H as <- <-. constructor.
  - cbn [ahc_loop] in H. unbind H. unbind H. unbind H.
    destruct a1 as [rest q]. injection H as <- <-.
    destruct (compute_event_hash_dict _ _ _ _ Ha) as [d ->].
    cbn [py_setitem] in Ha0. injection Ha0 as <-.
    constructor; [eauto|exact (IH _ _ Ha1)].
Qed.

(** X13. [add_hash_chain] touches the hashes only: when it returns, every
    field of the log other than [events] and [_integrity] is as it was; the
    fields keep their order, with [_integrity] last when it is new; there
    are as many events, each with its payload as it was and its keys in
    their order, with [_hash] last when it is new. *)
Theorem add_hash_chain_frame (log log' : json) :
  add_hash_chain log = Ok log' ->
  (forall k, str_eqb (py "events") k = false ->
             str_eqb (py "_integrity") k = false ->
             field k log' = field k log) /\
  keys_of log' = keys_with (py "_integrity") log /\
  Forall2 (fun e e' =>
             payload_of e' = payload_of e /\
             keys_of e' = keys_with (py "_hash") e)
          (events_of log) (events_of log').
Proof.
  intros H.
  destruct (add_hash_chain_inv _ _ H) as (d & l' & h & -> & Hloop & -> & Hsid & Hev & Hit).
  split; [|split].
  - intros k Hk1 Hk2. cbn [field]. unfold chained, store_events.
    rewrite lookup_dict_set_other by exact Hk2.
    destruct (lookup (py "events") d) as [[| | | | |]|]; try reflexivity.
    now rewrite lookup_dict_set_other by exact Hk1.
  - cbn [keys_of]. unfold chained. rewrite keys_dict_set.
    unfold keys_with, store_events. cbn [has_field keys_of].
    destruct (lookup (py "events") d) as [v|] eqn:E; [|reflexivity].
    destruct v as [| | | |l0|]; try reflexivity.
    rewrite lookup_dict_set_other by reflexivity.
    rewrite keys_dict_set. unfold keys_with. cbn [has_field keys_of].
    now rewrite E.
  - rewrite Hev.
    pose proof (ahc_loop_events _ _ _ _ _ Hloop) as Hf.
    revert Hf. apply Forall2_impl. intros e e' (d0 & x & -> & ->).
    cbn [payload_of keys_of]. rewrite filter_dict_set_hash, keys_dict_set. auto.
Qed.

Lemma add_hash_chain_frame_witness :
  (forall k, str_eqb (py "events") k = false ->
             str_eqb (py "_integrity") k = false ->
             field k chained_log = field k plain_log) /\
  keys_of chained_log = keys_with (py "_integrity") plain_log /\
  Forall2 (fun e e' =>
             payload_of e' = payload_of e /\
             keys_of e' = keys_with (py "_hash") e)
          (events_of plain_log) (events_of chained_log).
Proof.
  apply (add_hash_chain_frame plain_log chained_log).
  vm_compute; reflexivity.
Defined.

(** * The sanity checks see no hash *)

Lemma sanity_checks_same_events (verbose : bool) (d1 d2 : dict) :
  get_or (py "events") (JList []) d1 = get_or (py "events") (JList []) d2 ->
  sanity_checks verbose (JDict d1) = sanity_checks verbose (JDict d2).
Proof. intros H. unfold sanity_checks. rewrite !py_get_dict. now rewrite H. Qed.

Lemma py_get_type_dict (e : json) :
  is_dict e = true -> py_get e (py "type") JNull = Ok (event_type e).
Proof. now destruct e. Qed.

Lemma timestamps_dicts (l : list json) :
  forallb is_dict l = true ->
  map_result (fun e => py_get e (py "timestamp") (JStr [])) l =
  Ok (map timestamp_of l).
Proof.
  induction l as [|e l IH]; [reflexivity|].
  cbn [forallb]. intros H. apply andb_true_iff in H as [He Hl].
  cbn [map_result map]. rewrite (IH Hl).
  destruct e; try discriminate. reflexivity.
Qed.

Section SameEvents.

Variable R : json -> json -> Prop.
Hypothesis R_type : forall e e', R e e' -> event_type e' = event_type e.
Hypothesis R_time : forall e e', R e e' -> timestamp_of e' = timestamp_of e.
Hypothesis R_dict : forall e e', R e e' -> is_dict e = true /\ is_dict e' = true.

Lemma same_last (l l' : list json) (x x' : json) :
  Forall2 R l l' -> R x x' -> R (last l x) (last l' x').
Proof.
  intros H. revert x x'. induction H as [|e e' l l' He Hl IH]; intros x x' Hx.
  - exact Hx.
  - rewrite !last_cons_default. apply IH. exact He.
Qed.

Lemma same_timestamps (l l' : list json) :
  Forall2 R l l' ->
  map timestamp_of l' = map timestamp_of l /\
  forallb is_dict l = true /\ forallb is_dict l' = true.
Proof.
  induction 1 as [|e e' l l' He Hl (IH1 & IH2 & IH3)]; [auto|].
  cbn [map forallb]. rewrite IH1, IH2, IH3, (R_time _ _ He).
  destruct (R_dict _ _ He) as [-> ->]. auto.
Qed.

(** The sanity checks read the types and the timestamps of the events. *)
Lemma sanity_checks_same (verbose : bool) (d d' : dict) (l l' : list json) :
  get_or (py "events") (JList []) d = JList l ->
  get_or (py "events") (JList []) d' = JList l' ->
  Forall2 R l l' ->
  sanity_checks verbose (JDict d') = sanity_checks verbose (JDict d).
Proof.
  intros El El' Hf. unfold sanity_checks. rewrite !py_get_dict, El, El'.
  cbn [bind]. destruct Hf as [|e e' l l' He Hl]; [reflexivity|].
  cbn [truthy negb py_first py_last bind py_iter].
  destruct (R_dict _ _ He) as [D D'].
  rewrite (py_get_type_dict _ D), (py_get_type_dict _ D'). cbn [bind].
  rewrite (R_type _ _ He).
  pose proof (same_last _ _ _ _ Hl He) as Hlast.
  destruct (R_dict _ _ Hlast) as [L L'].
  rewrite (py_get_type_dict _ L), (py_get_type_dict _ L'). cbn [bind].
  rewrite (R_type _ _ Hlast).
  destruct (same_timestamps _ _ (Forall2_cons _ _ He Hl)) as (T & A & A').
  rewrite (timestamps_dicts _ A), (timestamps_dicts _ A'), T. reflexivity.
Qed.

End SameEvents.

(** X14. Chaining a log does not change what the sanity checks of [main]
    say about it: they read the types and the timestamps of the events,
    which [add_hash_chain] leaves as they are. *)
Theorem sanity_checks_ignore_chain (verbose : bool) (log log' : json) :
  add_hash_chain log = Ok log' ->
  sanity_checks verbose log' = sanity_checks verbose log.
Proof.
  intros H.
  destruct (add_hash_chain_shape _ _ H) as (d' & h & E' & _ & _ & _ & _ & Hf).
  destruct (add_hash_chain_inv _ _ H) as (d & l' & h' & E & _ & E2 & _ & Hev & _).
  subst log. rewrite Hev in Hf. rewrite E2. clear E' E2 Hev H.
  unfold chained, store_events. cbn [events_of] in Hf.
  destruct (lookup (py "events") d) as [v|] eqn:Ev.
  - destruct v as [| | | |l|];
      try (apply sanity_checks_same_events; unfold get_or;
           now rewrite lookup_dict_set_other by reflexivity).
    apply (sanity_checks_same
             (fun e e' => payload_of e' = payload_of e /\
                          event_type e' = event_type e /\
                          timestamp_of e' = timestamp_of e /\
                          is_dict e = true /\ is_dict e' = true))
      with (l := l) (l' := l').
    + now intros e e' (_ & ? & _).
    + now intros e e' (_ & _ & ? & _).
    + now intros e e' (_ & _ & _ & ? & ?).
    + unfold get_or. now rewrite Ev.
    + unfold get_or.
      rewrite lookup_dict_set_other by reflexivity.
      now rewrite lookup_dict_set_same.
    + exact Hf.
  - apply sanity_checks_same_events; unfold get_or;
      now rewrite lookup_dict_set_other by reflexivity.
Qed.

Lemma sanity_checks_ignore_chain_witness :
  sanity_checks true chained_log = sanity_checks true plain_log.
Proof.
  apply (sanity_checks_ignore_chain true plain_log chained_log).
  vm_compute; reflexivity.
Defined.

(** * When the sanity checks pass *)

(** X15. The sanity checks of [main] pass on a log with events exactly when
    its first event is a session start, its last event a session end, and
    no timestamp is before the one of the event before it (on a log whose
    events are objects with text timestamps). *)
Theorem sanity_checks_pass_iff (verbose : bool) (log : json) (ts : list pystr)
    (sanity_ok : bool) (msgs : list message) :
  is_dict log = true ->
  forallb is_dict (events_of log) = true ->
  has_events log = true ->
  as_strs (timestamps_of log) = Some ts ->
  sanity_checks verbose log = Ok (Some (sanity_ok, msgs)) ->
  sanity_ok = true <->
  first_type log = JStr (py "session_start") /\
  last_type log = JStr (py "session_end") /\
  nondecreasing ts = true.
Proof.
  intros Hd Hl Hev Hts Hs.
  destruct log as [| | | | |d]; try discriminate.
  unfold has_events, timestamps_of, first_type, last_type in *.
  destruct (events_of (JDict d)) as [|e0 rest] eqn:Ev; [discriminate|].
  assert (El : get_or (py "events") (JList []) d = JList (e0 :: rest)).
  { cbn [events_of] in Ev. unfold get_or.
    destruct (lookup (py "events") d) as [[| | | |l|]|]; try discriminate.
    now rewrite Ev. }
  rewrite (sanity_checks_events verbose d e0 rest ts El Hl Hts) in Hs.
  rewrite last_cons_default.
  set (t0 := event_type e0) in *. set (t1 := event_type (last rest e0)) in *.
  assert (H0 : py_ne t0 (JStr (py "session_start")) = false <->
               t0 = JStr (py "session_start")).
  { split; [apply py_ne_str_false|]. intros ->. apply py_ne_str_same. }
  assert (H1 : py_ne t1 (JStr (py "session_end")) = false <->
               t1 = JStr (py "session_end")).
  { split; [apply py_ne_str_false|]. intros ->. apply py_ne_str_same. }
  rewrite <- H0, <- H1.
  destruct (nondecreasing ts); cbn [negb] in Hs; injection Hs as <- _.
  - destruct (py_ne t0 (JStr (py "session_start"))),
             (py_ne t1 (JStr (py "session_end"))); cbn; intuition congruence.
  - intuition congruence.
Qed.

Lemma sanity_checks_pass_iff_witness :
  true = true <->
  first_type chained_log = JStr (py "session_start") /\
  last_type chained_log = JStr (py "session_end") /\
  nondecreasing [py "2026-01-01T00:00:00Z"; py "2026-01-01T00:01:00Z";
                 py "2026-01-01T00:02:00Z"] = true.
Proof.
  apply (sanity_checks_pass_iff false chained_log _ true []);
    vm_compute; reflexivity.
Defined.

(** X16. A log with exactly one event never passes: its one event is the
    first and the last, and cannot be both a session start and a session
    end; whatever the schema validation and the chain verification gave,
    the document is classified failed. *)
Theorem single_event_log_fails (schema_ok verbose : bool) (log e : json)
    (file_ok : bool) (msgs : list message) :
  events_of log = [e] ->
  check_document schema_ok verbose log = Ok (Some (file_ok, msgs)) ->
  file_ok = false.
Proof.
  intros Hev H. unfold check_document in H.
  unbind H. destruct a as [chain_ok cmsgs]. unbind H. unbind H.
  destruct a0 as [[sanity_ok smsgs]|]; [|discriminate].
  injection H as <- _.
  assert (Hs : sanity_ok = false); [|subst; now rewrite andb_false_r].
  clear Ha Ha0. unfold sanity_checks in Ha1.
  destruct log as [| | | | |d]; try discriminate.
  cbn [events_of] in Hev. rewrite py_get_dict in Ha1. unfold get_or in Ha1.
  destruct (lookup (py "events") d) as [[| | | |l|]|]; try discriminate.
  subst l. cbn [bind truthy negb py_first py_last last] in Ha1.
  unbind Ha1. rewrite Ha in Ha1. cbn [bind] in Ha1.
  destruct (py_ne a0 (JStr (py "session_start"))) eqn:N0;
    destruct (py_ne a0 (JStr (py "session_end"))) eqn:N1.
  - unbind Ha1. unbind Ha1.
    destruct (as_strs a2); [|discriminate].
    destruct (negb (strs_eqb l (sorted l))); [now injection Ha1 as <-|].
    destruct verbose; now injection Ha1 as <-.
  - unbind Ha1. unbind Ha1.
    destruct (as_strs a2); [|discriminate].
    destruct (negb (strs_eqb l (sorted l))); [now injection Ha1 as <-|].
    destruct verbose; now injection Ha1 as <-.
  - unbind Ha1. unbind Ha1.
    destruct (as_strs a2); [|discriminate].
    destruct (negb (strs_eqb l (sorted l))); [now injection Ha1 as <-|].
    destruct verbose; now injection Ha1 as <-.
  - apply py_ne_str_false in N0, N1. rewrite N0 in N1. discriminate.
Qed.

Lemma single_event_log_fails_witness :
  events_of paste_only_log = [signed ev_paste hash_paste] /\
  (exists msgs, check_document true false paste_only_log = Ok (Some (false, msgs))) /\
  false = false.
Proof.
  split; [reflexivity|]. split.
  - eexists. vm_compute. reflexivity.
  - apply (single_event_log_fails true false paste_only_log
             (signed ev_paste hash_paste) false
             [ok (ChainIntact 1); warn FirstNotSessionStart; warn LastNotSessionEnd]);
      vm_compute; reflexivity.
Defined.

(** * [main] *)

Lemma read_write_same (path : pystr) (c : content) (fs : disk) :
  read path (write path c fs) = Some c.
Proof.
  induction fs as [|[p c0] fs IH]; cbn [write read].
  - now rewrite str_eqb_refl.
  - destruct (str_eqb p path) eqn:E; cbn [read]; rewrite E; [reflexivity|exact IH].
Qed.

Lemma read_write_other (path path' : pystr) (c : content) (fs : disk) :
  path <> path' -> read path' (write path c fs) = read path' fs.
Proof.
  intros Hne. induction fs as [|[p c0] fs IH]; cbn [write read].
  - apply str_eqb_neq in Hne. now rewrite Hne.
  - destruct (str_eqb p path) eqn:E; cbn [read].
    + apply str_eqb_eq in E. subst p.
      apply str_eqb_neq in Hne. now rewrite Hne.
    + now rewrite IH.
Qed.

(** A turn of the loop that goes on to the next file. *)
Lemma main_step_returns (w : world) (verbose fix_mode : bool) (path : pystr)
    (st st' : main_state) :
  main_step w verbose fix_mode path st = Returns st' ->
  (read path (files st) = Some BadJson /\
   passed_files st' = passed_files st /\
   all_messages st' = all_messages st ++ [FailInvalidJson path] /\
   files st' = files st) \/
  (exists log schema_ok file_ok msgs,
     read path (files st) = Some (Doc log) /\
     jsonschema_installed w = true /\
     schema_valid w log = Some schema_ok /\
     check_document schema_ok verbose log = Ok (Some (file_ok, msgs)) /\
     passed_files st' = (if file_ok then S (passed_files st) else passed_files st) /\
     all_messages st' =
       all_messages st ++ [if file_ok then Pass path else Fail path] /\
     (if fix_mode
      then exists log', add_hash_chain log = Ok log' /\
                        writable w path = true /\
                        files st' = write path (Doc log') (files st)
      else files st' = files st)).
Proof.
  unfold main_step. intros H.
  destruct (read path (files st)) as [[| |log]|]; try discriminate.
  - injection H as <-. left. auto.
  - destruct (jsonschema_installed w); [|discriminate]. cbn [negb] in H.
    destruct (schema_valid w log) as [schema_ok|] eqn:Ev; [|discriminate].
    destruct (check_document schema_ok verbose log)
      as [[[file_ok msgs]|]|e] eqn:E; try discriminate.
    right. exists log, schema_ok, file_ok, msgs.
    do 2 (split; [reflexivity|]). split; [exact Ev|]. split; [exact E|].
    destruct fix_mode.
    + destruct (add_hash_chain log) as [log'|e]; [|discriminate].
      destruct (writable w path); [|discriminate].
      injection H as <-. cbn [passed_files all_messages files].
      do 2 (split; [reflexivity|]). exists log'. auto.
    + injection H as <-. cbn [passed_files all_messages files].
      do 2 (split; [reflexivity|]). reflexivity.
Qed.

Lemma step_line (w : world) (verbose fix_mode : bool) (path : pystr)
    (st st' : main_state) :
  main_step w verbose fix_mode path st = Returns st' ->
  exists m,
    all_messages st' = all_messages st ++ [m] /\
    rel_of m = path /\
    passed_files st' = (passed_files st + (if is_pass m then 1 else 0))%nat /\
    (read path (files st) = Some BadJson -> m = FailInvalidJson path).
Proof.
  intros H.
  destruct (main_step_returns _ _ _ _ _ _ H)
    as [(Hr & Hp & Hm & _)|(log & schema_ok & file_ok & msgs & Hr & _ & _ & _ & Hp & Hm & _)].
  - exists (FailInvalidJson path). cbn. rewrite Hp, Hm. auto with arith.
  - exists (if file_ok then Pass path else Fail path).
    rewrite Hp, Hm, Hr. destruct file_ok; cbn;
      (split; [reflexivity|]); (split; [reflexivity|]);
      (split; [lia|discriminate]).
Qed.

(** The loop adds one line for each file, in their order, and counts the
    lines that pass. *)
Lemma main_loop_lines (w : world) (verbose fix_mode : bool)
    (examples : list pystr) (st st' : main_state) :
  main_loop w verbose fix_mode examples st = Returns st' ->
  exists new,
    all_messages st' = all_messages st ++ new /\
    map rel_of new = examples /\
    passed_files st' = (passed_files st + length (filter is_pass new))%nat.
Proof.
  revert st. induction examples as [|path rest IH]; intros st H.
  - cbn in H. injection H as <-. exists []. cbn. rewrite app_nil_r. auto with arith.
  - cbn [main_loop] in H.
    destruct (main_step w verbose fix_mode path st) as [st1| | | |] eqn:E;
      try discriminate.
    cbn [and_then] in H.
    destruct (step_line _ _ _ _ _ _ E) as (m & Hm & Hrel & Hp & _).
    destruct (IH _ H) as (new & Hnew & Hmap & Hcount).
    exists (m :: new). split; [|split].
    + rewrite Hnew, Hm, <- app_assoc. reflexivity.
    + cbn [map]. now rewrite Hrel, Hmap.
    + rewrite Hcount, Hp. cbn [filter]. destruct (is_pass m); cbn [length]; lia.
Qed.

Lemma filter_length_all {A} (p : A -> bool) (l : list A) :
  length (filter p l) = length l <-> forallb p l = true.
Proof.
  assert (Hle : forall l', (length (filter p l') <= length l')%nat).
  { induction l' as [|x l' IH]; cbn; [lia|]. destruct (p x); cbn; lia. }
  induction l as [|x l IH]; cbn [filter forallb length]; [tauto|].
  destruct (p x); cbn [length andb].
  - rewrite <- IH. lia.
  - specialize (Hle l). split; [lia|discriminate].
Qed.

Lemma main_returns_inv (w : world) (verbose fix_mode : bool)
    (examples : list pystr) (fs fs' : disk) (code : Z) (lines : list line) :
  main w verbose fix_mode examples fs = Returns (code, lines, fs') ->
  (schema_exists w = true /\ schema_loads w = true) /\
  ((examples = [] /\ code = 0 /\ lines = [] /\ fs' = fs) \/
   (examples <> [] /\
    exists st,
      main_loop w verbose fix_mode examples
        {| passed_files := 0; all_messages := []; files := fs |} = Returns st /\
      code = (if Nat.eqb (passed_files st) (length examples) then 0 else 1) /\
      lines = all_messages st /\ fs' = files st)).
Proof.
  unfold main. intros H.
  destruct (schema_exists w); [|discriminate]. cbn [negb] in H.
  destruct (schema_loads w); [|discriminate]. cbn [negb] in H.
  split; [split; reflexivity|].
  destruct examples as [|path rest].
  - injection H as <- <- <-. left. auto.
  - right. split; [discriminate|].
    remember (path :: rest) as examples eqn:Ex. clear Ex.
    destruct (main_loop w verbose fix_mode examples _) as [st| | | |] eqn:E;
      try discriminate.
    cbn [and_then] in H. injection H as <- <- <-. eauto.
Qed.

Lemma code_of_lines (new : list line) :
  (if Nat.eqb (length (filter is_pass new)) (length new) then 0 else 1) =
  (if forallb is_pass new then 0 else 1).
Proof.
  destruct (forallb is_pass new) eqn:F.
  - apply filter_length_all in F. now rewrite F, Nat.eqb_refl.
  - destruct (Nat.eqb (length (filter is_pass new)) (length new)) eqn:N;
      [|reflexivity].
    apply Nat.eqb_eq, filter_length_all in N. congruence.
Qed.

(** X17. The summary and the exit code of [main]: when [main] returns, the
    summary has one line for each file given, in their order, and the exit
    code is 0 when every line is a PASS line, and 1 otherwise. *)
Theorem main_summary (w : world) (verbose fix_mode : bool)
    (examples : list pystr) (fs fs' : disk) (code : Z) (lines : list line) :
  main w verbose fix_mode examples fs = Returns (code, lines, fs') ->
  map rel_of lines = examples /\
  code = (if forallb is_pass lines then 0 else 1).
Proof.
  intros H.
  destruct (main_returns_inv _ _ _ _ _ _ _ _ H)
    as [_ [(-> & -> & -> & _)|(_ & st & E & -> & -> & _)]]; [auto|].
  destruct (main_loop_lines _ _ _ _ _ _ E) as (new & Hnew & Hmap & Hcount).
  cbn [all_messages passed_files app Nat.add] in Hnew, Hcount.
  rewrite Hnew. split; [exact Hmap|].
  rewrite Hcount, <- Hmap, length_map. apply code_of_lines.
Qed.

Lemma main_summary_witness :
  map rel_of [Fail (py "a/process-log.json");
              FailInvalidJson (py "b/process-log.json");
              Pass (py "c/process-log.json")] = sample_paths /\
  1 = (if forallb is_pass [Fail (py "a/process-log.json");
                           FailInvalidJson (py "b/process-log.json");
                           Pass (py "c/process-log.json")] then 0 else 1).
Proof.
  apply (main_summary sample_world false false sample_paths sample_disk sample_disk).
  vm_compute; reflexivity.
Defined.

(** What the walk needs of the events and of the session id. *)
Lemma vhc_loop_needs (verbose : bool) (sid : json) (l : list json) (i : nat)
    (st st' : chain_state) :
  vhc_loop verbose sid l i st = Ok st' ->
  forallb is_dict l = true /\
  (l <> [] -> exists s, sid = JStr s /\ Utf8.encodable s = true).
Proof.
  revert i st. induction l as [|e l IH]; intros i st H; [split; [reflexivity|congruence]|].
  cbn [vhc_loop] in H. unbind H.
  destruct (vhc_step_ok _ _ _ _ _ _ Ha) as (d & h & new & -> & Hh & _).
  destruct (IH _ _ H) as [Hl _]. cbn [forallb is_dict]. split; [exact Hl|].
  intros _.
  destruct (compute_event_hash_ok_inv _ _ _ _ Hh) as (d0 & p & s & bytes & _ & _ & -> & _ & Hs & _).
  eauto.
Qed.

(** [add_hash_chain] returns on every log [verify_hash_chain] returns on. *)
Lemma verified_log_chainable (verbose : bool) (log : json)
    (r : bool * list message) :
  verify_hash_chain log verbose = Ok r ->
  exists log', add_hash_chain log = Ok log'.
Proof.
  unfold verify_hash_chain. intros H.
  unbind H. unbind H. unbind H. unbind H. clear H.
  destruct (vhc_loop_needs _ _ _ _ _ _ Ha2) as [Hl Hs].
  assert (Hloop : exists l' h, ahc_loop a a1 [] = Ok (l', h)).
  { destruct a1 as [|e l]; [cbn; eauto|].
    destruct Hs as (s & -> & Hs); [discriminate|].
    destruct (ahc_loop_chain s (e :: l) [] Hs Hl eq_refl) as (l' & h & Hloop & _).
    eauto. }
  destruct Hloop as (l' & h & Hloop).
  unfold add_hash_chain. rewrite Ha, Ha0. cbn [bind]. rewrite Ha1. cbn [bind].
  rewrite Hloop. cbn [bind].
  destruct log as [| | | | |d]; try discriminate.
  assert (Hlen : exists n, py_len a0 = Ok n).
  { destruct a0; try discriminate; cbn; eauto. }
  destruct Hlen as [n ->]. cbn. eauto.
Qed.

Lemma checked_document_chainable (schema_ok verbose : bool) (log : json)
    (r : option (bool * list message)) :
  check_document schema_ok verbose log = Ok r ->
  exists log', add_hash_chain log = Ok log'.
Proof.
  unfold check_document. intros H. unbind H.
  exact (verified_log_chainable _ _ _ Ha).
Qed.

(** Without [jsonschema] the loop goes on over the files that are not
    JSON, and writes nothing. *)
Lemma main_loop_no_jsonschema (w : world) (verbose fix_mode : bool)
    (examples : list pystr) (st st' : main_state) :
  jsonschema_installed w = false ->
  main_loop w verbose fix_mode examples st = Returns st' ->
  Forall (fun p => read p (files st) = Some BadJson) examples /\
  passed_files st' = passed_files st /\
  all_messages st' = all_messages st ++ map FailInvalidJson examples /\
  files st' = files st.
Proof.
  intros Hw. revert st. induction examples as [|path rest IH]; intros st H.
  - cbn in H. injection H as <-. cbn. rewrite app_nil_r. auto.
  - cbn [main_loop] in H.
    destruct (main_step w verbose fix_mode path st) as [st1| | | |] eqn:E;
      try discriminate.
    cbn [and_then] in H.
    destruct (main_step_returns _ _ _ _ _ _ E)
      as [(Hr & Hp & Hm & Hfs)|(log & schema_ok & file_ok & msgs & _ & Hi & _)];
      [|congruence].
    destruct (IH _ H) as (Hall & Hp' & Hm' & Hfs').
    rewrite Hfs in Hall, Hfs'. rewrite Hp in Hp'. rewrite Hm in Hm'.
    split; [constructor; assumption|]. split; [exact Hp'|].
    split; [|exact Hfs']. rewrite Hm', <- app_assoc. reflexivity.
Qed.

(** The loop ends in [sys.exit] at a document only, where [jsonschema] is
    not installed, after files that are not JSON. *)
Lemma main_loop_exits (w : world) (verbose fix_mode : bool)
    (examples : list pystr) (st : main_state) (code : Z) :
  main_loop w verbose fix_mode examples st = Exits code ->
  code = 2 /\ jsonschema_installed w = false /\
  exists before path log after,
    examples = before ++ path :: after /\
    Forall (fun p => read p (files st) = Some BadJson) before /\
    read path (files st) = Some (Doc log).
Proof.
  revert st. induction examples as [|path rest IH]; intros st H; [discriminate|].
  cbn [main_loop] in H.
  destruct (main_step w verbose fix_mode path st) as [st1|c| | |] eqn:E;
    try discriminate; cbn [and_then] in H.
  - destruct (IH _ H) as (Hc & Hw & before & p & log & after & -> & Hb & Hr).
    destruct (main_step_returns _ _ _ _ _ _ E)
      as [(Hbad & _ & _ & Hfs)|(log0 & schema_ok & file_ok & msgs & _ & Hi & _)];
      [|congruence].
    rewrite Hfs in Hb, Hr.
    split; [exact Hc|]. split; [exact Hw|].
    exists (path :: before), p, log, after.
    split; [reflexivity|]. split; [constructor; assumption|exact Hr].
  - injection H as <-. unfold main_step in E.
    destruct (read path (files st)) as [[| |log]|] eqn:Hr; try discriminate.
    destruct (jsonschema_installed w) eqn:Hw; cbn [negb] in E.
    + destruct (schema_valid w log) as [schema_ok|]; [|discriminate].
      destruct (check_document schema_ok verbose log) as [[[file_ok msgs]|]|e];
        try discriminate.
      destruct fix_mode; [|discriminate].
      destruct (add_hash_chain log); [|discriminate].
      destruct (writable w path); discriminate.
    + injection E as <-. split; [reflexivity|]. split; [reflexivity|].
      exists [], path, log, rest. auto.
Qed.

(** X18. The exit code 2 needs a document.  [main] ends in [sys.exit] in
    two ways only: with code 1, where the schema file is not there, and
    with code 2, where [jsonschema] is not installed and one of the files
    given holds JSON; it exits at the first such file, and the files before
    it are not JSON.  Where [jsonschema] is not installed and [main]
    returns, no file given holds JSON: the exit code is 0 without files and
    else 1, the summary has a line FAIL: invalid JSON for each file, and
    the disk is as it was. *)
Theorem missing_dependency (w : world) (verbose fix_mode : bool)
    (examples : list pystr) (fs : disk) :
  (forall code,
      main w verbose fix_mode examples fs = Exits code ->
      (code = 1 /\ schema_exists w = false) \/
      (code = 2 /\ schema_exists w = true /\ jsonschema_installed w = false /\
       exists before path log after,
         examples = before ++ path :: after /\
         Forall (fun p => read p fs = Some BadJson) before /\
         read path fs = Some (Doc log))) /\
  (jsonschema_installed w = false ->
   forall code lines fs',
     main w verbose fix_mode examples fs = Returns (code, lines, fs') ->
     Forall (fun p => read p fs = Some BadJson) examples /\
     code = match examples with [] => 0 | _ :: _ => 1 end /\
     lines = map FailInvalidJson examples /\
     fs' = fs).
Proof.
  split.
  - intros code H. unfold main in H.
    destruct (schema_exists w); cbn [negb] in H;
      [|injection H as <-; left; auto].
    destruct (schema_loads w); cbn [negb] in H; [|discriminate].
    destruct examples as [|path rest]; [discriminate|].
    remember (path :: rest) as examples eqn:Ex. clear Ex.
    destruct (main_loop w verbose fix_mode examples _) as [st|c| | |] eqn:E;
      try discriminate.
    cbn [and_then] in H. injection H as <-.
    destruct (main_loop_exits _ _ _ _ _ _ E) as (Hc & Hw & Hex).
    right. auto.
  - intros Hw code lines fs' H.
    destruct (main_returns_inv _ _ _ _ _ _ _ _ H)
      as [_ [(-> & -> & -> & ->)|(Hne & st & E & -> & -> & ->)]]; [auto|].
    destruct (main_loop_no_jsonschema _ _ _ _ _ _ Hw E) as (Hall & Hp & Hm & Hfs).
    cbn [passed_files all_messages files app] in Hall, Hp, Hm, Hfs.
    split; [exact Hall|]. rewrite Hp, Hm, Hfs.
    destruct examples as [|path rest]; [congruence|]. auto.
Qed.

Lemma missing_dependency_witness :
  ((2 = 1 /\ schema_exists bare_world = false) \/
   (2 = 2 /\ schema_exists bare_world = true /\
    jsonschema_installed bare_world = false /\
    exists before path log after,
      [py "b/process-log.json"; py "c/process-log.json"] =
      before ++ path :: after /\
      Forall (fun p => read p sample_disk = Some BadJson) before /\
      read path sample_disk = Some (Doc log))) /\
  (Forall (fun p => read p sample_disk = Some BadJson) [py "b/process-log.json"] /\
   1 = 1 /\
   [FailInvalidJson (py "b/process-log.json")] =
   map FailInvalidJson [py "b/process-log.json"] /\
   sample_disk = sample_disk).
Proof.
  split.
  - apply (proj1 (missing_dependency bare_world false false
                    [py "b/process-log.json"; py "c/process-log.json"]
                    sample_disk) 2).
    vm_compute; reflexivity.
  - apply (proj2 (missing_dependency bare_world false false
                    [py "b/process-log.json"] sample_disk) eq_refl 1
             [FailInvalidJson (py "b/process-log.json")] sample_disk).
    vm_compute; reflexivity.
Defined.

(** [main] catches [json.JSONDecodeError] only: a file that is no text
    stops the run, with or without [jsonschema]. *)
Example file_that_is_no_text_stops_run :
  main sample_world false false [py "v"] binary_disk = Fails LoadFails /\
  main bare_world false false [py "v"] binary_disk = Fails LoadFails.
Proof. split; reflexivity. Qed.

(** A file that is not JSON stays so, and gets its line. *)
Lemma main_loop_bad_json (w : world) (verbose fix_mode : bool)
    (examples : list pystr) (st st' : main_state) :
  main_loop w verbose fix_mode examples st = Returns st' ->
  forall p,
    read p (files st) = Some BadJson ->
    read p (files st') = Some BadJson /\
    (In p examples -> In (FailInvalidJson p) (all_messages st')).
Proof.
  revert st. induction examples as [|path rest IH]; intros st H p Hp.
  - cbn in H. injection H as <-. split; [exact Hp|intros []].
  - cbn [main_loop] in H.
    destruct (main_step w verbose fix_mode path st) as [st1| | | |] eqn:E;
      try discriminate.
    cbn [and_then] in H.
    destruct (step_line _ _ _ _ _ _ E) as (m & Hm & _ & _ & Hbad).
    assert (Hp1 : read p (files st1) = Some BadJson).
    { destruct (main_step_returns _ _ _ _ _ _ E)
        as [(_ & _ & _ & ->)|(log & schema_ok & file_ok & msgs & Hr & _ & _ & _ & _ & _ & Hfs)];
        [exact Hp|].
      destruct fix_mode; [|now rewrite Hfs].
      destruct Hfs as (log' & _ & _ & ->).
      rewrite read_write_other; [exact Hp|]. intros ->. congruence. }
    destruct (IH _ H p Hp1) as [Hp' Hin]. split; [exact Hp'|].
    intros [<-|Hrest]; [|exact (Hin Hrest)].
    destruct (main_loop_lines _ _ _ _ _ _ H) as (new & -> & _).
    apply in_or_app. left. rewrite Hm, (Hbad Hp).
    apply in_or_app. right. now left.
Qed.

(** X19. A file that is not JSON does not stop the run, and fails it: when
    [main] returns, each such file among the files given has its line FAIL:
    invalid JSON in the summary, is left as it was, and the exit code
    is 1. *)
Theorem invalid_json_fails_run (w : world) (verbose fix_mode : bool)
    (examples : list pystr) (fs fs' : disk) (code : Z) (lines : list line)
    (path : pystr) :
  main w verbose fix_mode examples fs = Returns (code, lines, fs') ->
  In path examples ->
  read path fs = Some BadJson ->
  In (FailInvalidJson path) lines /\
  read path fs' = Some BadJson /\
  code = 1.
Proof.
  intros H Hin Hbad.
  destruct (main_returns_inv _ _ _ _ _ _ _ _ H)
    as [_ [(-> & _)|(_ & st & E & -> & -> & ->)]]; [destruct Hin|].
  destruct (main_loop_bad_json _ _ _ _ _ _ E path Hbad) as [Hr Hl].
  specialize (Hl Hin). split; [exact Hl|]. split; [exact Hr|].
  destruct (main_loop_lines _ _ _ _ _ _ E) as (new & Hnew & Hmap & Hcount).
  cbn [all_messages passed_files app Nat.add] in Hnew, Hcount.
  rewrite Hcount, <- Hmap, length_map, code_of_lines.
  destruct (forallb is_pass new) eqn:F; [|reflexivity].
  rewrite forallb_forall in F. rewrite Hnew in Hl.
  specialize (F _ Hl). discriminate.
Qed.

Lemma invalid_json_fails_run_witness :
  In (FailInvalidJson (py "b/process-log.json"))
     [Fail (py "a/process-log.json");
      FailInvalidJson (py "b/process-log.json");
      Pass (py "c/process-log.json")] /\
  read (py "b/process-log.json") sample_disk = Some BadJson /\
  1 = 1.
Proof.
  apply (invalid_json_fails_run sample_world false false sample_paths
           sample_disk sample_disk 1 _ (py "b/process-log.json")).
  - vm_compute; reflexivity.
  - right. left. reflexivity.
  - reflexivity.
Defined.


(** A turn of the loop with [--fix] and the same turn without: the same
    count and line; with [--fix] the file is chained, the other files are
    as they were. *)
Lemma main_step_fix (w : world) (verbose : bool) (path : pystr)
    (st1 st2 st1' : main_state) (rest : list pystr) :
  same_on (path :: rest) st1 st2 -> ~ In path rest ->
  main_step w verbose true path st1 = Returns st1' ->
  exists st2', main_step w verbose false path st2 = Returns st2' /\
               files st2' = files st2 /\ same_on rest st1' st2'.
Proof.
  intros (Hp & Hm & Hr) Hnot H.
  assert (Hpath : read path (files st1) = read path (files st2))
    by (apply Hr; now left).
  assert (Hrest : forall fs1 log',
             fs1 = write path (Doc log') (files st1) \/ fs1 = files st1 ->
             forall p, In p rest -> read p fs1 = read p (files st2)).
  { intros fs1 log' Hfs p Hin.
    rewrite <- (Hr p) by now right.
    destruct Hfs as [-> | ->]; [|reflexivity].
    apply read_write_other. intros ->. exact (Hnot Hin). }
  revert H. unfold main_step. rewrite Hpath, Hp, Hm.
  destruct (read path (files st2)) as [[| |log]|]; try discriminate.
  - intros [= <-]. eexists. split; [reflexivity|]. split; [reflexivity|].
    repeat split; cbn [files]. apply (Hrest _ JNull). auto.
  - destruct (jsonschema_installed w); cbn [negb]; [|discriminate].
    destruct (schema_valid w log) as [schema_ok|]; [|discriminate].
    destruct (check_document schema_ok verbose log)
      as [[[file_ok msgs]|]|e]; try discriminate.
    destruct (add_hash_chain log) as [log'|e]; [|discriminate].
    destruct (writable w path); [|discriminate].
    intros [= <-]. eexists. split; [reflexivity|]. split; [reflexivity|].
    repeat split; cbn [files]. apply (Hrest _ log'). auto.
Qed.

Lemma main_loop_fix (w : world) (verbose : bool) (examples : list pystr)
    (st1 st2 st1' : main_state) :
  NoDup examples -> same_on examples st1 st2 ->
  main_loop w verbose true examples st1 = Returns st1' ->
  exists st2', main_loop w verbose false examples st2 = Returns st2' /\
               files st2' = files st2 /\ same_on [] st1' st2'.
Proof.
  intros Hnd. revert st1 st2.
  induction Hnd as [|path rest Hnot Hnd IH]; intros st1 st2 Hsame H.
  - destruct Hsame as (Hp & Hm & _). cbn in H. injection H as <-.
    exists st2. split; [reflexivity|]. split; [reflexivity|].
    repeat split; auto. intros p [].
  - cbn [main_loop] in *.
    destruct (main_step w verbose true path st1) as [s1| | | |] eqn:E1;
      try discriminate.
    destruct (main_step_fix w verbose path st1 st2 s1 rest Hsame Hnot E1)
      as (s2 & -> & Hfs & Hs).
    cbn [and_then] in *.
    destruct (IH _ _ Hs H) as (st2' & H2 & Hfs' & Hs').
    exists st2'. split; [exact H2|]. split; [congruence|exact Hs'].
Qed.

(** X20. [--fix] changes no verdict of the run it is given to.  On files
    given once each, when [main] returns from a run with [--fix], the run
    without [--fix] on the same disk returns too, with the same exit code
    and the same summary, and leaves the disk as it was: each document is
    checked as it was found, and chained afterwards.  The chaining itself
    raises nothing after the checks: [add_hash_chain] returns on every log
    on which the checks returned (writing the file can still fail). *)
Theorem fix_keeps_verdicts (w : world) (verbose : bool)
    (examples : list pystr) (fs fs' : disk) (code : Z) (lines : list line) :
  NoDup examples ->
  main w verbose true examples fs = Returns (code, lines, fs') ->
  main w verbose false examples fs = Returns (code, lines, fs) /\
  (forall schema_ok log r,
      check_document schema_ok verbose log = Ok r ->
      exists log', add_hash_chain log = Ok log').
Proof.
  intros Hnd H. split; [|intros schema_ok log r; apply checked_document_chainable].
  destruct (main_returns_inv _ _ _ _ _ _ _ _ H)
    as [[Hs Hl] [(-> & -> & -> & _)|(Hne & st & E & -> & -> & _)]];
    unfold main; rewrite Hs, Hl; cbn [negb]; [reflexivity|].
  destruct examples as [|path rest]; [congruence|].
  remember (path :: rest) as examples eqn:Ex. clear Ex Hne.
  set (st0 := {| passed_files := 0; all_messages := []; files := fs |}) in *.
  assert (Hsame : same_on examples st0 st0) by (repeat split).
  destruct (main_loop_fix w verbose examples st0 st0 st Hnd Hsame E)
    as (s2 & -> & Hfs & Hp & Hm & _).
  cbn [and_then]. now rewrite Hp, Hm, Hfs.
Qed.

Lemma fix_keeps_verdicts_witness :
  main sample_world false false sample_paths sample_disk =
  Returns (1, [Fail (py "a/process-log.json");
               FailInvalidJson (py "b/process-log.json");
               Pass (py "c/process-log.json")], sample_disk) /\
  (forall schema_ok log r,
      check_document schema_ok false log = Ok r ->
      exists log', add_hash_chain log = Ok log').
Proof.
  apply (fix_keeps_verdicts sample_world false sample_paths sample_disk
           [(py "a/process-log.json", Doc tampered_chained_log);
            (py "b/process-log.json", BadJson);
            (py "c/process-log.json", Doc chained_log)]).
  - repeat constructor; cbn; intuition discriminate.
  - vm_compute; reflexivity.
Defined.

(** The converse needs files that can be written: [main] has no handler
    around the write. *)
Example fix_stops_on_read_only_file :
  main read_only_world false false [py "u"] [(py "u", Doc broken_chain_log)] =
  Returns (1, [Fail (py "u")], [(py "u", Doc broken_chain_log)]) /\
  main read_only_world false true [py "u"] [(py "u", Doc broken_chain_log)] =
  Fails WriteFails.
Proof. evaluate. Qed.

(** A file given twice: with [--fix] the second turn finds the chain the
    first turn wrote, and passes a document the run without [--fix] fails
    twice. *)
Example fix_changes_verdict_of_file_given_twice :
  main sample_world false false [py "u"; py "u"]
       [(py "u", Doc broken_chain_log)] =
  Returns (1, [Fail (py "u"); Fail (py "u")], [(py "u", Doc broken_chain_log)]) /\
  main sample_world false true [py "u"; py "u"]
       [(py "u", Doc broken_chain_log)] =
  Returns (1, [Fail (py "u"); Pass (py "u")], [(py "u", Doc chained_log)]).
Proof. evaluate. Qed.

Lemma main_loop_fix_disk (w : world) (verbose : bool) (examples : list pystr)
    (st st' : main_state) :
  NoDup examples ->
  main_loop w verbose true examples st = Returns st' ->
  forall p,
    (In p examples -> forall log,
       read p (files st) = Some (Doc log) ->
       exists log', add_hash_chain log = Ok log' /\
                    read p (files st') = Some (Doc log')) /\
    (~ In p examples -> read p (files st') = read p (files st)).
Proof.
  intros Hnd. revert st.
  induction Hnd as [|path rest Hnot Hnd IH]; intros st H p.
  - cbn in H. injection H as <-. split; [intros []|reflexivity].
  - cbn [main_loop] in H.
    destruct (main_step w verbose true path st) as [st1| | | |] eqn:E;
      try discriminate.
    cbn [and_then] in H. destruct (IH _ H p) as [IHin IHout].
    assert (Hother : p <> path -> read p (files st1) = read p (files st)).
    { intros Hne.
      destruct (main_step_returns _ _ _ _ _ _ E)
        as [(_ & _ & _ & ->)|(log & schema_ok & file_ok & msgs & _ & _ & _ & _ & _ & _ & log' & _ & _ & ->)];
        [reflexivity|].
      apply read_write_other. congruence. }
    split.
    + intros [<-|Hin] log Hr.
      * destruct (main_step_returns _ _ _ _ _ _ E)
          as [(Hbad & _)|(log0 & schema_ok & file_ok & msgs & Hr0 & _ & _ & _ & _ & _ & log' & Hadd & _ & Hfs)];
          [congruence|].
        rewrite Hr in Hr0. injection Hr0 as <-.
        exists log'. split; [exact Hadd|].
        rewrite (IHout Hnot), Hfs. apply read_write_same.
      * apply IHin; [exact Hin|]. rewrite Hother; [exact Hr|].
        intros ->. exact (Hnot Hin).
    + intros Hout. rewrite IHout by (intros Hin; apply Hout; now right).
      apply Hother. intros ->. apply Hout. now left.
Qed.

(** X21. What [--fix] leaves on the disk.  When [main] returns from a run
    with [--fix] on files given once each, every document among them is
    replaced by its chained form, on which [verify_hash_chain] returns
    true; the files that are not JSON and the files not given are as they
    were. *)
Theorem fix_chains_documents (w : world) (verbose : bool)
    (examples : list pystr) (fs fs' : disk) (code : Z) (lines : list line)
    (path : pystr) :
  NoDup examples ->
  main w verbose true examples fs = Returns (code, lines, fs') ->
  (In path examples -> forall log,
     read path fs = Some (Doc log) ->
     exists log' msgs,
       add_hash_chain log = Ok log' /\
       read path fs' = Some (Doc log') /\
       verify_hash_chain log' verbose = Ok (true, msgs)) /\
  (read path fs = Some BadJson -> read path fs' = Some BadJson) /\
  (~ In path examples -> read path fs' = read path fs).
Proof.
  intros Hnd H.
  destruct (main_returns_inv _ _ _ _ _ _ _ _ H)
    as [_ [(-> & _ & _ & ->)|(_ & st & E & _ & _ & ->)]].
  - split; [intros []|]. auto.
  - destruct (main_loop_fix_disk _ _ _ _ _ Hnd E path) as [Hin Hout].
    cbn [files] in Hin, Hout. split; [|split; [|exact Hout]].
    + intros Hp log Hr. destruct (Hin Hp log Hr) as (log' & Hadd & Hr').
      destruct (chained_log_intact verbose _ _ Hadd) as [msgs Hv].
      exists log', msgs. auto.
    + intros Hbad.
      exact (proj1 (main_loop_bad_json _ _ _ _ _ _ E path Hbad)).
Qed.

Lemma fix_chains_documents_witness :
  (In (py "u") [py "u"] -> forall log,
     read (py "u") [(py "u", Doc broken_chain_log)] = Some (Doc log) ->
     exists log' msgs,
       add_hash_chain log = Ok log' /\
       read (py "u") [(py "u", Doc chained_log)] = Some (Doc log') /\
       verify_hash_chain log' false = Ok (true, msgs)) /\
  (read (py "u") [(py "u", Doc broken_chain_log)] = Some BadJson ->
   read (py "u") [(py "u", Doc chained_log)] = Some BadJson) /\
  (~ In (py "u") [py "u"] ->
   read (py "u") [(py "u", Doc chained_log)] =
   read (py "u") [(py "u", Doc broken_chain_log)]).
Proof.
  apply (fix_chains_documents sample_world false [py "u"]
           [(py "u", Doc broken_chain_log)] [(py "u", Doc chained_log)]
           1 [Fail (py "u")] (py "u")).
  - repeat constructor. intros [].
  - vm_compute; reflexivity.
Defined.

(** * Chaining twice *)

(** On a chained run [add_hash_chain] writes back what is there. *)
Lemma chain_fixed (sid : json) (p : pystr) (l : list json) (q : pystr) :
  chain sid p l q -> ahc_loop sid l p = Ok (l, q).
Proof.
  induction 1 as [p|p d h l q Hh Hs Hc IH]; [reflexivity|].
  cbn [ahc_loop]. rewrite Hh. cbn [bind py_setitem]. rewrite IH. cbn [bind].
  rewrite dict_set_same; [reflexivity|].
  unfold get_or in Hs. destruct (lookup (py "_hash") d) as [v|]; [congruence|].
  injection Hs as <-. now apply compute_event_hash_truthy in Hh.
Qed.

(** X22. [add_hash_chain] is idempotent wherever it returns: whenever it
    returns a log, it returns that same log when applied to it again. *)
Theorem add_hash_chain_twice (log log' : json) :
  add_hash_chain log = Ok log' -> add_hash_chain log' = Ok log'.
Proof.
  intros H.
  destruct (add_hash_chain_shape _ _ H) as (d' & h & -> & Hc & Hsid & Hg & Hit & Hf).
  pose proof (chain_fixed _ _ _ _ Hc) as Hloop.
  assert (Hs : session_id_of (JDict d') = session_id_of log).
  { destruct (add_hash_chain_inv _ _ H) as (d & l' & h' & _ & _ & _ & Es & _).
    exact Es. }
  assert (Hlen : py_len (get_or (py "events") (JList []) d') =
                 Ok (length (events_of log))).
  { rewrite (Forall2_length Hf). cbn [events_of] in *. unfold get_or in *.
    destruct (lookup (py "events") d') as [[| | |s|l|d0]|]; try discriminate;
      cbn [py_iter py_len] in *.
    - injection Hit as Hit. destruct s; [reflexivity|discriminate].
    - reflexivity.
    - injection Hit as Hit. destruct d0; [reflexivity|discriminate].
    - reflexivity. }
  unfold add_hash_chain. rewrite !py_get_dict. cbn [bind].
  rewrite Hit. cbn [bind]. rewrite Hsid, Hloop. cbn [bind].
  rewrite Hlen. cbn [bind py_items py_setitem]. do 2 f_equal.
  assert (Hst : store_events d' (events_of (JDict d')) = d').
  { unfold store_events. cbn [events_of].
    destruct (lookup (py "events") d') as [[| | | |l|]|] eqn:E; try reflexivity.
    now apply dict_set_same. }
  rewrite Hst, Hs. apply dict_set_same.
  unfold get_or in Hg.
  destruct (lookup (py "_integrity") d') as [v|] eqn:E; [now rewrite Hg|].
  discriminate.
Qed.

Lemma add_hash_chain_twice_witness :
  add_hash_chain chained_log = Ok chained_log.
Proof.
  apply (add_hash_chain_twice broken_chain_log chained_log).
  vm_compute; reflexivity.
Defined.

(** * Text that cannot be hashed *)

Lemma encode_char_raises (c : N) (x : exn) :
  Utf8.encode_char c = Raise x -> x = UnicodeEncodeError.
Proof.
  unfold Utf8.encode_char. cbv zeta.
  repeat match goal with
         | |- context [if ?b then _ else _] => destruct b
         end; congruence.
Qed.

Lemma encode_raises (s : pystr) :
  Utf8.encodable s = false -> Utf8.encode s = Raise UnicodeEncodeError.
Proof.
  intros H. destruct (Utf8.encode s) as [bs|x] eqn:E.
  - assert (Utf8.encodable s = true) by (apply encode_returns; eauto).
    congruence.
  - f_equal. clear H. revert x E.
    induction s as [|c s IH]; intros x E; [discriminate|].
    cbn [Utf8.encode] in E.
    destruct (Utf8.encode_char c) as [b|y] eqn:Ec.
    + cbn [bind] in E. destruct (Utf8.encode s) as [bs|y]; [discriminate|].
      cbn [bind] in E. injection E as <-. now apply IH.
    + cbn [bind] in E. injection E as <-. exact (encode_char_raises _ _ Ec).
Qed.

Lemma compute_event_hash_unencodable (d : dict) (p s : pystr) :
  Utf8.encodable p && Utf8.encodable s = false ->
  compute_event_hash (JDict d) (JStr p) (JStr s) = Raise UnicodeEncodeError.
Proof.
  intros H. rewrite compute_event_hash_text, encode_raises; [reflexivity|].
  rewrite !encodable_app, dumps_encodable. cbn [andb].
  change (Utf8.encodable (py "|")) with true. cbn [andb]. exact H.
Qed.

(** X23. What an event says never makes its hash fail, and a surrogate in
    the session id always does: for an event object and a text session id
    holding a code point that UTF-8 cannot encode (a lone surrogate, which
    JSON text can carry), [compute_event_hash] raises [UnicodeEncodeError]
    whatever the event holds; so [verify_hash_chain], [verify_process_log]
    and [add_hash_chain] raise it on every log with that session id and an
    event object first. *)
Theorem surrogate_session_id_raises (d e : dict) (s : pystr) (rest : list json)
    (verbose : bool) :
  Utf8.encodable s = false ->
  get_or (py "session_id") (JStr []) d = JStr s ->
  get_or (py "events") (JList []) d = JList (JDict e :: rest) ->
  (forall p, compute_event_hash (JDict e) (JStr p) (JStr s) =
             Raise UnicodeEncodeError) /\
  verify_hash_chain (JDict d) verbose = Raise UnicodeEncodeError /\
  verify_process_log (JDict d) = Raise UnicodeEncodeError /\
  add_hash_chain (JDict d) = Raise UnicodeEncodeError.
Proof.
  intros Hs Es El.
  assert (Hh : forall p, compute_event_hash (JDict e) (JStr p) (JStr s) =
                         Raise UnicodeEncodeError).
  { intros p. apply compute_event_hash_unencodable. rewrite Hs. apply andb_false_r. }
  split; [exact Hh|]. split; [|split].
  - unfold verify_hash_chain. rewrite !py_get_dict, Es, El.
    cbn [bind py_iter vhc_loop vhc_step py_get initial prev_hash].
    now rewrite Hh.
  - unfold verify_process_log. rewrite !py_get_dict, Es, El.
    cbn [bind py_iter vpl_loop py_get]. now rewrite Hh.
  - unfold add_hash_chain. rewrite !py_get_dict, Es, El.
    cbn [bind py_iter ahc_loop]. now rewrite Hh.
Qed.

Lemma surrogate_session_id_raises_witness :
  (forall p, compute_event_hash (JDict ev_start) (JStr p) (JStr [55296%N]) =
             Raise UnicodeEncodeError) /\
  verify_hash_chain surrogate_log false = Raise UnicodeEncodeError /\
  verify_process_log surrogate_log = Raise UnicodeEncodeError /\
  add_hash_chain surrogate_log = Raise UnicodeEncodeError.
Proof.
  apply (surrogate_session_id_raises _ ev_start [55296%N] [] false); reflexivity.
Defined.

(** * Unsigned logs *)

Lemma expected_chain_app (sid : json) (l1 l2 : list json) (p : pystr) :
  expected_chain sid (l1 ++ l2) p =
  (hs1 <- expected_chain sid l1 p ;;
   hs2 <- expected_chain sid l2 (last hs1 p) ;;
   Ok (hs1 ++ hs2)).
Proof.
  revert p. induction l1 as [|e l1 IH]; intros p.
  - cbn. now destruct (expected_chain sid l2 p).
  - cbn [app expected_chain].
    destruct (compute_event_hash e (JStr p) sid) as [h|x]; [|reflexivity].
    cbn [bind]. rewrite IH.
    destruct (expected_chain sid l1 h) as [hs1|x]; [|reflexivity].
    cbn [bind]. rewrite (last_cons_default h hs1 p).
    now destruct (expected_chain sid l2 (last hs1 h)).
Qed.

Lemma expected_chain_length (sid : json) (l : list json) (p : pystr)
    (hs : list pystr) :
  expected_chain sid l p = Ok hs -> length hs = length l.
Proof.
  revert p hs. induction l as [|e l IH]; intros p hs H.
  - cbn in H. now injection H as <-.
  - cbn [expected_chain] in H. unbind H. unbind H. injection H as <-.
    cbn [length]. f_equal. exact (IH _ _ Ha0).
Qed.

(** The walk over events without a hash, by either verifier: one warning
    for each event, the flag as it was, and the previous hash moved on to
    the last expected hash. *)
Lemma unsigned_walk (verbose : bool) (s : pystr) (l : list json) :
  Utf8.encodable s = true ->
  forallb is_dict l = true ->
  forallb (fun e => negb (truthy (stored_hash_of e))) l = true ->
  forall (p : pystr) (i : nat) (st : chain_state),
    Utf8.encodable p = true -> prev_hash st = JStr p ->
    exists hs,
      expected_chain (JStr s) l p = Ok hs /\
      Utf8.encodable (last hs p) = true /\
      vhc_loop verbose (JStr s) l i st =
      Ok {| messages := messages st ++ unsigned_findings i l;
            prev_hash := JStr (last hs p);
            all_ok := all_ok st |} /\
      vpl_loop (JStr s) l i (JStr p) = Ok (inr (JStr (last hs p))).
Proof.
  intros Hs. induction l as [|e l IH]; intros Hl Hno p i st Hp Hst.
  - exists []. cbn. rewrite app_nil_r, <- Hst. destruct st. auto.
  - cbn [forallb] in Hl, Hno.
    apply andb_true_iff in Hl as [He Hl]. apply andb_true_iff in Hno as [Hne Hno].
    destruct e as [| | | | |d]; try discriminate.
    destruct (compute_event_hash_returns d p s Hp Hs) as (bytes & _ & Hh).
    set (h := Sha256.hexdigest bytes) in *.
    assert (Hhe : Utf8.encodable h = true) by apply hexdigest_encodable.
    apply negb_true_iff in Hne.
    assert (Hor : py_or (stored_hash_of (JDict d)) (JStr h) = JStr h)
      by (unfold py_or; now rewrite Hne).
    assert (Hstep : vhc_step verbose (JStr s) i (JDict d) st =
              Ok {| messages := messages st ++ [warn (EventNoHash i (event_type (JDict d)))];
                    prev_hash := JStr h;
                    all_ok := all_ok st |}).
    { rewrite (vhc_step_eq verbose (JStr s) i (JDict d) st h)
        by (rewrite Hst; exact Hh).
      unfold event_messages. rewrite Hne, Hor. cbn [negb no_fail forallb is_fail level_of warn].
      now rewrite andb_true_r. }
    destruct (IH Hl Hno h (S i)
                {| messages := messages st ++ [warn (EventNoHash i (event_type (JDict d)))];
                   prev_hash := JStr h; all_ok := all_ok st |} Hhe eq_refl)
      as (hs & Hhs & Hlast & Hv & Hvpl).
    exists (h :: hs). rewrite (last_cons_default h hs p).
    split; [|split; [exact Hlast|split]].
    + cbn [expected_chain]. rewrite Hh. cbn [bind]. now rewrite Hhs.
    + cbn [vhc_loop]. rewrite Hstep. cbn [bind]. rewrite Hv.
      cbn [messages all_ok unsigned_findings]. now rewrite <- app_assoc.
    + cbn [vpl_loop py_get]. unfold get_or in Hne, Hor. cbn [stored_hash_of] in Hne, Hor.
      unfold get_or in Hne, Hor.
      cbn [bind]. rewrite Hh. cbn [bind]. rewrite Hne. cbn [andb].
      rewrite Hor. exact Hvpl.
Qed.

Lemma unsigned_findings_warn (i : nat) (l : list json) :
  forallb is_warn (unsigned_findings i l) = true.
Proof. revert i. induction l as [|e l IH]; intros i; [reflexivity|]. cbn. apply IH. Qed.

(** C6. A log in which no event has a [_hash] and which has no
    [_integrity] verifies as intact, in either mode and by either verifier.
    The messages of [verify_hash_chain] are one warning for each event, in
    their order, and the warning that the chain is not anchored.  On each
    event the walk moves its previous hash on to the expected hash of that
    event: the hash each event is checked against is computed on the
    expected hash of the event before it, and the walk ends on the last of
    these hashes, which is the hash a head hash put on the log is compared
    with by either verifier. *)
Theorem unsigned_log_intact (log : json) (verbose : bool) :
  chainable log = true -> unsigned log = true ->
  exists hs,
    expected_chain (session_id_of log) (events_of log) [] = Ok hs /\
    verify_hash_chain log verbose =
    Ok (true, unsigned_findings 0 (events_of log) ++ [warn NotAnchored]) /\
    forallb is_warn (unsigned_findings 0 (events_of log) ++ [warn NotAnchored])
    = true /\
    verify_process_log log = Ok (true, LogIntact (length (events_of log))) /\
    (forall i e,
        nth_error (events_of log) i = Some e ->
        exists st st' h,
          vhc_loop verbose (session_id_of log)
                   (firstn i (events_of log)) 0 initial = Ok st /\
          compute_event_hash e (prev_hash st) (session_id_of log) = Ok h /\
          vhc_loop verbose (session_id_of log)
                   (firstn (S i) (events_of log)) 0 initial = Ok st' /\
          prev_hash st' = JStr h /\
          nth_error hs i = Some h) /\
    (forall head,
        truthy (JStr head) = true ->
        str_eqb head (last hs []) = false ->
        verify_hash_chain (anchored head log) verbose =
        Ok (false,
            unsigned_findings 0 (events_of log) ++
            [fail (HeadHashMismatch (JStr (last hs [])) (JStr head))]) /\
        verify_process_log (anchored head log) =
        Ok (false,
            HeadMismatchDetail (JStr (firstn 16 (last hs [])))
                               (JStr (firstn 16 head)))).
Proof.
  intros Hc Hu.
  destruct (unsigned_inv _ Hc Hu)
    as (d & s & l & -> & Es & Hs & El & Eev & Hl & Hno & Eg & Hv).
  pose proof (valid_events_dicts _ Hl) as Hd.
  rewrite Eev, (valid_log_session _ _ _ eq_refl Es).
  destruct (unsigned_walk verbose s l Hs Hd Hno [] 0 initial eq_refl eq_refl)
    as (hs & Hhs & _ & Hwalk & Hvpl).
  cbn [messages all_ok initial app] in Hwalk.
  exists hs. split; [exact Hhs|]. split; [|split; [|split; [|split]]].
  - rewrite (verify_hash_chain_valid verbose d s l [] _ Es El Eg Hwalk).
    reflexivity.
  - rewrite forallb_app, unsigned_findings_warn. reflexivity.
  - unfold verify_process_log. rewrite !py_get_dict, Es, El, Eg.
    cbn [bind py_iter]. rewrite Hvpl. reflexivity.
  - intros i e Hn.
    destruct (nth_error_split _ _ Hn) as (l1 & l2 & -> & <-).
    rewrite firstn_length_app, (firstn_snoc _ _ _ Hn), firstn_length_app.
    rewrite forallb_app in Hd, Hno.
    apply andb_true_iff in Hd as [Hd1 Hd2]. apply andb_true_iff in Hno as [Hn1 Hn2].
    destruct (unsigned_walk verbose s l1 Hs Hd1 Hn1 [] 0 initial eq_refl eq_refl)
      as (hs1 & Hhs1 & He1 & Hw1 & _).
    rewrite expected_chain_app, Hhs1 in Hhs. cbn [bind expected_chain] in Hhs.
    destruct (compute_event_hash e (JStr (last hs1 [])) (JStr s)) as [h|x] eqn:Hh;
      [|discriminate].
    cbn [bind] in Hhs.
    destruct (expected_chain (JStr s) l2 h) as [hs2|x]; [|discriminate].
    cbn [bind] in Hhs. injection Hhs as <-.
    cbn [forallb] in Hn2. apply andb_true_iff in Hn2 as [Hne _].
    apply negb_true_iff in Hne.
    eexists _, _, h. split; [exact Hw1|]. split; [exact Hh|].
    split; [|split].
    + rewrite vhc_loop_app, Hw1. cbn [bind vhc_loop].
      rewrite (vhc_step_eq verbose (JStr s) _ e
                 {| messages := messages initial ++ unsigned_findings 0 l1;
                    prev_hash := JStr (last hs1 []);
                    all_ok := all_ok initial |} h Hh).
      cbn [bind]. reflexivity.
    + cbn [prev_hash]. unfold py_or. now rewrite Hne.
    + rewrite nth_error_app2; rewrite (expected_chain_length _ _ _ _ Hhs1); [|lia].
      now rewrite Nat.sub_diag.
  - intros head Ht Hne. cbn [anchored].
    set (d2 := dict_set (py "_integrity") (JDict [(py "head_hash", JStr head)]) d).
    assert (Es2 : get_or (py "session_id") (JStr []) d2 = JStr s)
      by (unfold d2; now rewrite get_or_set_other by reflexivity).
    assert (El2 : get_or (py "events") (JList []) d2 = JList l)
      by (unfold d2; now rewrite get_or_set_other by reflexivity).
    assert (Eg2 : get_or (py "_integrity") (JDict []) d2 =
                  JDict [(py "head_hash", JStr head)])
      by (unfold d2; now rewrite get_or_set_same).
    assert (Hpy : py_ne (JStr head) (JStr (last hs [])) = true)
      by (unfold py_ne; cbn [py_eq]; now rewrite Hne).
    split.
    + rewrite (verify_hash_chain_valid verbose d2 s l _ _ Es2 El2 Eg2 Hwalk).
      unfold check_head.
      change (get_or (py "head_hash") (JStr []) [(py "head_hash", JStr head)])
        with (JStr head).
      cbn [prev_hash messages]. now rewrite Ht, Hpy.
    + unfold verify_process_log. rewrite !py_get_dict, Es2, El2, Eg2.
      cbn [bind py_iter]. rewrite Hvpl. cbn [bind py_get].
      change (match lookup (py "head_hash") [(py "head_hash", JStr head)] with
              | Some x => x
              | None => JStr []
              end) with (JStr head).
      rewrite Ht, Hpy. reflexivity.
Qed.

Lemma unsigned_log_intact_witness :
  chainable plain_log = true /\ unsigned plain_log = true /\
  exists hs,
    expected_chain (session_id_of plain_log) (events_of plain_log) [] = Ok hs /\
    verify_hash_chain plain_log false =
    Ok (true, unsigned_findings 0 (events_of plain_log) ++ [warn NotAnchored]) /\
    forallb is_warn (unsigned_findings 0 (events_of plain_log) ++ [warn NotAnchored])
    = true /\
    verify_process_log plain_log = Ok (true, LogIntact (length (events_of plain_log))) /\
    (forall i e,
        nth_error (events_of plain_log) i = Some e ->
        exists st st' h,
          vhc_loop false (session_id_of plain_log)
                   (firstn i (events_of plain_log)) 0 initial = Ok st /\
          compute_event_hash e (prev_hash st) (session_id_of plain_log) = Ok h /\
          vhc_loop false (session_id_of plain_log)
                   (firstn (S i) (events_of plain_log)) 0 initial = Ok st' /\
          prev_hash st' = JStr h /\
          nth_error hs i = Some h) /\
    (forall head,
        truthy (JStr head) = true ->
        str_eqb head (last hs []) = false ->
        verify_hash_chain (anchored head plain_log) false =
        Ok (false,
            unsigned_findings 0 (events_of plain_log) ++
            [fail (HeadHashMismatch (JStr (last hs [])) (JStr head))]) /\
        verify_process_log (anchored head plain_log) =
        Ok (false,
            HeadMismatchDetail (JStr (firstn 16 (last hs [])))
                               (JStr (firstn 16 head)))).
Proof.
  split; [reflexivity|]. split; [reflexivity|].
  apply (unsigned_log_intact plain_log false); reflexivity.
Defined.

(** The unsigned sample: its three warnings, the expected hashes the walk
    moves on to, and a head hash put on it. *)
Example verify_plain_log :
  expected_chain (session_id_of plain_log) (events_of plain_log) [] =
  Ok plain_hashes /\
  verify_hash_chain plain_log false =
  Ok (true,
      [warn (EventNoHash 0 (JStr (py "session_start")));
       warn (EventNoHash 1 (JStr (py "paste")));
       warn (EventNoHash 2 (JStr (py "session_end")));
       warn NotAnchored]) /\
  verify_hash_chain (anchored hash2 plain_log) false =
  Ok (true,
      [warn (EventNoHash 0 (JStr (py "session_start")));
       warn (EventNoHash 1 (JStr (py "paste")));
       warn (EventNoHash 2 (JStr (py "session_end")))]) /\
  verify_hash_chain (anchored hash1 plain_log) false =
  Ok (false,
      [warn (EventNoHash 0 (JStr (py "session_start")));
       warn (EventNoHash 1 (JStr (py "paste")));
       warn (EventNoHash 2 (JStr (py "session_end")));
       fail (HeadHashMismatch (JStr hash2) (JStr hash1))]).
Proof. evaluate. Qed.
